(** * webchanges: the job model of [webchanges/jobs.py]

    A shallow embedding of the job classes ([JobBase], [Job], [UrlJob],
    [BrowserJob], [ShellJob]): resolution of a job declaration to a job
    class, validation of its directives, the job GUID, the classification
    of errors and the preparation and post-processing of a retrieval.

    Python objects are modelled dynamically, as the code uses them: a
    value is a tagged union, a [dict] is an association list in insertion
    order with unique keys, a job is its class together with its instance
    attributes, and attribute access falls back to the class-level
    defaults of [JobBase]. *)

From Stdlib Require Import List String Ascii ZArith QArith Qround Bool Lia Arith.
From Stdlib Require Import Permutation DecimalString DecimalZ.
Import ListNotations.

Local Open Scope string_scope.
Local Open Scope Z_scope.

Set Warnings "-register-all".

(** ** Python values *)

(** [CaseInsensitiveDict._store]: lower-cased key -> (key as last set, value),
    in insertion order. *)
Definition ci_store (V : Type) : Type := list (string * (string * V)).

Inductive value : Type :=
| VNone
| VBool (b : bool)
| VInt (n : Z)
| VFloat (q : Q)
| VStr (s : string)
| VList (l : list value)
| VDict (d : list (string * value))
| VCIDict (d : ci_store value).

Definition dict : Type := list (string * value).

Definition Z_of_bool (b : bool) : Z := if b then 1 else 0.

(** [bool(v)]. *)
Definition truthy (v : value) : bool :=
  match v with
  | VNone => false
  | VBool b => b
  | VInt n => negb (n =? 0)
  | VFloat q => negb (Qeq_bool q 0)
  | VStr s => negb (String.eqb s "")
  | VList l => match l with [] => false | _ => true end
  | VDict d => match d with [] => false | _ => true end
  | VCIDict d => match d with [] => false | _ => true end
  end.

(** [v is not None]. *)
Definition is_not_None (v : value) : bool :=
  match v with VNone => false | _ => true end.

(** [a or b]. *)
Definition py_or (a b : value) : value := if truthy a then a else b.

(** [v == n] for an [int] [n]. *)
Definition eq_int (v : value) (n : Z) : bool :=
  match v with
  | VBool b => Z_of_bool b =? n
  | VInt m => m =? n
  | VFloat q => Qeq_bool q (inject_Z n)
  | _ => false
  end.

(** [isinstance(v, int)]: [bool] is a subclass of [int]. *)
Definition isinstance_int (v : value) : bool :=
  match v with VBool _ | VInt _ => true | _ => false end.

(** ** Python strings *)

Definition in_string (c : ascii) (s : string) : bool :=
  existsb (Ascii.eqb c) (list_ascii_of_string s).

(** A Python [str] is modelled as a [string] of its characters, one [ascii]
    per code point, so text is limited to the code points below 256. *)

(** [c.isspace()]. *)
Definition isspace (c : ascii) : bool :=
  let n := nat_of_ascii c in
  ((9 <=? n) && (n <=? 13) || (28 <=? n) && (n <=? 32)
   || (n =? 133) || (n =? 160))%nat.

(** [c.lower()]. *)
Definition lower_char (c : ascii) : ascii :=
  let n := nat_of_ascii c in
  if ((65 <=? n) && (n <=? 90)
      || (192 <=? n) && (n <=? 222) && negb (n =? 215))%nat
  then ascii_of_nat (n + 32) else c.

(** [s.lower()]. *)
Fixpoint lower (s : string) : string :=
  match s with
  | EmptyString => EmptyString
  | String c s' => String (lower_char c) (lower s')
  end.

(** [s.lstrip()]. *)
Fixpoint lstrip (s : string) : string :=
  match s with
  | EmptyString => EmptyString
  | String c s' => if isspace c then lstrip s' else s
  end.

(** [s.rstrip()]. *)
Fixpoint rstrip (s : string) : string :=
  match s with
  | EmptyString => EmptyString
  | String c s' =>
      match rstrip s' with
      | EmptyString => if isspace c then EmptyString else String c EmptyString
      | r => String c r
      end
  end.

(** [s.strip()]. *)
Definition strip (s : string) : string := rstrip (lstrip s).

(** [s.split(sep)] for a one-character separator: the current field and
    the fields closed so far are threaded through the scan. *)
Fixpoint split_at (sep : ascii) (s : string) : string * list string :=
  match s with
  | EmptyString => (EmptyString, [])
  | String c s' =>
      let '(field, fields) := split_at sep s' in
      if Ascii.eqb c sep then (EmptyString, field :: fields)
      else (String c field, fields)
  end.

Definition split (sep : ascii) (s : string) : list string :=
  let '(field, fields) := split_at sep s in field :: fields.

(** [s[:n]]. *)
Fixpoint take (n : nat) (s : string) : string :=
  match n, s with
  | S n', String c s' => String c (take n' s')
  | _, _ => EmptyString
  end.

(** [s.startswith(p)], returning what follows the prefix. *)
Fixpoint strip_prefix (p s : string) : option string :=
  match p with
  | EmptyString => Some s
  | String a p' =>
      match s with
      | String b s' => if Ascii.eqb a b then strip_prefix p' s' else None
      | EmptyString => None
      end
  end.

Definition startswith (s p : string) : bool :=
  match strip_prefix p s with Some _ => true | None => false end.

(** [str(n)] for an [int]: the decimal digits, after a minus sign below
    zero. *)
Definition str_of_int (n : Z) : string := NilZero.string_of_int (Z.to_int n).

Definition digit_char (d : Z) : ascii := ascii_of_nat (48 + Z.to_nat d).

(** [str(b)] for a [bool]. *)
Definition str_of_bool (b : bool) : string := if b then "True" else "False".

(** ** Python dicts: association lists in insertion order *)

Definition keys {V} (d : list (string * V)) : list string := map fst d.

(** Keys of a [dict] are unique. *)
Definition dict_wf {V} (d : list (string * V)) : Prop := NoDup (keys d).

(** [d.get(k)] as an option; [d.get(k)] itself is [get_or_None]. *)
Fixpoint lookup {V} (k : string) (d : list (string * V)) : option V :=
  match d with
  | [] => None
  | (k', v) :: d' => if String.eqb k k' then Some v else lookup k d'
  end.

Definition get_or (k : string) (default : value) (d : dict) : value :=
  match lookup k d with Some v => v | None => default end.

Definition get_or_None (k : string) (d : dict) : value := get_or k VNone d.

(** [k in d]. *)
Definition contains {V} (k : string) (d : list (string * V)) : bool :=
  match lookup k d with Some _ => true | None => false end.

(** [d[k] = v]: an existing key keeps its position. *)
Fixpoint setitem {V} (k : string) (v : V) (d : list (string * V))
  : list (string * V) :=
  match d with
  | [] => [(k, v)]
  | (k', v') :: d' =>
      if String.eqb k k' then (k, v) :: d' else (k', v') :: setitem k v d'
  end.

(** [d.pop(k, None)], the popped value dropped. *)
Fixpoint pop {V} (k : string) (d : list (string * V)) : list (string * V) :=
  match d with
  | [] => []
  | (k', v') :: d' => if String.eqb k k' then d' else (k', v') :: pop k d'
  end.

(** [d[k] = v] for a dict keyed by other objects than strings. *)
Fixpoint setitem_by {K V} (eqb : K -> K -> bool) (k : K) (v : V)
  (d : list (K * V)) : list (K * V) :=
  match d with
  | [] => [(k, v)]
  | (k', v') :: d' =>
      if eqb k k' then (k, v) :: d' else (k', v') :: setitem_by eqb k v d'
  end.

(** Two dicts with the same items, whatever their order. *)
Definition same_items (d1 d2 : dict) : Prop := forall k, lookup k d1 = lookup k d2.

(** [k in t] for a tuple of strings. *)
Definition mem (k : string) (t : list string) : bool :=
  existsb (String.eqb k) t.

(** [l.remove(x)]: the first occurrence goes. *)
Fixpoint remove_first {A} (eqb : A -> A -> bool) (x : A) (l : list A) : list A :=
  match l with
  | [] => []
  | y :: l' => if eqb x y then l' else y :: remove_first eqb x l'
  end.

(** [sorted(l, key=key, reverse=True)]: the sort is stable, also when
    reversed, so items with equal keys keep their order. *)
Fixpoint insert_desc {A} (key : A -> Z) (x : A) (l : list A) : list A :=
  match l with
  | [] => [x]
  | y :: l' => if key x <? key y then y :: insert_desc key x l' else x :: l
  end.

Definition sorted_reverse {A} (key : A -> Z) (l : list A) : list A :=
  fold_right (insert_desc key) [] l.

(** ** Exceptions *)

(** The messages of the [ValueError]s that [jobs.py] raises, with the
    values their f-strings interpolate. *)
Inductive message : Type :=
| RequiredMissing (k : string) (kwargs : dict)
| NoValueOrNoMatch (data : dict)
| NoMatch (data : dict)
| Unrecognized (k : string) (data : dict).

Inductive exception : Type :=
| ValueError (msg : message)
| AttributeError
| TypeError
| OSError
| NotModifiedError (status_code : Z)
(* requests.exceptions *)
| HTTPError (status_code : Z)
| ConnectionError
| Timeout
| ConnectTimeout
| ReadTimeout
| TooManyRedirects
| RequestException
(* pyppeteer.errors.PageError(args[0]) *)
| PageError (arg0 : string)
| BrowserResponseError (status_code : Z)
| ShellError (stderr : string)
| IndexError
| OtherError.

(** A computation that returns or raises. *)
Inductive result (A : Type) : Type :=
| Return (a : A)
| Raise (e : exception).
Arguments Return {A} a.
Arguments Raise {A} e.

Definition bind {A B} (m : result A) (f : A -> result B) : result B :=
  match m with
  | Return a => f a
  | Raise e => Raise e
  end.

Notation "x <- m ;; f" := (bind m (fun x => f))
  (at level 61, m at next level, right associativity).

(** ** Job classes *)

Inductive job_class : Type := Job | UrlJob | BrowserJob | ShellJob.

Definition job_class_eqb (a b : job_class) : bool :=
  match a, b with
  | Job, Job | UrlJob, UrlJob | BrowserJob, BrowserJob | ShellJob, ShellJob => true
  | _, _ => false
  end.

(** The class bodies: [__kind__], and the [__required__] and [__optional__]
    tuples each class declares itself. *)
Definition __kind__ (c : job_class) : string :=
  match c with
  | Job => ""
  | UrlJob => "url"
  | BrowserJob => "browser"
  | ShellJob => "shell"
  end.

Definition declared_required (c : job_class) : list string :=
  match c with
  | Job => []
  | UrlJob => ["url"]
  | BrowserJob => ["url"; "use_browser"]
  | ShellJob => ["command"]
  end.

Definition declared_optional (c : job_class) : list string :=
  match c with
  | Job =>
      ["index_number"; "name"; "note"; "additions_only"; "compared_versions";
       "contextlines"; "deletions_only"; "diff_filter"; "diff_tool"; "filter";
       "markdown_padded_tables"; "max_tries"; "is_markdown";
       "ignore_connection_errors"; "ignore_http_error_codes";
       "ignore_timeout_errors"; "ignore_too_many_redirects"]
  | UrlJob =>
      ["cookies"; "data"; "encoding"; "headers"; "http_proxy"; "https_proxy";
       "ignore_cached"; "method"; "no_redirects"; "ssl_no_verify"; "timeout";
       "user_visible_url"]
  | BrowserJob =>
      ["block_elements"; "chromium_revision"; "cookies"; "headers";
       "http_proxy"; "https_proxy"; "ignore_https_errors"; "navigate";
       "switches"; "timeout"; "user_visible_url"; "user_data_dir"; "wait_for";
       "wait_for_navigation"; "wait_until"]
  | ShellJob => []
  end.

(** The base class of each job class below [JobBase]. *)
Definition base (c : job_class) : option job_class :=
  match c with
  | Job => None
  | UrlJob | BrowserJob | ShellJob => Some Job
  end.

(** Modelled from the spec: the metaclass [TrackSubClasses] of
    [webchanges/util.py], which is not among the sources. A job has the
    common directives ([name], [filter], [max_tries], ...) besides those of its
    kind: when a class is created, its [__required__] and [__optional__] are
    its own tuples followed by those of its base. *)
Definition inherited (attr : job_class -> list string) (c : job_class)
  : list string :=
  match base c with
  | Some b => attr c ++ attr b
  | None => attr c
  end.

Definition __required__ : job_class -> list string := inherited declared_required.
Definition __optional__ : job_class -> list string := inherited declared_optional.

(** Modelled from the spec: [list(JobBase.__subclasses__.values())], the
    registry that [TrackSubClasses] fills as the classes are defined, each
    under its [__kind__]: the variants [UrlJob], [BrowserJob] and [ShellJob]
    in this order of registration, after the abstract [Job], which is
    registered under the kind [''] that it inherits from [JobBase] and which
    [unserialize] skips with [[1:]]. *)
Definition JobBase_subclasses : list job_class := [Job; UrlJob; BrowserJob; ShellJob].

(** Class-level attribute defaults of [JobBase] (and of [BrowserJob] for the
    proxy credentials), found when an instance has no attribute of its own. *)
Definition class_attr (c : job_class) (k : string) : option value :=
  if mem k ["url"; "command"; "user_visible_url"] then Some (VStr "")
  else if mem k ["index_number"; "chromium_revision"] then Some (VInt 0)
  else if String.eqb k "use_browser" then Some (VBool false)
  else if mem k ["block_elements"; "diff_filter"; "filter"] then Some (VList [])
  else if mem k
    ["additions_only"; "compared_versions"; "contextlines"; "cookies"; "data";
     "deletions_only"; "diff_tool"; "encoding"; "headers"; "http_proxy";
     "https_proxy"; "ignore_cached"; "ignore_connection_errors";
     "ignore_http_error_codes"; "ignore_https_errors"; "ignore_timeout_errors";
     "ignore_too_many_redirects"; "is_markdown"; "loop";
     "markdown_padded_tables"; "max_tries"; "method"; "name"; "navigate";
     "no_redirects"; "note"; "ssl_no_verify"; "switches"; "timeout";
     "user_data_dir"; "wait_for"; "wait_for_navigation"; "wait_until"]
  then Some VNone
  else if mem k ["proxy_username"; "proxy_password"] then
    match c with BrowserJob => Some (VStr "") | _ => None end
  else None.

(** A job: its class and its instance attributes ([self.__dict__]). *)
Record job : Type := { cls : job_class; attrs : dict }.

(** [self.k] for the attributes the class declares; those all exist, on the
    instance or as a class default. *)
Definition getattr (self : job) (k : string) : value :=
  match lookup k (attrs self) with
  | Some v => v
  | None => match class_attr (cls self) k with Some v => v | None => VNone end
  end.

(** [setattr(self, k, v)]. *)
Definition setattr (self : job) (k : string) (v : value) : job :=
  {| cls := cls self; attrs := setitem k v (attrs self) |}.

(** ** [JobBase.__init__], [from_dict] and [unserialize] *)

(** [JobBase.__init__(self, **kwargs)]; the message for a missing directive
    also gives the indexed location of the job, left out here. *)
Definition __init__ (c : job_class) (kwargs : dict) : result job :=
  match find (fun k => negb (contains k kwargs)) (__required__ c) with
  | Some k => Raise (ValueError (RequiredMissing k kwargs))
  | None =>
      Return (fold_left (fun self kv => setattr self (fst kv) (snd kv)) kwargs
                {| cls := c; attrs := [] |})
  end.

(** [cls.from_dict(data)]: the first key, in the order of the dict, that the
    class does not declare is reported. *)
Definition from_dict (c : job_class) (data : dict) : result job :=
  match find (fun k => negb (mem k (__required__ c ++ __optional__ c))) (keys data) with
  | Some k => Raise (ValueError (Unrecognized k data))
  | None => __init__ c data
  end.

(** Backwards compatibility with the 'navigate' directive. *)
Definition rewrite_navigate (data : dict) : dict :=
  if truthy (get_or_None "navigate" data)
     && negb (truthy (get_or_None "use_browser" data))
  then
    let data := setitem "url" (get_or "url" (get_or_None "navigate" data) data) data in
    setitem "use_browser" (VBool true) data
  else data.

(** Backwards compatibility with the 'kind' directive. *)
Definition drop_kind (data : dict) : dict :=
  if contains "kind" data then pop "kind" data else data.

(** [all(data.get(required) for required in subclass.__required__)]. *)
Definition all_required (data : dict) (subclass : job_class) : bool :=
  forallb (fun required => truthy (get_or_None required data)) (__required__ subclass).

(** Auto-detection of the job subclass based on required directives;
    [subclasses] is [list(cls.__subclasses__.values())]. *)
Definition matched_subclasses (subclasses : list job_class) (data : dict)
  : list job_class :=
  filter (all_required data) (tl subclasses).

(** [[data.get(required) is not None for required in match.__required__].count(True)]. *)
Definition count_not_None (data : dict) (c : job_class) : Z :=
  Z.of_nat (List.length (filter (fun required => is_not_None (get_or_None required data))
                      (__required__ c))).

(** The count the spec words: the required directives with a truthy value. *)
Definition count_truthy (data : dict) (c : job_class) : Z :=
  Z.of_nat (List.length (filter (fun required => truthy (get_or_None required data))
                           (__required__ c))).

Definition number_matched (data : dict) (matched : list job_class)
  : list (job_class * Z) :=
  fold_left (fun nm c => setitem_by job_class_eqb c (count_not_None data c) nm)
    matched [].

Definition job_subclass (subclasses : list job_class) (data : dict)
  : result job_class :=
  match matched_subclasses subclasses data with
  | [c] => Return c
  | [] =>
      if (List.length data =? 1)%nat then Raise (ValueError (NoValueOrNoMatch data))
      else Raise (ValueError (NoMatch data))
  | matched =>
      match sorted_reverse snd (number_matched data matched) with
      | x :: _ => Return (fst x)
      | [] => Raise IndexError
      end
  end.

(** Removal of the extra required directives of the other subclasses. *)
Definition remove_extra_required (subclasses : list job_class) (c : job_class)
  (data : dict) : dict :=
  let other_subclasses := remove_first job_class_eqb c (tl subclasses) in
  fold_left
    (fun data other_subclass =>
       fold_left (fun data k => if mem k (__required__ c) then data else pop k data)
         (__required__ other_subclass) data)
    other_subclasses data.

(** The declaration as [unserialize] has rewritten it when it detects the
    job subclass. *)
Definition compat (data : dict) : dict := drop_kind (rewrite_navigate data).

(** [JobBase.unserialize(data)] (the deprecation warnings are not modelled). *)
Definition unserialize (subclasses : list job_class) (data : dict) : result job :=
  let data := compat data in
  c <- job_subclass subclasses data ;;
  let data := remove_extra_required subclasses c data in
  from_dict c data.

(** ** SHA-1 ([hashlib.sha1]) *)

Module SHA1.

Definition w32 (x : Z) : Z := x mod 2 ^ 32.

Definition rotl (n x : Z) : Z :=
  w32 (Z.lor (Z.shiftl x n) (Z.shiftr x (32 - n))).

Definition add32 (x y : Z) : Z := w32 (x + y).

(** The [n] low bytes of [x], most significant first. *)
Fixpoint be_bytes (n : nat) (x : Z) : list Z :=
  match n with
  | O => []
  | S n' => (Z.shiftr x (8 * Z.of_nat n')) mod 256 :: be_bytes n' x
  end.

(** Message, 0x80, zeros up to 56 mod 64, bit length on 8 bytes. *)
Definition pad (msg : list Z) : list Z :=
  let len := Z.of_nat (List.length msg) in
  let zeros := Z.to_nat ((55 - len) mod 64) in
  msg ++ [128] ++ repeat 0 zeros ++ be_bytes 8 (8 * len).

Fixpoint words_of (n : nat) (bytes : list Z) : list Z :=
  match n, bytes with
  | S n', b0 :: b1 :: b2 :: b3 :: rest =>
      (b0 * 16777216 + b1 * 65536 + b2 * 256 + b3) :: words_of n' rest
  | _, _ => []
  end.

(** The message schedule; [recent] holds the last 16 words, newest first. *)
Fixpoint extend (n : nat) (recent : list Z) : list Z :=
  match n with
  | O => []
  | S n' =>
      let w := rotl 1 (Z.lxor (Z.lxor (nth 2 recent 0) (nth 7 recent 0))
                         (Z.lxor (nth 13 recent 0) (nth 15 recent 0))) in
      w :: extend n' (w :: firstn 15 recent)
  end.

Definition schedule (block : list Z) : list Z :=
  block ++ extend 64 (rev block).

Definition state : Type := (Z * Z * Z * Z * Z)%type.

Definition round (t : Z) (w : Z) (s : state) : state :=
  let '(a, b, c, d, e) := s in
  let '(f, k) :=
    if t <? 20 then
      (Z.lor (Z.land b c) (Z.land (Z.lxor b 4294967295) d), 1518500249)
    else if t <? 40 then (Z.lxor (Z.lxor b c) d, 1859775393)
    else if t <? 60 then
      (Z.lor (Z.lor (Z.land b c) (Z.land b d)) (Z.land c d), 2400959708)
    else (Z.lxor (Z.lxor b c) d, 3395469782) in
  let temp := w32 (rotl 5 a + f + e + k + w) in
  (temp, a, rotl 30 b, c, d).

Fixpoint rounds (t : Z) (ws : list Z) (s : state) : state :=
  match ws with
  | [] => s
  | w :: ws' => rounds (t + 1) ws' (round t w s)
  end.

Definition compress (h : state) (block : list Z) : state :=
  let '(h0, h1, h2, h3, h4) := h in
  let '(a, b, c, d, e) := rounds 0 (schedule block) h in
  (add32 h0 a, add32 h1 b, add32 h2 c, add32 h3 d, add32 h4 e).

Fixpoint blocks (n : nat) (bytes : list Z) (h : state) : state :=
  match n with
  | O => h
  | S n' => blocks n' (skipn 64 bytes) (compress h (words_of 16 bytes))
  end.

Definition initial : state :=
  (1732584193, 4023233417, 2562383102, 271733878, 3285377520).

Definition digest (msg : list Z) : state :=
  let padded := pad msg in
  blocks (List.length padded / 64) padded initial.

Definition hex_char (d : Z) : ascii :=
  if d <? 10 then ascii_of_nat (48 + Z.to_nat d)
  else ascii_of_nat (87 + Z.to_nat d).

Fixpoint hex (n : nat) (x : Z) : string :=
  match n with
  | O => EmptyString
  | S n' => String (hex_char ((Z.shiftr x (4 * Z.of_nat n')) mod 16)) (hex n' x)
  end.

(** [hashlib.sha1(msg).hexdigest()]. *)
Definition hexdigest (msg : list Z) : string :=
  let '(h0, h1, h2, h3, h4) := digest msg in
  hex 8 h0 ++ hex 8 h1 ++ hex 8 h2 ++ hex 8 h3 ++ hex 8 h4.

End SHA1.

(** [s.encode()]: UTF-8. *)
Fixpoint encode (s : string) : list Z :=
  match s with
  | EmptyString => []
  | String c s' =>
      let n := Z.of_nat (nat_of_ascii c) in
      if n <? 128 then n :: encode s'
      else (192 + n / 64) :: (128 + n mod 64) :: encode s'
  end.

(** ** Location and GUID *)

(** [get_location], as each class defines it; in [Job] its body is [pass]. *)
Definition get_location (self : job) : value :=
  match cls self with
  | Job => VNone
  | UrlJob | BrowserJob => py_or (getattr self "user_visible_url") (getattr self "url")
  | ShellJob => getattr self "command"
  end.

(** [JobBase.get_guid]; [location.encode()] needs a [str]. *)
Definition get_guid (self : job) : result string :=
  match get_location self with
  | VStr location => Return (SHA1.hexdigest (encode location))
  | _ => Raise AttributeError
  end.

(** ** The environment of a job *)

(** [CaseInsensitiveDict] of [requests.structures]. *)
Definition ci_setitem {V} (k : string) (v : V) (d : ci_store V) : ci_store V :=
  setitem (lower k) (k, v) d.

Definition ci_lookup {V} (k : string) (d : ci_store V) : option V :=
  option_map snd (lookup (lower k) d).

Definition ci_contains {V} (k : string) (d : ci_store V) : bool :=
  contains (lower k) d.

Definition ci_pop {V} (k : string) (d : ci_store V) : ci_store V :=
  pop (lower k) d.

(** What a retrieval returns as data: [bytes] or [str]. *)
Inductive payload : Type :=
| Bytes (b : string)
| Text (s : string).

(** The arguments of [requests.request]. *)
Module Request.
Record t : Type := {
  method : value;
  url : string;
  data : value;
  headers : ci_store value;
  cookies : value;
  timeout : value;
  allow_redirects : bool;
  proxies : dict;
  verify : bool
}.
End Request.

(** What the code reads of a [requests.Response]. *)
Module Response.
Record t : Type := {
  status_code : Z;
  history : list Z;                (* the redirect responses, by status *)
  headers : ci_store string;
  content : string;
  encoding : value;
  apparent_encoding : value;
  text : value -> string           (* the body decoded under an encoding *)
}.
End Response.

(** The arguments of [ftplib.FTP]. *)
Record FTP : Type := {
  host : string;
  user : string;
  passwd : string;
  ftp_timeout : value
}.

(** Calls that leave the program. *)
Inductive call : Type :=
| requests_request (r : Request.t)
| ftp_connect (f : FTP)
| read_file (filename : string)
| browser_launch
| subprocess_run (command : value).

(** The libraries and the outside world, as far as a job consults them. *)
Record world : Type := {
  builtin_str : value -> string;      (* [str(v)] of a float or a container *)
  user_agent : string;                (* [webchanges.__user_agent__] *)
  getenv : string -> value;           (* [os.getenv] *)
  os_name : string;                   (* [os.name] *)
  formatdate : Q -> string;           (* [email.utils.formatdate(timeval)] *)
  time : Q;                           (* the clock, for [formatdate()] *)
  urlparse_path : string -> string;
  urlparse_username : string -> value;
  urlparse_password : string -> value;
  urlparse_hostname : string -> value;
  filter_chain_needs_bytes : value -> bool;
  read_bytes : string -> result string;
  read_text : string -> result string;
  retrbinary : FTP -> string -> result (list string);
  retrlines : FTP -> string -> result (list string);
  request : Request.t -> result Response.t;
  browser : job -> result (string * value);   (* [asyncio.run(self._retrieve())] *)
  run_shell : value -> bool -> result payload  (* [subprocess.run(...).stdout] *)
}.

(** [str(v)]. *)
Definition str (W : world) (v : value) : string :=
  match v with
  | VNone => "None"
  | VBool b => str_of_bool b
  | VInt n => str_of_int n
  | VStr s => s
  | _ => builtin_str W v
  end.

(** [handler.JobState], what a retrieval reads of it. *)
Record JobState : Type := {
  old_etag : value;
  old_timestamp : option Q;
  tries : Z
}.

(** ** Classification of errors *)

Definition isinstance_ConnectionError (e : exception) : bool :=
  match e with ConnectionError | ConnectTimeout => true | _ => false end.

Definition isinstance_Timeout (e : exception) : bool :=
  match e with Timeout | ConnectTimeout | ReadTimeout => true | _ => false end.

Definition isinstance_TooManyRedirects (e : exception) : bool :=
  match e with TooManyRedirects => true | _ => false end.

(** [x in ignored_codes] for an [int] [x]. *)
Definition int_in (x : Z) (ignored_codes : list string) : bool :=
  existsb (fun code => eq_int (VStr code) x) ignored_codes.

(** [UrlJob.ignore_error]. *)
Definition UrlJob_ignore_error (W : world) (self : job) (exception : exception)
  : value :=
  if isinstance_ConnectionError exception
     && truthy (getattr self "ignore_connection_errors") then VBool true
  else if isinstance_Timeout exception
     && truthy (getattr self "ignore_timeout_errors") then VBool true
  else if isinstance_TooManyRedirects exception
     && truthy (getattr self "ignore_too_many_redirects") then VBool true
  else
    match exception with
    | HTTPError status_code =>
        let ignore_http_error_codes := getattr self "ignore_http_error_codes" in
        if truthy ignore_http_error_codes then
          if isinstance_int ignore_http_error_codes
             && eq_int ignore_http_error_codes status_code then VBool true
          else
            let ignored_codes :=
              match ignore_http_error_codes with
              | VStr s => map (fun s => lower (strip s)) (split "," s)
              | VList l => map (fun s => lower (strip (str W s))) l
              | _ => []
              end in
            py_or (VBool (mem (str_of_int status_code) ignored_codes))
              (VStr (str_of_bool (int_in (status_code / 100) ignored_codes) ++ "xx"))
        else VBool false
    | _ => VBool false
    end.

Definition CHROMIUM_CONNECTION_ERRORS : list string :=
  ["CONNECTION_CLOSED"; "CONNECTION_RESET"; "CONNECTION_REFUSED";
   "CONNECTION_ABORTED"; "CONNECTION_FAILED"; "NAME_NOT_RESOLVED";
   "INTERNET_DISCONNECTED"; "SSL_PROTOCOL_ERROR"; "ADDRESS_INVALID";
   "ADDRESS_UNREACHABLE"; "SSL_CLIENT_AUTH_CERT_NEEDED";
   "TUNNEL_CONNECTION_FAILED"; "NO_SSL_VERSIONS_ENABLED";
   "SSL_VERSION_OR_CIPHER_MISMATCH"; "SSL_RENEGOTIATION_REQUESTED";
   "PROXY_AUTH_UNSUPPORTED"; "CERT_ERROR_IN_SSL_RENEGOTIATION";
   "BAD_SSL_CLIENT_AUTH_CERT"; "CONNECTION_TIMED_OUT";
   "HOST_RESOLVER_QUEUE_TOO_LARGE"; "SOCKS_CONNECTION_FAILED";
   "SOCKS_CONNECTION_HOST_UNREACHABLE"; "ALPN_NEGOTIATION_FAILED";
   "SSL_NO_RENEGOTIATION"; "WINSOCK_UNEXPECTED_WRITTEN_BYTES";
   "SSL_DECOMPRESSION_FAILURE_ALERT"; "SSL_BAD_RECORD_MAC_ALERT";
   "PROXY_AUTH_REQUESTED"; "PROXY_CONNECTION_FAILED";
   "MANDATORY_PROXY_CONFIGURATION_FAILED"; "PRECONNECT_MAX_SOCKET_LIMIT";
   "SSL_CLIENT_AUTH_PRIVATE_KEY_ACCESS_DENIED";
   "SSL_CLIENT_AUTH_CERT_NO_PRIVATE_KEY"; "PROXY_CERTIFICATE_INVALID";
   "NAME_RESOLUTION_FAILED"; "NETWORK_ACCESS_DENIED"; "TEMPORARILY_THROTTLED";
   "HTTPS_PROXY_TUNNEL_RESPONSE_REDIRECT"; "SSL_CLIENT_AUTH_SIGNATURE_FAILED";
   "MSG_TOO_BIG"; "WS_PROTOCOL_ERROR"; "ADDRESS_IN_USE";
   "SSL_HANDSHAKE_NOT_COMPLETED"; "SSL_BAD_PEER_PUBLIC_KEY";
   "SSL_PINNED_KEY_NOT_IN_CERT_CHAIN"; "CLIENT_AUTH_CERT_TYPE_UNSUPPORTED";
   "SSL_DECRYPT_ERROR_ALERT"; "WS_THROTTLE_QUEUE_TOO_LARGE";
   "SSL_SERVER_CERT_CHANGED"; "SSL_UNRECOGNIZED_NAME_ALERT";
   "SOCKET_SET_RECEIVE_BUFFER_SIZE_ERROR"; "SOCKET_SET_SEND_BUFFER_SIZE_ERROR";
   "SOCKET_RECEIVE_BUFFER_SIZE_UNCHANGEABLE";
   "SOCKET_SEND_BUFFER_SIZE_UNCHANGEABLE"; "SSL_CLIENT_AUTH_CERT_BAD_FORMAT";
   "ICANN_NAME_COLLISION"; "SSL_SERVER_CERT_BAD_FORMAT";
   "CT_STH_PARSING_FAILED"; "CT_STH_INCOMPLETE";
   "UNABLE_TO_REUSE_CONNECTION_FOR_PROXY_AUTH";
   "CT_CONSISTENCY_PROOF_PARSING_FAILED"; "SSL_OBSOLETE_CIPHER"; "WS_UPGRADE";
   "READ_IF_READY_NOT_IMPLEMENTED"; "NO_BUFFER_SPACE";
   "SSL_CLIENT_AUTH_NO_COMMON_ALGORITHMS"; "EARLY_DATA_REJECTED";
   "WRONG_VERSION_ON_EARLY_DATA"; "TLS13_DOWNGRADE_DETECTED";
   "SSL_KEY_USAGE_INCOMPATIBLE"].

(** [BrowserJob.ignore_error], from its test of the exception on; the import
    of [PageError] from the optional package that the method starts with, and
    which fails where the package is not installed, is in
    [ignore_error_call]. *)
Definition BrowserJob_ignore_error (W : world) (self : job) (exception : exception)
  : value :=
  match exception with
  | PageError arg0 =>
      if truthy (getattr self "ignore_connection_errors")
         && existsb (fun error => String.eqb arg0 ("net::ERR_" ++ error))
              CHROMIUM_CONNECTION_ERRORS then VBool true
      else if truthy (getattr self "ignore_timeout_errors")
         && String.eqb arg0 "net::ERR_TIMED_OUT" then VBool true
      else if truthy (getattr self "ignore_too_many_redirects")
         && String.eqb arg0 "net::ERR_TOO_MANY_REDIRECTS" then VBool true
      else VBool false
  | BrowserResponseError status_code =>
      let ignore_http_error_codes := getattr self "ignore_http_error_codes" in
      if truthy ignore_http_error_codes then
        if isinstance_int ignore_http_error_codes
           && eq_int ignore_http_error_codes status_code then VBool true
        else
          let ignored_codes :=
            match ignore_http_error_codes with
            | VStr s => map (fun s => lower (strip s)) (split "," s)
            | VList l => map (fun s => lower (strip (str W s))) l
            | _ => []
            end in
          py_or (VBool (mem (str_of_int status_code) ignored_codes))
            (VStr (str_of_bool (int_in (status_code / 100) ignored_codes) ++ "xx"))
      else VBool false
  | _ => VBool false
  end.

(** [job.ignore_error(exception)]: [Job] and [ShellJob] inherit the method of
    [JobBase]. *)
Definition ignore_error (W : world) (self : job) (exception : exception) : value :=
  match cls self with
  | UrlJob => UrlJob_ignore_error W self exception
  | BrowserJob => BrowserJob_ignore_error W self exception
  | Job | ShellJob => VBool false
  end.

(** ** Regular expressions of the module *)

Definition newline : ascii := ascii_of_nat 10.

(** The tail [(.+?)</title>] of the title pattern, after the first character
    of the group is due: the lazy group grows one character at a time, never
    over a newline, until [</title>] follows; the result is the group and
    what follows the match. *)
Fixpoint title_group (s : string) : option (string * string) :=
  match s with
  | EmptyString => None
  | String c s' =>
      if Ascii.eqb c newline then None
      else
        match strip_prefix "</title>" s' with
        | Some rest => Some (String c EmptyString, rest)
        | None =>
            match title_group s' with
            | Some (g, rest) => Some (String c g, rest)
            | None => None
            end
        end
  end.

(** The part [.*?>(.+?)</title>] after [<title]: the lazy [.*?] tries the
    shortest run first and grows, never over a newline, on failure. *)
Fixpoint title_attrs (s : string) : option (string * string) :=
  match s with
  | EmptyString => None
  | String c s' =>
      match (if Ascii.eqb c ">" then title_group s' else None) with
      | Some m => Some m
      | None => if Ascii.eqb c newline then None else title_attrs s'
      end
  end.

(** [re.search(r'<title.*?>(.+?)</title>', s)]: the leftmost match, as its
    [group(1)] and the text after the match. *)
Fixpoint search_title (s : string) : option (string * string) :=
  let here :=
    match strip_prefix "<title" s with
    | Some s' => title_attrs s'
    | None => None
    end in
  match here with
  | Some m => Some m
  | None =>
      match s with
      | EmptyString => None
      | String _ s' => search_title s'
      end
  end.

(** [re.findall(r'<title.*?>(.+?)</title>', s)]: the groups of the successive
    matches, each search resuming where the last match ended. *)
Fixpoint findall_title_from (fuel : nat) (s : string) : list string :=
  match fuel with
  | O => []
  | S fuel' =>
      match search_title s with
      | Some (g, rest) => g :: findall_title_from fuel' rest
      | None => []
      end
  end.

Definition findall_title (s : string) : list string :=
  findall_title_from (String.length s) s.

(** [CHARSET_RE.match(s)]: [CHARSET_RE] wants [text/html; charset=] or
    [text/plain; charset=] at the start, and then takes any run of characters
    other than a semicolon, the empty one too. *)
Definition CHARSET_RE_match (s : string) : bool :=
  startswith s "text/html; charset=" || startswith s "text/plain; charset=".

(** [urlparse(url).scheme]: the text before the first colon, lower-cased, when
    it is not empty and made of scheme characters only. *)
Definition scheme_chars : string :=
  "abcdefghijklmnopqrstuvwxyzABCDEFGHIJKLMNOPQRSTUVWXYZ0123456789+-.".

Fixpoint before_colon (url : string) : option string :=
  match url with
  | EmptyString => None
  | String c url' =>
      if Ascii.eqb c ":" then Some EmptyString
      else option_map (String c) (before_colon url')
  end.

Definition urlparse_scheme (url : string) : string :=
  match before_colon url with
  | Some (String c p) =>
      if forallb (fun c => in_string c scheme_chars)
           (list_ascii_of_string (String c p))
      then lower (String c p) else ""
  | _ => ""
  end.

(** [s.lstrip('/')]. *)
Fixpoint lstrip_slash (s : string) : string :=
  match s with
  | String "/" s' => lstrip_slash s'
  | _ => s
  end.

(** ** Retrieval *)

(** [CaseInsensitiveDict(data)] for what [self.headers] may hold: [None], a
    mapping, or an iterable of key-value pairs. *)
Fixpoint update_pairs (l : list value) (store : ci_store value)
  : result (ci_store value) :=
  match l with
  | [] => Return store
  | VList [VStr k; v] :: l' => update_pairs l' (ci_setitem k v store)
  | _ => Raise TypeError
  end.

Definition CaseInsensitiveDict (data : value) : result (ci_store value) :=
  match data with
  | VNone => Return []
  | VDict d => Return (fold_left (fun store kv => ci_setitem (fst kv) (snd kv) store) d [])
  | VCIDict d =>
      Return (fold_left (fun store kv => ci_setitem (fst (snd kv)) (snd (snd kv)) store) d [])
  | VList l => update_pairs l []
  | VStr "" => Return []
  | _ => Raise TypeError
  end.

(** The object [self.headers] refers to, once it is a [CaseInsensitiveDict];
    item assignments on it are seen through [self.headers]. *)
Definition self_headers (self : job) : ci_store value :=
  match getattr self "headers" with
  | VCIDict h => h
  | _ => []
  end.

Definition on_headers (f : ci_store value -> ci_store value) (self : job) : job :=
  setattr self "headers" (VCIDict (f (self_headers self))).

(** A run of [retrieve]: the job as the run leaves it, the calls made, and
    the data and ETag returned, or the exception raised. *)
Record run : Type := {
  self_after : job;
  calls : list call;
  outcome : result (payload * value)
}.

(** The cache-related headers of [UrlJob.retrieve]. *)
Definition cache_headers (W : world) (self : job) (job_state : JobState) : job :=
  let self :=
    if truthy (old_etag job_state)
    then on_headers (ci_setitem "If-None-Match" (old_etag job_state)) self
    else self in
  let self :=
    match old_timestamp job_state with
    | Some t => on_headers (ci_setitem "If-Modified-Since" (VStr (formatdate W t))) self
    | None => self
    end in
  if truthy (getattr self "ignore_cached") || (0 <? tries job_state) then
    let self := on_headers (ci_pop "If-None-Match") self in
    let self := on_headers (ci_setitem "If-Modified-Since" (VStr (formatdate W 0))) self in
    let self := on_headers (ci_setitem "Cache-Control" (VStr "max-age=172800")) self in
    on_headers (ci_setitem "Expires" (VStr (formatdate W (time W)))) self
  else self.

(** Everything [UrlJob.retrieve] does to the job and to [proxies] before it
    looks at the scheme of the URL. *)
Definition prepare (W : world) (self : job) (job_state : JobState)
  : result (job * dict) :=
  headers <- CaseInsensitiveDict (getattr self "headers") ;;
  let self := setattr self "headers" (VCIDict headers) in
  let self :=
    if ci_contains "User-Agent" (self_headers self) then self
    else on_headers (ci_setitem "User-Agent" (VStr (user_agent W))) self in
  let proxies := [("http", getenv W "HTTP_PROXY"); ("https", getenv W "HTTPS_PROXY")] in
  let self := cache_headers W self job_state in
  let self :=
    if is_not_None (getattr self "method") then self
    else setattr self "method" (VStr "GET") in
  let self :=
    if is_not_None (getattr self "data") then
      let self :=
        if is_not_None (getattr self "method") then self
        else setattr self "method" (VStr "POST") in
      if ci_contains "Content-Type" (self_headers self) then self
      else on_headers (ci_setitem "Content-Type"
                         (VStr "application/x-www-form-urlencoded")) self
    else self in
  let proxies :=
    if is_not_None (getattr self "http_proxy")
    then setitem "http" (getattr self "http_proxy") proxies else proxies in
  let proxies :=
    if is_not_None (getattr self "https_proxy")
    then setitem "https" (getattr self "https_proxy") proxies else proxies in
  Return (self, proxies).

(** The timeout handed to [requests.request]. *)
Definition request_timeout (self : job) : value :=
  if negb (is_not_None (getattr self "timeout")) then VFloat 60
  else if eq_int (getattr self "timeout") 0 then VNone
  else getattr self "timeout".

(** [self.cookies = {k: str(v) for k, v in self.cookies.items()}]. *)
Definition stringify_cookies (W : world) (self : job) : result job :=
  let cookies := getattr self "cookies" in
  if truthy cookies then
    match cookies with
    | VDict d => Return (setattr self "cookies" (VDict (map (fun kv => (fst kv, VStr (str W (snd kv)))) d)))
    | VCIDict d => Return (setattr self "cookies" (VDict (map (fun kv => (fst (snd kv), VStr (str W (snd (snd kv))))) d)))
    | _ => Raise AttributeError
    end
  else Return self.

(** The name taken from the title element: [UrlJob] ... *)
Definition UrlJob_name_from_title (self : job) (text : string) : job :=
  if negb (truthy (getattr self "name")) then
    match search_title text with
    | Some (group1, _) => setattr self "name" (VStr (take 60 group1))
    | None => self
    end
  else self.

(** ... and [BrowserJob]. *)
Definition BrowserJob_name_from_title (self : job) (response : string) : job :=
  if negb (truthy (getattr self "name")) then
    match findall_title response with
    | title0 :: _ => setattr self "name" (VStr title0)
    | [] => self
    end
  else self.

(** What follows [requests.request] in [UrlJob.retrieve]. *)
Definition handle_response (W : world) (self : job) (response : Response.t)
  : job * result (payload * value) :=
  let status_code := Response.status_code response in
  if (400 <=? status_code) && (status_code <? 600) then
    (self, Raise (HTTPError status_code))        (* [response.raise_for_status()] *)
  else if status_code =? 304 then (self, Raise (NotModifiedError status_code))
  else
    let etag :=
      match Response.history response with
      | [] =>
          match ci_lookup "ETag" (Response.headers response) with
          | Some e => e
          | None => ""
          end
      | _ :: _ => ""
      end in
    if filter_chain_needs_bytes W (getattr self "filter") then
      (self, Return (Bytes (Response.content response), VStr etag))
    else
      let content_type :=
        match ci_lookup "Content-type" (Response.headers response) with
        | Some t => t
        | None => ""
        end in
      let encoding :=
        if truthy (getattr self "encoding") then getattr self "encoding"
        else
          match Response.encoding response with
          | VStr e =>
              if String.eqb e "ISO-8859-1" && negb (CHARSET_RE_match content_type)
              then Response.apparent_encoding response
              else Response.encoding response
          | e => e
          end in
      let text := Response.text response encoding in
      let self := UrlJob_name_from_title self text in
      (self, Return (Text text, VStr etag)).

(** [UrlJob.retrieve]. *)
Definition UrlJob_retrieve (W : world) (self : job) (job_state : JobState) : run :=
  match prepare W self job_state with
  | Raise e => {| self_after := self; calls := []; outcome := Raise e |}
  | Return (self, proxies) =>
      match getattr self "url" with
      | VStr url =>
          let needs_bytes := filter_chain_needs_bytes W (getattr self "filter") in
          if String.eqb (urlparse_scheme url) "file" then
            let filename :=
              if String.eqb (os_name W) "nt" then lstrip_slash (urlparse_path W url)
              else urlparse_path W url in
            {| self_after := self;
               calls := [read_file filename];
               outcome :=
                 if needs_bytes
                 then b <- read_bytes W filename ;; Return (Bytes b, VStr "")
                 else t <- read_text W filename ;; Return (Text t, VStr "") |}
          else if String.eqb (urlparse_scheme url) "ftp" then
            let username := py_or (urlparse_username W url) (VStr "anonymous") in
            let password := py_or (urlparse_password W url) (VStr "anonymous") in
            let ftp :=
              {| host := str W (urlparse_hostname W url);
                 user := str W username;
                 passwd := str W password;
                 ftp_timeout := getattr self "timeout" |} in
            {| self_after := self;
               calls := [ftp_connect ftp];
               outcome :=
                 if needs_bytes
                 then chunks <- retrbinary W ftp (urlparse_path W url) ;;
                      Return (Bytes (String.concat "" chunks), VStr "")
                 else lines <- retrlines W ftp (urlparse_path W url) ;;
                      Return (Text (String.concat (String newline "") lines), VStr "") |}
          else
            let timeout := request_timeout self in
            match stringify_cookies W self with
            | Raise e => {| self_after := self; calls := []; outcome := Raise e |}
            | Return self =>
                let r :=
                  {| Request.method := getattr self "method";
                     Request.url := url;
                     Request.data := getattr self "data";
                     Request.headers := self_headers self;
                     Request.cookies := getattr self "cookies";
                     Request.timeout := timeout;
                     Request.allow_redirects := negb (truthy (getattr self "no_redirects"));
                     Request.proxies := proxies;
                     Request.verify := negb (truthy (getattr self "ssl_no_verify")) |} in
                match request W r with
                | Raise e =>
                    {| self_after := self; calls := [requests_request r]; outcome := Raise e |}
                | Return response =>
                    let '(self, out) := handle_response W self response in
                    {| self_after := self; calls := [requests_request r]; outcome := out |}
                end
            end
      | _ =>
          (* [urlparse] of what is not a string *)
          {| self_after := self; calls := []; outcome := Raise AttributeError |}
      end
  end.

(** [BrowserJob.retrieve]; the browser session of [_retrieve] is the
    environment's. Of what the call does to the job, [self_after] has the
    name only: what [_retrieve] assigns to [chromium_revision], [switches]
    and [block_elements] on its way is in [chromium_revision] and
    [switches_args], not here. *)
Definition BrowserJob_retrieve (W : world) (self : job) (job_state : JobState) : run :=
  match browser W self with
  | Raise e => {| self_after := self; calls := [browser_launch]; outcome := Raise e |}
  | Return (response, etag) =>
      {| self_after := BrowserJob_name_from_title self response;
         calls := [browser_launch];
         outcome := Return (Text response, etag) |}
  end.

(** [ShellJob.retrieve]. *)
Definition ShellJob_retrieve (W : world) (self : job) (job_state : JobState) : run :=
  let needs_bytes := filter_chain_needs_bytes W (getattr self "filter") in
  {| self_after := self;
     calls := [subprocess_run (getattr self "command")];
     outcome :=
       stdout <- run_shell W (getattr self "command") (negb needs_bytes) ;;
       Return (stdout, VStr "") |}.

(** [job.retrieve(job_state)]; in [Job] the body of the method is [pass]. *)
Definition retrieve (W : world) (self : job) (job_state : JobState) : option run :=
  match cls self with
  | Job => None
  | UrlJob => Some (UrlJob_retrieve W self job_state)
  | BrowserJob => Some (BrowserJob_retrieve W self job_state)
  | ShellJob => Some (ShellJob_retrieve W self job_state)
  end.

(** ** What the spec words *)

(** The match of a status code as the spec describes it: an integer matches
    the code it equals; a comma-separated string or a list matches the codes
    whose decimal form, or whose class form [Nxx] on the first digit, is
    among its entries. *)
Definition status_matches (W : world) (ignore_http_error_codes : value)
  (status_code : Z) : bool :=
  let among (entries : list string) :=
    mem (str_of_int status_code) entries
    || mem (str_of_int (status_code / 100) ++ "xx") entries in
  match ignore_http_error_codes with
  | VInt n => n =? status_code
  | VStr s => among (map (fun s => lower (strip s)) (split "," s))
  | VList l => among (map (fun s => lower (strip (str W s))) l)
  | _ => false
  end.

(** [self'] is [self] but for the attributes named in [changed]. *)
Definition same_but (changed : list string) (self self' : job) : Prop :=
  cls self' = cls self
  /\ forall k, mem k changed = false -> getattr self' k = getattr self k.

(** The cache-related headers of a request, as the spec describes them: when
    the job ignores the cache or has failed before, no [If-None-Match] and an
    [If-Modified-Since] of the epoch; otherwise the cached ETag and the cached
    timestamp, where there are any. *)
Definition cache_hints (W : world) (self : job) (job_state : JobState)
  (headers : ci_store value) : Prop :=
  if truthy (getattr self "ignore_cached") || (0 <? tries job_state)
  then ci_lookup "If-None-Match" headers = None
       /\ ci_lookup "If-Modified-Since" headers = Some (VStr (formatdate W 0))
  else (truthy (old_etag job_state) = true ->
        ci_lookup "If-None-Match" headers = Some (old_etag job_state))
       /\ (forall t, old_timestamp job_state = Some t ->
           ci_lookup "If-Modified-Since" headers = Some (VStr (formatdate W t))).

(** ** A sample environment *)

(** [email.utils.formatdate(timeval)] for the default arguments: the date in
    UTC, from the days since the epoch by the usual civil-calendar
    arithmetic. *)
Definition two_digits (n : Z) : string :=
  String (digit_char (n / 10)) (String (digit_char (n mod 10)) "").

Definition four_digits (n : Z) : string :=
  two_digits (n / 100) ++ two_digits (n mod 100).

Definition gmt_formatdate (timeval : Q) : string :=
  let secs := Qfloor timeval in
  let days := secs / 86400 in
  let rem := secs mod 86400 in
  let z := days + 719468 in
  let era := z / 146097 in
  let doe := z - era * 146097 in
  let yoe := (doe - doe / 1460 + doe / 36524 - doe / 146096) / 365 in
  let doy := doe - (365 * yoe + yoe / 4 - yoe / 100) in
  let mp := (5 * doy + 2) / 153 in
  let day := doy - (153 * mp + 2) / 5 + 1 in
  let month := if mp <? 10 then mp + 3 else mp - 9 in
  let year := yoe + era * 400 + (if month <=? 2 then 1 else 0) in
  nth (Z.to_nat ((days + 4) mod 7))
    ["Sun"; "Mon"; "Tue"; "Wed"; "Thu"; "Fri"; "Sat"] ""
  ++ ", " ++ two_digits day ++ " "
  ++ nth (Z.to_nat (month - 1))
       ["Jan"; "Feb"; "Mar"; "Apr"; "May"; "Jun";
        "Jul"; "Aug"; "Sep"; "Oct"; "Nov"; "Dec"] ""
  ++ " " ++ four_digits year ++ " "
  ++ two_digits (rem / 3600) ++ ":" ++ two_digits (rem / 60 mod 60) ++ ":"
  ++ two_digits (rem mod 60) ++ " -0000".

(** A host without proxies, for jobs that watch [/index.html] on
    [example.org]: the server, the file system (and the FTP server, with the
    same one chunk or line) and the browser answer as given. *)
Definition sample_world (answer : result Response.t) (file : result string)
  (page : result (string * value)) : world :=
  {| builtin_str := fun _ => "";
     user_agent := "webchanges";
     getenv := fun _ => VNone;
     os_name := "posix";
     formatdate := gmt_formatdate;
     time := 1609459200 # 1;
     urlparse_path := fun _ => "/index.html";
     urlparse_username := fun _ => VNone;
     urlparse_password := fun _ => VNone;
     urlparse_hostname := fun _ => VStr "example.org";
     filter_chain_needs_bytes := fun _ => false;
     read_bytes := fun _ => file;
     read_text := fun _ => file;
     retrbinary := fun _ _ => x <- file ;; Return [x];
     retrlines := fun _ _ => x <- file ;; Return [x];
     request := fun _ => answer;
     browser := fun _ => page;
     run_shell := fun _ _ => Raise OSError |}.

(** A 200 response carrying an ETag, reached directly or through redirects,
    with a body of the given text. *)
Definition sample_response (history : list Z) (text : string) : Response.t :=
  {| Response.status_code := 200;
     Response.history := history;
     Response.headers :=
       [("content-type", ("Content-Type", "text/html; charset=utf-8"));
        ("etag", ("ETag", "33a64df5"))];
     Response.content := text;
     Response.encoding := VStr "utf-8";
     Response.apparent_encoding := VStr "utf-8";
     Response.text := fun _ => text |}.

(** ** Serialization, defaults and display *)

(** [Job.to_dict]: the directives the class declares, required ones first,
    whose value is not [None]. *)
Definition to_dict (self : job) : dict :=
  fold_left
    (fun d k => if is_not_None (getattr self k) then setitem k (getattr self k) d else d)
    (__required__ (cls self) ++ __optional__ (cls self)) [].

(** [d.update(other)]. *)
Definition update (other d : dict) : dict :=
  fold_left (fun d kv => setitem (fst kv) (snd kv) d) other d.

(** [JobBase.serialize]. *)
Definition serialize (self : job) : dict :=
  update (to_dict self) [("kind", VStr (__kind__ (cls self)))].

(** The inner loop of [_set_defaults]: the subkeys of a mapping-valued
    default that the job's mapping lacks are added to it. *)
Definition merge_subkeys (target : value) (defaults : dict) : value :=
  match target with
  | VDict d =>
      VDict (fold_left (fun d kv => if contains (fst kv) d then d
                                    else setitem (fst kv) (snd kv) d) defaults d)
  | VCIDict d =>
      VCIDict (fold_left (fun d kv => if ci_contains (fst kv) d then d
                                      else ci_setitem (fst kv) (snd kv) d) defaults d)
  | v => v
  end.

(** One turn of the loop of [_set_defaults] over [defaults.items()]. *)
Definition set_default (self : job) (key : string) (value : value) : job :=
  if mem key (__optional__ (cls self)) then
    if negb (is_not_None (getattr self key)) then setattr self key value
    else
      match value, getattr self key with
      | VDict sub, VDict _ | VDict sub, VCIDict _ =>
          setattr self key (merge_subkeys (getattr self key) sub)
      | _, _ => self
      end
  else self.

(** [isinstance(v, (dict, CaseInsensitiveDict))]. *)
Definition is_mapping (v : value) : bool :=
  match v with VDict _ | VCIDict _ => true | _ => false end.

(** What one default does to the directive of its key, as [set_default]
    computes it from the class, the current value and the default. *)
Definition defaulted (c : job_class) (key : string) (current default : value) : value :=
  if mem key (__optional__ c) then
    if negb (is_not_None current) then default
    else match default with
         | VDict sub => if is_mapping current then merge_subkeys current sub else current
         | _ => current
         end
  else current.

(** [JobBase._set_defaults(defaults)]; what is not a [dict] (such as the
    [None] of a missing entry of the configuration) gives no defaults. *)
Definition _set_defaults (self : job) (defaults : value) : result job :=
  headers <- CaseInsensitiveDict (getattr self "headers") ;;
  let self := setattr self "headers" (VCIDict headers) in
  match defaults with
  | VDict defaults =>
      Return (fold_left (fun self kv => set_default self (fst kv) (snd kv)) defaults self)
  | _ => Return self
  end.

(** The defaults that [_set_defaults] goes through: the items of a [dict],
    and none for anything else. *)
Definition defaults_items (defaults : value) : dict :=
  match defaults with VDict d => d | _ => [] end.

(** The defaults that [with_defaults] takes from a section of
    [config['job_defaults']]: none where the configuration has no such
    mapping, or the mapping has no such section. *)
Definition job_defaults (config : dict) (section : string) : dict :=
  match get_or_None "job_defaults" config with
  | VDict cfg => defaults_items (get_or_None section cfg)
  | _ => []
  end.

(** [JobBase.with_defaults(config)]. *)
Definition with_defaults (subclasses : list job_class) (self : job) (config : dict)
  : result job :=
  new_job <- unserialize subclasses (serialize self) ;;
  match get_or_None "job_defaults" config with
  | VDict cfg =>
      new_job <- _set_defaults new_job (get_or_None (__kind__ (cls self)) cfg) ;;
      _set_defaults new_job (get_or_None "all" cfg)
  | _ => Return new_job
  end.

(** [ImportError], of an import inside a method. *)
Inductive import_error : Type := ImportError.

(** A call of [job.ignore_error(exception)]. The method of [BrowserJob]
    starts with [from pyppeteer.errors import PageError], and pyppeteer is an
    optional package: where it is not installed the call raises
    [ImportError], whatever the exception; the other classes import
    nothing. *)
Definition ignore_error_call (pyppeteer_installed : bool) (W : world) (self : job)
  (exception : exception) : import_error + value :=
  match cls self with
  | BrowserJob =>
      if pyppeteer_installed then inr (ignore_error W self exception)
      else inl ImportError
  | Job | UrlJob | ShellJob => inr (ignore_error W self exception)
  end.

(** [Job.pretty_name], which the three variants inherit. *)
Definition pretty_name (self : job) : value :=
  py_or (getattr self "name") (get_location self).

(** ** The set-up of the browser in [BrowserJob._retrieve] *)

(** What the set-up raises. *)
Inductive setup_error : Type :=
| UnsupportedPlatform        (* [OSError] of [current_platform] *)
| NoRevisionForPlatform      (* [KeyError] *)
| SwitchesType               (* [TypeError]: neither a string nor a list *)
| SwitchNotString.           (* [AttributeError] of [switch.lstrip] *)

Definition DEFAULT_CHROMIUM_REVISION : dict :=
  [("linux", VInt 843831); ("win64", VInt 843846); ("win32", VInt 843832);
   ("mac", VInt 843846)].

(** [BrowserJob.current_platform()], from [sys.platform] and [sys.maxsize]. *)
Definition current_platform (sys_platform : string) (sys_maxsize : Z)
  : setup_error + string :=
  if startswith sys_platform "linux" then inr "linux"
  else if startswith sys_platform "darwin" then inr "mac"
  else if startswith sys_platform "win" || startswith sys_platform "msys"
          || startswith sys_platform "cyg" then
    if 2 ^ 31 - 1 <? sys_maxsize then inr "win64" else inr "win32"
  else inl UnsupportedPlatform.

(** The choice of the Chromium revision at the head of [_retrieve]: the job
    with its [chromium_revision] as the code leaves it, and [_revision]. *)
Definition chromium_revision (sys_platform : string) (sys_maxsize : Z) (self : job)
  : setup_error + (job * value) :=
  let self :=
    if truthy (getattr self "chromium_revision") then self
    else setattr self "chromium_revision" (VDict DEFAULT_CHROMIUM_REVISION) in
  match getattr self "chromium_revision" with
  | VDict d =>
      let d :=
        fold_left (fun d kv => if contains (fst kv) d then d
                               else setitem (fst kv) (snd kv) d)
          DEFAULT_CHROMIUM_REVISION d in
      let self := setattr self "chromium_revision" (VDict d) in
      match current_platform sys_platform sys_maxsize with
      | inl e => inl e
      | inr platform =>
          match lookup platform d with
          | Some _revision => inr (self, _revision)
          | None => inl NoRevisionForPlatform
          end
      end
  | _revision => inr (self, _revision)
  end.

(** [switch.lstrip('--')]: the dashes at the head go. *)
Fixpoint lstrip_dash (s : string) : string :=
  match s with
  | String "-" s' => lstrip_dash s'
  | _ => s
  end.

Fixpoint dashed (switches : list value) : setup_error + list string :=
  match switches with
  | [] => inr []
  | VStr switch :: rest =>
      match dashed rest with
      | inr l => inr (("--" ++ lstrip_dash switch) :: l)
      | inl e => inl e
      end
  | _ :: _ => inl SwitchNotString
  end.

(** The switches of [_retrieve]: the job with its [switches] as the code
    leaves them, and what is added to the arguments of the browser. *)
Definition switches_args (self : job) : setup_error + (job * list string) :=
  if truthy (getattr self "switches") then
    let self :=
      match getattr self "switches" with
      | VStr s => setattr self "switches" (VList (map VStr (split "," s)))
      | _ => self
      end in
    match getattr self "switches" with
    | VList l =>
        match dashed l with
        | inr switches => inr (setattr self "switches" (VList (map VStr switches)), switches)
        | inl e => inl e
        end
    | _ => inl SwitchesType
    end
  else inr (self, []).

(** * Properties *)

(** ** Dicts *)

Section DictFacts.
Context {V : Type}.
Implicit Types (d : list (string * V)) (k : string) (v : V).

Lemma lookup_setitem_eq k v d : lookup k (setitem k v d) = Some v.
Proof.
  induction d as [|[k' v'] d IH]; simpl.
  - now rewrite String.eqb_refl.
  - destruct (String.eqb k k') eqn:E; simpl.
    + now rewrite String.eqb_refl.
    + now rewrite E.
Qed.

Lemma lookup_setitem_neq k k' v d :
  k <> k' -> lookup k' (setitem k v d) = lookup k' d.
Proof.
  intros Hne. induction d as [|[k0 v0] d IH]; simpl.
  - destruct (String.eqb k' k) eqn:E; [|reflexivity].
    apply String.eqb_eq in E. congruence.
  - destruct (String.eqb k k0) eqn:E; simpl.
    + apply String.eqb_eq in E. subst k0.
      destruct (String.eqb k' k) eqn:E'; [|reflexivity].
      apply String.eqb_eq in E'. congruence.
    + now rewrite IH.
Qed.

Lemma lookup_pop_neq k k' d : k <> k' -> lookup k' (pop k d) = lookup k' d.
Proof.
  intros Hne. induction d as [|[k0 v0] d IH]; simpl; [reflexivity|].
  destruct (String.eqb k k0) eqn:E; simpl.
  - apply String.eqb_eq in E. subst k0.
    destruct (String.eqb k' k) eqn:E'; [|reflexivity].
    apply String.eqb_eq in E'. congruence.
  - now rewrite IH.
Qed.

Lemma lookup_None k d : lookup k d = None <-> ~ In k (keys d).
Proof.
  induction d as [|[k0 v0] d IH]; simpl.
  - tauto.
  - destruct (String.eqb k k0) eqn:E.
    + apply String.eqb_eq in E. subst. split; [discriminate | tauto].
    + apply String.eqb_neq in E. rewrite IH. split.
      * intros H [H'|H']; [congruence | tauto].
      * tauto.
Qed.

Lemma lookup_Some_In k v d : lookup k d = Some v -> In (k, v) d.
Proof.
  induction d as [|[k0 v0] d IH]; simpl; [discriminate|].
  destruct (String.eqb k k0) eqn:E.
  - apply String.eqb_eq in E. intros [= ->]. subst. now left.
  - auto.
Qed.

Lemma In_lookup_Some k v d : dict_wf d -> In (k, v) d -> lookup k d = Some v.
Proof.
  unfold dict_wf, keys. induction d as [|[k0 v0] d IH]; simpl; [tauto|].
  intros Hwf [H|H]; inversion Hwf as [|? ? Hnot Hwf']; subst.
  - injection H as -> ->. now rewrite String.eqb_refl.
  - destruct (String.eqb k k0) eqn:E; [|auto].
    apply String.eqb_eq in E. subst k0. exfalso. apply Hnot.
    now apply (in_map fst) in H.
Qed.

Lemma lookup_pop_eq k d : dict_wf d -> lookup k (pop k d) = None.
Proof.
  unfold dict_wf, keys. induction d as [|[k0 v0] d IH]; simpl; [reflexivity|].
  intros Hwf. inversion Hwf as [|? ? Hnot Hwf']; subst.
  destruct (String.eqb k k0) eqn:E; simpl.
  - apply String.eqb_eq in E. subst k0. now apply lookup_None.
  - rewrite E. auto.
Qed.

Lemma keys_setitem k v d k' :
  In k' (keys (setitem k v d)) <-> k' = k \/ In k' (keys d).
Proof.
  unfold keys. induction d as [|[k0 v0] d IH]; simpl.
  - intuition.
  - destruct (String.eqb k k0) eqn:E; simpl.
    + apply String.eqb_eq in E. subst k0. intuition.
    + rewrite IH. intuition.
Qed.

Lemma keys_pop_incl k d k' : In k' (keys (pop k d)) -> In k' (keys d).
Proof.
  unfold keys. induction d as [|[k0 v0] d IH]; simpl; [tauto|].
  destruct (String.eqb k k0); simpl; intuition.
Qed.

Lemma dict_wf_setitem k v d : dict_wf d -> dict_wf (setitem k v d).
Proof.
  unfold dict_wf. induction d as [|[k0 v0] d IH]; simpl; intros Hwf.
  - constructor; [tauto | constructor].
  - inversion Hwf as [|? ? Hnot Hwf']; subst.
    destruct (String.eqb k k0) eqn:E; simpl.
    + apply String.eqb_eq in E. subst k0. now constructor.
    + constructor; [|auto]. intros Hin. apply keys_setitem in Hin.
      apply String.eqb_neq in E. destruct Hin; [congruence | tauto].
Qed.

Lemma dict_wf_pop k d : dict_wf d -> dict_wf (pop k d).
Proof.
  unfold dict_wf. induction d as [|[k0 v0] d IH]; simpl; intros Hwf; [constructor|].
  inversion Hwf as [|? ? Hnot Hwf']; subst.
  destruct (String.eqb k k0); simpl; [assumption|].
  constructor; [|auto]. intros Hin. apply Hnot. now apply (keys_pop_incl k).
Qed.

(** The order of the items of a dict does not matter to [d.get]. *)
Lemma Permutation_lookup d d' k :
  dict_wf d -> Permutation d d' -> lookup k d = lookup k d'.
Proof.
  intros Hwf Hp.
  assert (Hwf' : dict_wf d').
  { unfold dict_wf, keys in *.
    eapply Permutation_NoDup; [apply Permutation_map, Hp | assumption]. }
  destruct (lookup k d) as [v|] eqn:E.
  - symmetry. apply In_lookup_Some; [assumption|].
    eapply Permutation_in; [exact Hp|]. now apply lookup_Some_In.
  - destruct (lookup k d') as [v'|] eqn:E'; [|reflexivity].
    apply lookup_Some_In in E'. apply Permutation_sym in Hp.
    apply (Permutation_in _ Hp), (In_lookup_Some _ _ _ Hwf) in E'. congruence.
Qed.

End DictFacts.

(** ** Sorting and the dict of counts *)

Lemma job_class_eqb_eq a b : job_class_eqb a b = true <-> a = b.
Proof. destruct a, b; simpl; split; congruence. Qed.

Lemma sorted_reverse_nil {A} (key : A -> Z) l : sorted_reverse key l = [] -> l = [].
Proof.
  destruct l as [|a l]; [reflexivity|]. simpl.
  destruct (sorted_reverse key l) as [|y s]; simpl; [discriminate|].
  destruct (key a <? key y); discriminate.
Qed.

(** The head of the reversed stable sort is the first item of the greatest
    key: the items before it are strictly smaller. *)
Lemma sorted_reverse_head {A} (key : A -> Z) l x s :
  sorted_reverse key l = x :: s ->
  exists l1 l2, l = (l1 ++ x :: l2)%list
    /\ (forall y, In y l1 -> key y < key x)
    /\ (forall y, In y l2 -> key y <= key x).
Proof.
  revert x s. induction l as [|a l IH]; simpl; intros x s H; [discriminate|].
  destruct (sorted_reverse key l) as [|y s'] eqn:E.
  - apply sorted_reverse_nil in E. subst l. simpl in H. injection H as <- <-.
    exists [], []. simpl. repeat split; intros; tauto.
  - destruct (IH y s' eq_refl) as (l1 & l2 & -> & Hlt & Hle).
    simpl in H. destruct (key a <? key y) eqn:C.
    + injection H as <- <-. apply Z.ltb_lt in C.
      exists (a :: l1), l2. simpl. repeat split; [|assumption].
      intros z [<-|Hz]; auto.
    + injection H as <- <-. apply Z.ltb_ge in C.
      exists [], (l1 ++ y :: l2)%list. simpl. repeat split; [tauto|].
      intros z Hz. apply in_app_or in Hz. destruct Hz as [Hz|[<-|Hz]].
      * specialize (Hlt z Hz). lia.
      * assumption.
      * specialize (Hle z Hz). lia.
Qed.

Lemma setitem_by_fresh {V} (c : job_class) (v : V) nm :
  ~ In c (map fst nm) -> setitem_by job_class_eqb c v nm = (nm ++ [(c, v)])%list.
Proof.
  induction nm as [|[c' v'] nm IH]; simpl; intros Hnot; [reflexivity|].
  destruct (job_class_eqb c c') eqn:E.
  - apply job_class_eqb_eq in E. subst c'. tauto.
  - rewrite IH; tauto.
Qed.

Lemma number_matched_from data matched nm :
  NoDup matched -> (forall c, In c matched -> ~ In c (map fst nm)) ->
  fold_left (fun nm c => setitem_by job_class_eqb c (count_not_None data c) nm) matched nm
  = (nm ++ map (fun c => (c, count_not_None data c)) matched)%list.
Proof.
  revert nm. induction matched as [|c matched IH]; simpl; intros nm Hnd Hfresh.
  - now rewrite app_nil_r.
  - inversion Hnd as [|? ? Hnot Hnd']; subst.
    rewrite setitem_by_fresh by auto. rewrite IH; [now rewrite <- app_assoc| assumption|].
    intros c' Hc'. rewrite map_app, in_app_iff. simpl.
    intros [H|[H|[]]]; [apply (Hfresh c'); auto | congruence].
Qed.

(** With each matched class once, the dict of counts lists the classes in the
    order in which they matched. *)
Lemma number_matched_map data matched :
  NoDup matched ->
  number_matched data matched = map (fun c => (c, count_not_None data c)) matched.
Proof.
  intros Hnd. unfold number_matched. now rewrite number_matched_from.
Qed.

Lemma truthy_is_not_None v : truthy v = true -> is_not_None v = true.
Proof. destruct v; simpl; congruence. Qed.

(** For a class whose required directives are all truthy, the code's count of
    the directives that are not [None] is the count of the truthy ones. *)
Lemma count_not_None_truthy data c :
  all_required data c = true -> count_not_None data c = count_truthy data c.
Proof.
  unfold all_required, count_not_None, count_truthy. intros H. f_equal. f_equal.
  rewrite forallb_forall in H.
  induction (__required__ c) as [|r rs IH]; simpl; [reflexivity|].
  assert (Hr : truthy (get_or_None r data) = true) by (apply H; now left).
  rewrite Hr, (truthy_is_not_None _ Hr). f_equal. apply IH. intros x Hx. apply H. now right.
Qed.

(** ** Selection of the job subclass *)

Lemma matched_subclasses_NoDup subclasses data :
  NoDup (tl subclasses) -> NoDup (matched_subclasses subclasses data).
Proof. intros H. now apply NoDup_filter. Qed.

Lemma matched_all_required subclasses data c :
  In c (matched_subclasses subclasses data) -> all_required data c = true.
Proof. unfold matched_subclasses. rewrite filter_In. tauto. Qed.

(** One match selects it; several select the first of the highest count. *)
Lemma job_subclass_first_highest subclasses data :
  NoDup (tl subclasses) ->
  matched_subclasses subclasses data <> [] ->
  exists c before after,
    job_subclass subclasses data = Return c
    /\ matched_subclasses subclasses data = (before ++ c :: after)%list
    /\ (forall c', In c' before -> count_truthy data c' < count_truthy data c)
    /\ (forall c', In c' after -> count_truthy data c' <= count_truthy data c).
Proof.
  intros Hnd Hne. unfold job_subclass.
  pose proof (matched_subclasses_NoDup subclasses data Hnd) as Hnd'.
  pose proof (matched_all_required subclasses data) as Hall.
  destruct (matched_subclasses subclasses data) as [|c0 [|c1 m]] eqn:Em; [congruence| |].
  - exists c0, [], []. simpl. repeat split; intros; tauto.
  - cbv beta iota. set (M := c0 :: c1 :: m) in *.
    rewrite number_matched_map by assumption.
    destruct (sorted_reverse snd (map (fun c => (c, count_not_None data c)) M))
      as [|[c n] s] eqn:Es.
    + apply sorted_reverse_nil in Es. discriminate.
    + apply sorted_reverse_head in Es. destruct Es as (l1 & l2 & Hl & Hlt & Hle).
      apply map_eq_app in Hl. destruct Hl as (m1 & m2' & Hm & Hm1 & Hm2).
      apply map_eq_cons in Hm2. destruct Hm2 as (c' & m2 & -> & Hc & Hm2).
      injection Hc as -> <-. subst l1 l2.
      exists c, m1, m2. rewrite Hm in Hall. repeat split.
      * assumption.
      * intros c' Hc'. specialize (Hlt (c', count_not_None data c')). simpl in Hlt.
        rewrite <- !count_not_None_truthy by (apply Hall; rewrite in_app_iff; simpl; auto).
        apply Hlt. apply in_map_iff. now exists c'.
      * intros c' Hc'. specialize (Hle (c', count_not_None data c')). simpl in Hle.
        rewrite <- !count_not_None_truthy by (apply Hall; rewrite in_app_iff; simpl; auto).
        apply Hle. apply in_map_iff. now exists c'.
Qed.

Lemma same_items_get d1 d2 k : same_items d1 d2 -> get_or_None k d1 = get_or_None k d2.
Proof. intros H. unfold get_or_None, get_or. now rewrite (H k). Qed.

Lemma same_items_all_required d1 d2 c :
  same_items d1 d2 -> all_required d1 c = all_required d2 c.
Proof.
  intros H. unfold all_required.
  induction (__required__ c) as [|r rs IH]; simpl; [reflexivity|].
  now rewrite IH, (same_items_get d1 d2 r H).
Qed.

Lemma same_items_count d1 d2 c :
  same_items d1 d2 -> count_not_None d1 c = count_not_None d2 c.
Proof.
  intros H. unfold count_not_None. do 2 f_equal. apply filter_ext. intros r.
  now rewrite (same_items_get d1 d2 r H).
Qed.

Lemma same_items_number_matched d1 d2 matched :
  same_items d1 d2 -> number_matched d1 matched = number_matched d2 matched.
Proof.
  intros H. unfold number_matched. generalize (@nil (job_class * Z)).
  induction matched as [|c m IH]; simpl; intros nm; [reflexivity|].
  now rewrite (same_items_count d1 d2 c H), IH.
Qed.

(** The subclass selected depends on the items of the dict only. *)
Lemma same_items_job_subclass subclasses d1 d2 c :
  same_items d1 d2 ->
  job_subclass subclasses d1 = Return c -> job_subclass subclasses d2 = Return c.
Proof.
  intros H. unfold job_subclass.
  assert (Hm : matched_subclasses subclasses d1 = matched_subclasses subclasses d2).
  { unfold matched_subclasses. apply filter_ext. intros a.
    now apply same_items_all_required. }
  rewrite <- Hm.
  destruct (matched_subclasses subclasses d1) as [|c0 [|c1 m]].
  - destruct (List.length d1 =? 1)%nat; discriminate.
  - tauto.
  - now rewrite <- (same_items_number_matched d1 d2 _ H).
Qed.

Lemma dict_wf_rewrite_navigate d : dict_wf d -> dict_wf (rewrite_navigate d).
Proof.
  intros H. unfold rewrite_navigate.
  destruct (_ && _); [|assumption]. now do 2 apply dict_wf_setitem.
Qed.

Lemma dict_wf_compat d : dict_wf d -> dict_wf (compat d).
Proof.
  intros H. unfold compat, drop_kind. apply dict_wf_rewrite_navigate in H.
  destruct (contains _ _); [now apply dict_wf_pop | assumption].
Qed.

Lemma same_items_setitem d1 d2 k v :
  same_items d1 d2 -> same_items (setitem k v d1) (setitem k v d2).
Proof.
  intros H k'. destruct (string_dec k k') as [<-|Hne].
  - now rewrite !lookup_setitem_eq.
  - now rewrite !lookup_setitem_neq.
Qed.

Lemma same_items_pop d1 d2 k :
  dict_wf d1 -> dict_wf d2 -> same_items d1 d2 -> same_items (pop k d1) (pop k d2).
Proof.
  intros H1 H2 H k'. destruct (string_dec k k') as [<-|Hne].
  - now rewrite !lookup_pop_eq.
  - now rewrite !lookup_pop_neq.
Qed.

(** The rewrite of the deprecated directives does not look at the order of
    the items either. *)
Lemma same_items_compat d1 d2 :
  dict_wf d1 -> dict_wf d2 -> same_items d1 d2 -> same_items (compat d1) (compat d2).
Proof.
  intros H1 H2 H.
  assert (Hr : same_items (rewrite_navigate d1) (rewrite_navigate d2)).
  { unfold rewrite_navigate.
    rewrite <- !(same_items_get d1 d2 _ H). unfold get_or at 2. rewrite <- (H "url").
    fold (get_or "url" (get_or_None "navigate" d1) d1).
    destruct (_ && _); [|assumption]. now do 2 apply same_items_setitem. }
  unfold compat, drop_kind, contains. rewrite <- (Hr "kind").
  destruct (lookup "kind" (rewrite_navigate d1)); [|assumption].
  apply same_items_pop; auto using dict_wf_rewrite_navigate.
Qed.

Lemma Permutation_same_items d d' : dict_wf d -> Permutation d d' -> same_items d d'.
Proof. intros Hwf Hp k. now apply Permutation_lookup. Qed.

Lemma Permutation_dict_wf (d d' : dict) : dict_wf d -> Permutation d d' -> dict_wf d'.
Proof.
  unfold dict_wf, keys. intros Hwf Hp.
  eapply Permutation_NoDup; [apply Permutation_map, Hp | assumption].
Qed.

(** ** Stripping and construction *)

Lemma strip_keys_lookup (required ks : list string) (d : dict) k :
  mem k required = true ->
  lookup k (fold_left (fun data k => if mem k required then data else pop k data) ks d)
  = lookup k d.
Proof.
  intros Hk. revert d. induction ks as [|k0 ks IH]; simpl; intros d; [reflexivity|].
  rewrite IH. destruct (mem k0 required) eqn:E; [reflexivity|].
  apply lookup_pop_neq. intros ->. congruence.
Qed.

Lemma strip_keys_wf (required ks : list string) (d : dict) :
  dict_wf d ->
  dict_wf (fold_left (fun data k => if mem k required then data else pop k data) ks d).
Proof.
  revert d. induction ks as [|k0 ks IH]; simpl; intros d H; [assumption|].
  apply IH. destruct (mem k0 required); [assumption | now apply dict_wf_pop].
Qed.

(** Stripping leaves the required directives of the selected class alone. *)
Lemma remove_extra_required_lookup subclasses c d k :
  mem k (__required__ c) = true ->
  lookup k (remove_extra_required subclasses c d) = lookup k d.
Proof.
  intros Hk. unfold remove_extra_required.
  generalize (remove_first job_class_eqb c (tl subclasses)). intros others.
  revert d. induction others as [|o others IH]; simpl; intros d; [reflexivity|].
  rewrite IH. now apply strip_keys_lookup.
Qed.

Lemma remove_extra_required_wf subclasses c d :
  dict_wf d -> dict_wf (remove_extra_required subclasses c d).
Proof.
  unfold remove_extra_required.
  generalize (remove_first job_class_eqb c (tl subclasses)). intros others.
  revert d. induction others as [|o others IH]; simpl; intros d H; [assumption|].
  apply IH. now apply strip_keys_wf.
Qed.

Lemma setitem_fresh {V} k (v : V) d :
  ~ In k (keys d) -> setitem k v d = (d ++ [(k, v)])%list.
Proof.
  unfold keys. induction d as [|[k0 v0] d IH]; simpl; intros H; [reflexivity|].
  destruct (String.eqb k k0) eqn:E.
  - apply String.eqb_eq in E. subst. tauto.
  - rewrite IH; tauto.
Qed.

Lemma setattr_all c kwargs acc :
  dict_wf (acc ++ kwargs)%list ->
  fold_left (fun self kv => setattr self (fst kv) (snd kv)) kwargs {| cls := c; attrs := acc |}
  = {| cls := c; attrs := (acc ++ kwargs)%list |}.
Proof.
  revert acc. induction kwargs as [|[k v] kwargs IH]; simpl; intros acc H.
  - now rewrite app_nil_r.
  - unfold setattr at 2. simpl.
    assert (Hk : ~ In k (keys acc)).
    { unfold dict_wf, keys in H. rewrite map_app in H. simpl in H.
      apply NoDup_remove_2 in H. rewrite in_app_iff in H. tauto. }
    rewrite setitem_fresh by assumption.
    replace (acc ++ (k, v) :: kwargs)%list with ((acc ++ [(k, v)]) ++ kwargs)%list
      by now rewrite <- app_assoc.
    apply IH. now rewrite <- app_assoc.
Qed.

(** The constructor keeps the directives as the attributes of the job. *)
Lemma __init___ok c kwargs :
  dict_wf kwargs ->
  (forall k, In k (__required__ c) -> contains k kwargs = true) ->
  __init__ c kwargs = Return {| cls := c; attrs := kwargs |}.
Proof.
  intros Hwf Hreq. unfold __init__.
  destruct (find _ (__required__ c)) as [k|] eqn:E.
  - apply find_some in E. destruct E as [Hin Hk]. rewrite (Hreq k Hin) in Hk. discriminate.
  - now rewrite setattr_all.
Qed.

(** What [from_dict] answers: the first unrecognized key, or the job. *)
Lemma from_dict_spec c data :
  dict_wf data ->
  (forall k, In k (__required__ c) -> contains k data = true) ->
  from_dict c data =
    match find (fun k => negb (mem k (__required__ c ++ __optional__ c))) (keys data) with
    | Some k => Raise (ValueError (Unrecognized k data))
    | None => Return {| cls := c; attrs := data |}
    end.
Proof.
  intros Hwf Hreq. unfold from_dict.
  destruct (find _ (keys data)); [reflexivity | now apply __init___ok].
Qed.

Lemma mem_In k t : mem k t = true <-> In k t.
Proof.
  unfold mem. rewrite existsb_exists. split.
  - intros (x & Hx & E). apply String.eqb_eq in E. now subst.
  - intros H. exists k. split; [assumption | apply String.eqb_refl].
Qed.

Lemma all_required_contains data c k :
  all_required data c = true -> In k (__required__ c) -> contains k data = true.
Proof.
  unfold all_required. rewrite forallb_forall. intros H Hin. specialize (H k Hin).
  unfold get_or_None, get_or, contains in *. destruct (lookup k data); [reflexivity|].
  discriminate.
Qed.

(** After selection of a class that matched, [unserialize] is [from_dict] on
    the stripped declaration, and its constructor cannot fail. *)
Lemma unserialize_selected subclasses d c :
  dict_wf d ->
  job_subclass subclasses (compat d) = Return c ->
  all_required (compat d) c = true ->
  let data := remove_extra_required subclasses c (compat d) in
  dict_wf data
  /\ unserialize subclasses d =
       match find (fun k => negb (mem k (__required__ c ++ __optional__ c))) (keys data) with
       | Some k => Raise (ValueError (Unrecognized k data))
       | None => Return {| cls := c; attrs := data |}
       end.
Proof.
  intros Hwf Hsel Hall data.
  assert (Hwf' : dict_wf data) by now apply remove_extra_required_wf, dict_wf_compat.
  split; [assumption|].
  unfold unserialize. rewrite Hsel. simpl. fold data. apply from_dict_spec; [assumption|].
  intros k Hin. unfold contains, data.
  rewrite remove_extra_required_lookup by now apply mem_In.
  now apply (all_required_contains _ c).
Qed.

Lemma find_first {A} (f : A -> bool) l x :
  find f l = Some x ->
  exists l1 l2, l = (l1 ++ x :: l2)%list /\ f x = true
    /\ forall y, In y l1 -> f y = false.
Proof.
  induction l as [|a l IH]; simpl; [discriminate|].
  destruct (f a) eqn:E.
  - intros [= ->]. exists [], l. simpl. repeat split; [assumption | tauto].
  - intros H. destruct (IH H) as (l1 & l2 & -> & Hx & Hl1).
    exists (a :: l1), l2. simpl. repeat split; [assumption|].
    intros y [<-|Hy]; auto.
Qed.

Lemma job_subclass_matched subclasses data c :
  NoDup (tl subclasses) ->
  job_subclass subclasses data = Return c ->
  In c (matched_subclasses subclasses data).
Proof.
  intros Hnd Hsel.
  destruct (matched_subclasses subclasses data) as [|c0 m] eqn:Em.
  - unfold job_subclass in Hsel. rewrite Em in Hsel.
    destruct (List.length data =? 1)%nat; discriminate.
  - destruct (job_subclass_first_highest subclasses data Hnd) as (c' & b & a & H1 & H2 & _).
    + now rewrite Em.
    + rewrite Em in H2. rewrite H2. rewrite Hsel in H1. injection H1 as <-.
      rewrite in_app_iff. simpl. auto.
Qed.

Lemma JobBase_subclasses_NoDup : NoDup (tl JobBase_subclasses).
Proof. simpl. repeat constructor; simpl; intuition discriminate. Qed.

(** ** The deprecated directives only add to what a declaration satisfies *)

Lemma lookup_compat_other d k :
  k <> "kind" -> k <> "url" -> k <> "use_browser" ->
  lookup k (compat d) = lookup k d.
Proof.
  intros H1 H2 H3. unfold compat, drop_kind.
  assert (Hr : lookup k (rewrite_navigate d) = lookup k d).
  { unfold rewrite_navigate. destruct (_ && _); [|reflexivity].
    rewrite !lookup_setitem_neq; auto. }
  destruct (contains _ _); [|assumption].
  rewrite lookup_pop_neq; auto.
Qed.

Lemma truthy_compat d k :
  k <> "kind" ->
  truthy (get_or_None k d) = true -> truthy (get_or_None k (compat d)) = true.
Proof.
  intros Hk H.
  assert (Hr : truthy (get_or_None k (rewrite_navigate d)) = true).
  { unfold rewrite_navigate. destruct (_ && _); [|assumption].
    unfold get_or_None, get_or in *.
    destruct (string_dec "use_browser" k) as [<-|Hub].
    - now rewrite lookup_setitem_eq.
    - rewrite lookup_setitem_neq by assumption.
      destruct (string_dec "url" k) as [<-|Hurl].
      + rewrite lookup_setitem_eq. destruct (lookup "url" d); [assumption | discriminate].
      + now rewrite lookup_setitem_neq. }
  unfold compat, drop_kind. destruct (contains _ _); [|assumption].
  unfold get_or_None, get_or in *. rewrite lookup_pop_neq; auto.
Qed.

Lemma all_required_compat d c :
  In c (tl JobBase_subclasses) ->
  all_required d c = true -> all_required (compat d) c = true.
Proof.
  intros Hc. unfold all_required. rewrite !forallb_forall. intros H r Hr.
  apply truthy_compat; [|auto].
  simpl in Hc. destruct Hc as [<-|[<-|[<-|[]]]]; simpl in Hr;
    intuition (subst; discriminate).
Qed.

Lemma filter_length_le {A} (f g : A -> bool) l :
  (forall x, In x l -> f x = true -> g x = true) ->
  (List.length (filter f l) <= List.length (filter g l))%nat.
Proof.
  induction l as [|a l IH]; simpl; intros H; [lia|].
  assert (IH' := IH (fun x Hx => H x (or_intror Hx))).
  destruct (f a) eqn:E.
  - rewrite (H a (or_introl eq_refl) E). simpl. lia.
  - destruct (g a); simpl; lia.
Qed.

Lemma matched_subclasses_compat d :
  (List.length (matched_subclasses JobBase_subclasses d)
   <= List.length (matched_subclasses JobBase_subclasses (compat d)))%nat.
Proof.
  unfold matched_subclasses. apply filter_length_le.
  intros c Hc. now apply all_required_compat.
Qed.

(** ** Resolution of a declaration (claims C4, C5, C6) *)

(** C4, as the code has it: when exactly one registered variant has all its
    required directives truthy in the declaration (as [unserialize] has
    rewritten it for the deprecated directives), [unserialize] settles on that
    variant: it returns an instance of exactly that variant, carrying the
    stripped declaration, when every remaining key is a required or optional
    directive of the variant, and otherwise raises the validation error for
    the first remaining key that is not. *)
Theorem unserialize_unique_candidate (d : dict) (c : job_class) :
  dict_wf d ->
  matched_subclasses JobBase_subclasses (compat d) = [c] ->
  let data := remove_extra_required JobBase_subclasses c (compat d) in
  unserialize JobBase_subclasses d =
    match find (fun k => negb (mem k (__required__ c ++ __optional__ c))) (keys data) with
    | Some k => Raise (ValueError (Unrecognized k data))
    | None => Return {| cls := c; attrs := data |}
    end.
Proof.
  intros Hwf Hm data.
  assert (Hsel : job_subclass JobBase_subclasses (compat d) = Return c).
  { unfold job_subclass. now rewrite Hm. }
  apply unserialize_selected; [assumption | assumption |].
  apply (matched_all_required JobBase_subclasses). rewrite Hm. now left.
Qed.

Lemma unserialize_unique_candidate_witness :
  let d := [("command", VStr "echo test")] in
  dict_wf d
  /\ matched_subclasses JobBase_subclasses (compat d) = [ShellJob]
  /\ unserialize JobBase_subclasses d = Return {| cls := ShellJob; attrs := d |}.
Proof.
  intros d.
  assert (Hwf : dict_wf d) by (repeat constructor; simpl; tauto).
  split; [exact Hwf|]. split; [reflexivity|].
  exact (unserialize_unique_candidate d ShellJob Hwf eq_refl).
Defined.

(** C4 as stated fails: the declaration below satisfies the required
    directives of [ShellJob] alone, and [unserialize] raises instead of
    returning a [ShellJob]. *)
Lemma unserialize_unique_candidate_counterexample :
  let d := [("command", VStr "ls"); ("colour", VStr "red")] in
  matched_subclasses JobBase_subclasses d = [ShellJob]
  /\ unserialize JobBase_subclasses d = Raise (ValueError (Unrecognized "colour" d))
  /\ ~ (exists j, unserialize JobBase_subclasses d = Return j /\ cls j = ShellJob).
Proof.
  intros d. split; [reflexivity|]. split; [reflexivity|].
  intros (j & H & _). discriminate H.
Qed.

(** The rewrite of a deprecated [navigate] directive comes before the
    detection of the subclass: the declaration below has the required
    directive of [ShellJob] only, and becomes a [BrowserJob]. *)
Example unserialize_navigate_rewrite :
  let d := [("command", VStr "ls"); ("navigate", VStr "https://example.org/")] in
  matched_subclasses JobBase_subclasses d = [ShellJob]
  /\ matched_subclasses JobBase_subclasses (compat d) = [UrlJob; BrowserJob; ShellJob]
  /\ unserialize JobBase_subclasses d
     = Return {| cls := BrowserJob;
                 attrs := [("navigate", VStr "https://example.org/");
                           ("url", VStr "https://example.org/");
                           ("use_browser", VBool true)] |}.
Proof. intros d. repeat split. Qed.

(** C5, as the code has it: when two or more variants have all their
    required directives truthy in the declaration as [unserialize] has
    rewritten it for the deprecated directives, [unserialize] selects, among
    these candidates taken in registration order, the first one of the
    highest count of truthy required directives: every candidate registered
    before it has a strictly smaller count and none has a greater one. The
    rewrite only adds candidates. The variant selected is the same for every
    permutation of the items of the declaration. *)
Theorem job_subclass_highest_count (d : dict) :
  dict_wf d ->
  let data := compat d in
  let candidates := matched_subclasses JobBase_subclasses data in
  ((2 <= List.length (matched_subclasses JobBase_subclasses d))%nat ->
   (2 <= List.length candidates)%nat)
  /\ ((2 <= List.length candidates)%nat ->
      exists c before after,
        job_subclass JobBase_subclasses data = Return c
        /\ unserialize JobBase_subclasses d
           = from_dict c (remove_extra_required JobBase_subclasses c data)
        /\ candidates = (before ++ c :: after)%list
        /\ (forall c', In c' before -> count_truthy data c' < count_truthy data c)
        /\ (forall c', In c' after -> count_truthy data c' <= count_truthy data c)
        /\ (forall d', Permutation d d' ->
            job_subclass JobBase_subclasses (compat d') = Return c)).
Proof.
  intros Hwf data candidates. split.
  - intros H. pose proof (matched_subclasses_compat d). unfold candidates, data. lia.
  - intros H.
    destruct (job_subclass_first_highest JobBase_subclasses data JobBase_subclasses_NoDup)
      as (c & before & after & Hsel & Hm & Hlt & Hle).
    { fold candidates. destruct candidates; [simpl in H; lia | discriminate]. }
    exists c, before, after. repeat split; try assumption.
    + unfold unserialize. fold data. now rewrite Hsel.
    + intros d' Hp. apply (same_items_job_subclass _ data); [|assumption].
      apply same_items_compat; [assumption | |].
      * now apply (Permutation_dict_wf d).
      * now apply Permutation_same_items.
Qed.

Lemma job_subclass_highest_count_witness :
  let d := [("url", VStr "https://example.org/"); ("use_browser", VBool true)] in
  dict_wf d
  /\ matched_subclasses JobBase_subclasses (compat d) = [UrlJob; BrowserJob]
  /\ exists c before after,
       job_subclass JobBase_subclasses (compat d) = Return c
       /\ unserialize JobBase_subclasses d
          = from_dict c (remove_extra_required JobBase_subclasses c (compat d))
       /\ matched_subclasses JobBase_subclasses (compat d) = (before ++ c :: after)%list
       /\ (forall c', In c' before -> count_truthy (compat d) c' < count_truthy (compat d) c)
       /\ (forall c', In c' after -> count_truthy (compat d) c' <= count_truthy (compat d) c)
       /\ (forall d', Permutation d d' ->
           job_subclass JobBase_subclasses (compat d') = Return c).
Proof.
  intros d.
  assert (Hwf : dict_wf d) by (repeat constructor; simpl; intuition discriminate).
  split; [exact Hwf|]. split; [reflexivity|].
  apply (proj2 (job_subclass_highest_count d Hwf)). simpl. lia.
Defined.

(** C5 as stated fails: the declaration below has the required directives of
    [UrlJob] and of [ShellJob], one truthy required directive each, so that
    the first registered candidate of the highest count is [UrlJob]; but
    [unserialize] rewrites the deprecated [navigate] directive before it
    looks for candidates, which makes [BrowserJob] a candidate with two, and
    returns a [BrowserJob]. *)
Lemma job_subclass_highest_count_counterexample :
  let d := [("url", VStr "https://example.org/"); ("command", VStr "ls");
            ("navigate", VStr "https://example.org/start")] in
  dict_wf d
  /\ matched_subclasses JobBase_subclasses d = [UrlJob; ShellJob]
  /\ count_truthy d UrlJob = 1 /\ count_truthy d ShellJob = 1
  /\ job_subclass JobBase_subclasses d = Return UrlJob
  /\ matched_subclasses JobBase_subclasses (compat d) = [UrlJob; BrowserJob; ShellJob]
  /\ unserialize JobBase_subclasses d
     = Return {| cls := BrowserJob;
                 attrs := [("url", VStr "https://example.org/");
                           ("navigate", VStr "https://example.org/start");
                           ("use_browser", VBool true)] |}
  /\ ~ (exists j, unserialize JobBase_subclasses d = Return j /\ cls j = UrlJob).
Proof.
  intros d. split; [repeat constructor; simpl; intuition discriminate|].
  repeat (split; [reflexivity|]).
  intros (j & H & Hc). injection H as <-. discriminate Hc.
Qed.

(** C6: once a variant is selected, a key that is left in the declaration
    after the stripping of the other variants' required directives and that
    is neither a required nor an optional directive of the variant makes
    [unserialize] raise the validation error; the error names the first such
    key of the declaration, and no job is built. *)
Theorem unserialize_unrecognized_key (d : dict) (c : job_class) (k : string) :
  job_subclass JobBase_subclasses (compat d) = Return c ->
  let data := remove_extra_required JobBase_subclasses c (compat d) in
  In k (keys data) ->
  mem k (__required__ c ++ __optional__ c) = false ->
  exists k0 before after,
    unserialize JobBase_subclasses d = Raise (ValueError (Unrecognized k0 data))
    /\ keys data = (before ++ k0 :: after)%list
    /\ mem k0 (__required__ c ++ __optional__ c) = false
    /\ (forall k', In k' before -> mem k' (__required__ c ++ __optional__ c) = true).
Proof.
  intros Hsel data Hin Hk.
  unfold unserialize. rewrite Hsel. simpl. fold data. unfold from_dict.
  destruct (find _ (keys data)) as [k0|] eqn:E.
  - apply find_first in E. destruct E as (before & after & Hkeys & Hk0 & Hbefore).
    exists k0, before, after. repeat split; [assumption | |].
    + now apply negb_true_iff in Hk0.
    + intros k' Hk'. apply Hbefore in Hk'. now apply negb_false_iff in Hk'.
  - exfalso. pose proof (find_none _ _ E k Hin) as H. simpl in H.
    rewrite Hk in H. discriminate.
Qed.

Lemma unserialize_unrecognized_key_witness :
  let d := [("url", VStr "https://example.org/"); ("command", VStr "");
            ("nmae", VStr "Example"); ("timeuot", VInt 5)] in
  job_subclass JobBase_subclasses (compat d) = Return UrlJob
  /\ remove_extra_required JobBase_subclasses UrlJob (compat d)
     = [("url", VStr "https://example.org/"); ("nmae", VStr "Example"); ("timeuot", VInt 5)]
  /\ exists k0 before after,
       unserialize JobBase_subclasses d
       = Raise (ValueError (Unrecognized k0
                  (remove_extra_required JobBase_subclasses UrlJob (compat d))))
       /\ keys (remove_extra_required JobBase_subclasses UrlJob (compat d))
          = (before ++ k0 :: after)%list
       /\ mem k0 (__required__ UrlJob ++ __optional__ UrlJob) = false
       /\ (forall k', In k' before ->
           mem k' (__required__ UrlJob ++ __optional__ UrlJob) = true).
Proof.
  intros d. split; [reflexivity|]. split; [reflexivity|].
  apply (unserialize_unrecognized_key d UrlJob "timeuot" eq_refl).
  - simpl. tauto.
  - reflexivity.
Defined.

(** ** Classification of HTTP errors (claims C1, C3) *)

Lemma truthy_class_form b : truthy (VStr (str_of_bool b ++ "xx")) = true.
Proof. now destruct b. Qed.

(** Whatever the configured codes, an HTTP error is ignored as soon as
    [ignore_http_error_codes] is set: the last operand of the [or] is a string
    that is never empty. *)
Lemma UrlJob_ignore_error_http_truthy W self status_code :
  truthy (getattr self "ignore_http_error_codes") = true ->
  truthy (UrlJob_ignore_error W self (HTTPError status_code)) = true.
Proof.
  intros H. unfold UrlJob_ignore_error. simpl. rewrite H.
  destruct (isinstance_int _ && eq_int _ _); [reflexivity|].
  unfold py_or. simpl.
  destruct (mem (str_of_int status_code) _); [reflexivity|].
  apply truthy_class_form.
Qed.

Lemma int_in_strings x ignored_codes : int_in x ignored_codes = false.
Proof. unfold int_in. now induction ignored_codes. Qed.

(** What the code answers to an HTTP error once [ignore_http_error_codes] is
    set: [True] for an integer equal to the status code or an entry equal to
    its decimal form, and the string ['Falsexx'] in every other case; the
    class forms [Nxx] among the entries play no part. *)
Lemma UrlJob_ignore_error_http_value W self status_code :
  let ignore_http_error_codes := getattr self "ignore_http_error_codes" in
  truthy ignore_http_error_codes = true ->
  UrlJob_ignore_error W self (HTTPError status_code)
  = if isinstance_int ignore_http_error_codes && eq_int ignore_http_error_codes status_code
       || mem (str_of_int status_code)
            match ignore_http_error_codes with
            | VStr s => map (fun s => lower (strip s)) (split "," s)
            | VList l => map (fun s => lower (strip (str W s))) l
            | _ => []
            end
    then VBool true else VStr "Falsexx".
Proof.
  intros cfg H. unfold UrlJob_ignore_error. simpl. fold cfg. rewrite H.
  destruct (isinstance_int cfg && eq_int cfg status_code); [reflexivity|].
  rewrite int_in_strings. unfold py_or. simpl.
  now destruct (mem (str_of_int status_code) _).
Qed.

(** C1, where the code departs from it: with [ignore_http_error_codes: 404]
    an HTTP error of status 500, which the configuration does not match,
    makes [ignore_error] return the string ['Falsexx'], which is truthy, and
    not [False]. *)
Theorem UrlJob_ignore_error_unmatched_status (W : world) :
  let self :=
    {| cls := UrlJob;
       attrs := [("url", VStr "https://example.org/");
                 ("ignore_http_error_codes", VInt 404)] |} in
  status_matches W (getattr self "ignore_http_error_codes") 500 = false
  /\ ignore_error W self (HTTPError 500) = VStr "Falsexx"
  /\ truthy (ignore_error W self (HTTPError 500)) = true.
Proof. intros self. repeat split. Qed.

(** C3: for one and the same [ignore_http_error_codes], what [UrlJob] answers
    to an [HTTPError] of a status code and what [BrowserJob] answers to a
    [BrowserResponseError] of that status code are the same value. *)
Theorem ignore_error_same_status_predicate (W : world) (url_job browser_job : job)
  (status_code : Z) :
  cls url_job = UrlJob ->
  cls browser_job = BrowserJob ->
  getattr url_job "ignore_http_error_codes"
  = getattr browser_job "ignore_http_error_codes" ->
  ignore_error W url_job (HTTPError status_code)
  = ignore_error W browser_job (BrowserResponseError status_code).
Proof.
  intros Hu Hb Hcfg. unfold ignore_error. rewrite Hu, Hb.
  unfold UrlJob_ignore_error, BrowserJob_ignore_error. simpl.
  now rewrite Hcfg.
Qed.

Lemma ignore_error_same_status_predicate_witness :
  let W := sample_world (Raise ConnectionError) (Raise OSError) (Raise OtherError) in
  let url_job :=
    {| cls := UrlJob;
       attrs := [("url", VStr "https://example.org/");
                 ("ignore_http_error_codes", VStr "404, 5XX")] |} in
  let browser_job :=
    {| cls := BrowserJob;
       attrs := [("url", VStr "https://example.org/"); ("use_browser", VBool true);
                 ("ignore_http_error_codes", VStr "404, 5XX")] |} in
  ignore_error W url_job (HTTPError 404)
  = ignore_error W browser_job (BrowserResponseError 404).
Proof.
  intros W url_job browser_job.
  apply (ignore_error_same_status_predicate W url_job browser_job 404);
    reflexivity.
Defined.

(** ** Attributes *)

Lemma cls_setattr self k v : cls (setattr self k v) = cls self.
Proof. reflexivity. Qed.

Lemma getattr_setattr_eq self k v : getattr (setattr self k v) k = v.
Proof. unfold getattr, setattr. simpl. now rewrite lookup_setitem_eq. Qed.

Lemma getattr_setattr_neq self k k' v :
  k <> k' -> getattr (setattr self k v) k' = getattr self k'.
Proof. intros H. unfold getattr, setattr. simpl. now rewrite lookup_setitem_neq. Qed.

Lemma same_but_refl changed self : same_but changed self self.
Proof. split; auto. Qed.

Lemma same_but_trans changed a b c :
  same_but changed a b -> same_but changed b c -> same_but changed a c.
Proof.
  intros [H1 H2] [H3 H4]. split; [congruence|].
  intros k Hk. now rewrite H4, H2.
Qed.

Lemma same_but_setattr changed self k v :
  mem k changed = true -> same_but changed self (setattr self k v).
Proof.
  intros Hk. split; [reflexivity|]. intros k' Hk'.
  apply getattr_setattr_neq. intros ->. congruence.
Qed.

Lemma same_but_setattr_after changed self self' k v :
  mem k changed = true -> same_but changed self self' ->
  same_but changed self (setattr self' k v).
Proof.
  intros Hk H. eapply same_but_trans; [exact H | now apply same_but_setattr].
Qed.

(** ** The GUID (claim C7) *)

Lemma get_location_same_but changed self self' :
  same_but changed self self' ->
  mem "user_visible_url" changed = false ->
  mem "url" changed = false ->
  mem "command" changed = false ->
  get_location self' = get_location self.
Proof.
  intros [Hc Hk] H1 H2 H3. unfold get_location. rewrite Hc.
  now rewrite (Hk _ H1), (Hk _ H2), (Hk _ H3).
Qed.

(** ** Headers *)

Lemma ci_lookup_setitem_eq {V} k (v : V) d : ci_lookup k (ci_setitem k v d) = Some v.
Proof. unfold ci_lookup, ci_setitem. now rewrite lookup_setitem_eq. Qed.

Lemma ci_lookup_setitem_neq {V} k k' (v : V) d :
  lower k <> lower k' -> ci_lookup k' (ci_setitem k v d) = ci_lookup k' d.
Proof. intros H. unfold ci_lookup, ci_setitem. now rewrite lookup_setitem_neq. Qed.

Lemma ci_lookup_pop_eq {V} k (d : ci_store V) :
  dict_wf d -> ci_lookup k (ci_pop k d) = None.
Proof. intros H. unfold ci_lookup, ci_pop. now rewrite lookup_pop_eq. Qed.

Lemma ci_lookup_pop_neq {V} k k' (d : ci_store V) :
  lower k <> lower k' -> ci_lookup k' (ci_pop k d) = ci_lookup k' d.
Proof. intros H. unfold ci_lookup, ci_pop. now rewrite lookup_pop_neq. Qed.

Lemma dict_wf_ci_setitem {V} k (v : V) d : dict_wf d -> dict_wf (ci_setitem k v d).
Proof. apply dict_wf_setitem. Qed.

Lemma dict_wf_ci_pop {V} k (d : ci_store V) : dict_wf d -> dict_wf (ci_pop k d).
Proof. apply dict_wf_pop. Qed.

Lemma update_pairs_wf l store store' :
  dict_wf store -> update_pairs l store = Return store' -> dict_wf store'.
Proof.
  revert store. induction l as [|x l IH]; simpl; intros store Hwf H.
  - now injection H as <-.
  - destruct x as [| | | | |[|[] [|v [|]]]| |]; try discriminate.
    eapply IH; [|exact H]. now apply dict_wf_ci_setitem.
Qed.

Lemma fold_ci_setitem_wf {A} (f : A -> string) (g : A -> value) l store :
  dict_wf store ->
  dict_wf (fold_left (fun store kv => ci_setitem (f kv) (g kv) store) l store).
Proof.
  revert store. induction l as [|x l IH]; simpl; intros store H; [assumption|].
  apply IH. now apply dict_wf_ci_setitem.
Qed.

Lemma dict_wf_nil {V} : dict_wf (@nil (string * V)).
Proof. constructor. Qed.

(** A [CaseInsensitiveDict] holds each key once, whatever its case. *)
Lemma CaseInsensitiveDict_wf data store :
  CaseInsensitiveDict data = Return store -> dict_wf store.
Proof.
  destruct data as [| | | |s|l|d|d]; simpl; try discriminate.
  - intros [= <-]. apply dict_wf_nil.
  - destruct s; [|discriminate]. intros [= <-]. apply dict_wf_nil.
  - apply update_pairs_wf, dict_wf_nil.
  - intros [= <-]. apply (fold_ci_setitem_wf fst snd), dict_wf_nil.
  - intros [= <-].
    apply (fold_ci_setitem_wf (fun kv => fst (snd kv)) (fun kv => snd (snd kv))), dict_wf_nil.
Qed.

Lemma self_headers_setattr self h :
  self_headers (setattr self "headers" (VCIDict h)) = h.
Proof. unfold self_headers. now rewrite getattr_setattr_eq. Qed.

Lemma self_headers_on_headers f self :
  self_headers (on_headers f self) = f (self_headers self).
Proof. apply self_headers_setattr. Qed.

Lemma getattr_on_headers f self k :
  k <> "headers" -> getattr (on_headers f self) k = getattr self k.
Proof. intros H. unfold on_headers. now rewrite getattr_setattr_neq by congruence. Qed.

Lemma self_headers_same_but changed self self' :
  same_but changed self self' -> mem "headers" changed = false ->
  self_headers self' = self_headers self.
Proof. intros [_ H] Hk. unfold self_headers. now rewrite (H _ Hk). Qed.

Lemma same_but_on_headers changed f self self' :
  mem "headers" changed = true -> same_but changed self self' ->
  same_but changed self (on_headers f self').
Proof. intros Hk H. now apply same_but_setattr_after. Qed.

Ltac headers_step :=
  repeat first
    [ rewrite self_headers_on_headers
    | rewrite getattr_on_headers by discriminate
    | rewrite ci_lookup_setitem_eq
    | rewrite ci_lookup_setitem_neq by (vm_compute; discriminate)
    | rewrite ci_lookup_pop_neq by (vm_compute; discriminate) ].

Ltac wf_step :=
  repeat first
    [ assumption
    | rewrite self_headers_on_headers
    | apply dict_wf_ci_setitem
    | apply dict_wf_ci_pop ].

(** What [cache_headers] leaves in [self.headers]. *)
Lemma cache_headers_spec W self job_state :
  dict_wf (self_headers self) ->
  let self' := cache_headers W self job_state in
  same_but ["headers"] self self'
  /\ dict_wf (self_headers self')
  /\ cache_hints W self job_state (self_headers self').
Proof.
  intros Hwf. unfold cache_headers, cache_hints.
  destruct (truthy (old_etag job_state)) eqn:Eetag;
    destruct (old_timestamp job_state) as [t|] eqn:Etime;
    headers_step;
    destruct (truthy (getattr self "ignore_cached") || (0 <? tries job_state));
    (split; [repeat apply same_but_on_headers; auto using same_but_refl|]);
    (split; [wf_step|]);
    headers_step;
    repeat split; try discriminate; try congruence;
    try (rewrite ci_lookup_pop_eq; [reflexivity | wf_step]).
Qed.

Lemma cache_hints_same_but changed W self self' job_state h :
  same_but changed self self' -> mem "ignore_cached" changed = false ->
  cache_hints W self' job_state h -> cache_hints W self job_state h.
Proof. intros [_ H] Hk. unfold cache_hints. now rewrite (H _ Hk). Qed.

Lemma cache_hints_frame W self job_state h h' :
  ci_lookup "If-None-Match" h' = ci_lookup "If-None-Match" h ->
  ci_lookup "If-Modified-Since" h' = ci_lookup "If-Modified-Since" h ->
  cache_hints W self job_state h -> cache_hints W self job_state h'.
Proof. intros H1 H2. unfold cache_hints. now rewrite H1, H2. Qed.

Lemma same_but_weaken changed changed' self self' :
  (forall k, mem k changed = true -> mem k changed' = true) ->
  same_but changed self self' -> same_but changed' self self'.
Proof.
  intros Hsub [Hc Hk]. split; [assumption|]. intros k Hk'. apply Hk.
  destruct (mem k changed) eqn:E; [|reflexivity]. apply Hsub in E. congruence.
Qed.

(** What [prepare] leaves of the job: only [headers] and [method] change, and
    the headers carry the cache hints. *)
Lemma prepare_spec W self job_state self1 proxies :
  prepare W self job_state = Return (self1, proxies) ->
  same_but ["headers"; "method"] self self1
  /\ dict_wf (self_headers self1)
  /\ cache_hints W self job_state (self_headers self1).
Proof.
  unfold prepare.
  destruct (CaseInsensitiveDict (getattr self "headers")) as [headers|e] eqn:Eh;
    [|discriminate].
  apply CaseInsensitiveDict_wf in Eh. simpl.
  set (self0 := setattr self "headers" (VCIDict headers)).
  assert (H0 : same_but ["headers"; "method"] self self0)
    by now apply same_but_setattr.
  assert (W0 : dict_wf (self_headers self0))
    by (unfold self0; now rewrite self_headers_setattr).
  set (selfA := if ci_contains "User-Agent" (self_headers self0) then self0 else _).
  assert (HA : same_but ["headers"; "method"] self selfA
               /\ dict_wf (self_headers selfA)).
  { unfold selfA. destruct (ci_contains "User-Agent" (self_headers self0)); [now split|].
    split.
    - now apply same_but_on_headers.
    - wf_step. }
  destruct HA as [HA WA].
  destruct (cache_headers_spec W selfA job_state WA) as (HB & WB & CB).
  set (selfB := cache_headers W selfA job_state) in *.
  apply (same_but_weaken _ ["headers"; "method"]) in HB;
    [|intros k Hk; simpl in *; destruct (String.eqb k "headers"); simpl in *; congruence].
  assert (HB' := same_but_trans _ _ _ _ HA HB).
  apply (cache_hints_same_but ["headers"; "method"] W self) in CB;
    [|assumption|reflexivity].
  set (selfC := if is_not_None (getattr selfB "method") then selfB else _).
  assert (HC : same_but ["headers"; "method"] self selfC
               /\ self_headers selfC = self_headers selfB).
  { unfold selfC. destruct (is_not_None (getattr selfB "method")); [now split|]. split.
    - now apply same_but_setattr_after.
    - unfold self_headers. now rewrite getattr_setattr_neq by discriminate. }
  destruct HC as [HC EC].
  set (selfD := if is_not_None (getattr selfC "data") then _ else selfC).
  assert (HD : same_but ["headers"; "method"] self selfD
               /\ dict_wf (self_headers selfD)
               /\ cache_hints W self job_state (self_headers selfD)).
  { unfold selfD. destruct (is_not_None (getattr selfC "data")).
    - set (selfM := if is_not_None (getattr selfC "method") then selfC else _).
      assert (HM : same_but ["headers"; "method"] self selfM
                   /\ self_headers selfM = self_headers selfB).
      { unfold selfM. destruct (is_not_None (getattr selfC "method")); [now split|].
        split.
        - now apply same_but_setattr_after.
        - unfold self_headers. rewrite getattr_setattr_neq by discriminate.
          exact EC. }
      destruct HM as [HM EM].
      destruct (ci_contains "Content-Type" (self_headers selfM)).
      + rewrite EM. split; [assumption | split; assumption].
      + split; [now apply same_but_on_headers|].
        rewrite self_headers_on_headers, EM. split; [wf_step|].
        eapply cache_hints_frame; [| |exact CB];
          now rewrite ci_lookup_setitem_neq by (vm_compute; discriminate).
    - rewrite EC. split; [assumption | split; assumption]. }
  intros [= <- _]. exact HD.
Qed.

(** ** Retrieval by [UrlJob] *)

Lemma stringify_cookies_spec W self self' :
  stringify_cookies W self = Return self' -> same_but ["cookies"] self self'.
Proof.
  unfold stringify_cookies. destruct (truthy (getattr self "cookies")).
  - destruct (getattr self "cookies"); try discriminate;
      intros [= <-]; now apply same_but_setattr.
  - intros [= <-]. apply same_but_refl.
Qed.

Lemma UrlJob_name_from_title_same_but self text :
  same_but ["name"] self (UrlJob_name_from_title self text).
Proof.
  unfold UrlJob_name_from_title. destruct (negb _); [|apply same_but_refl].
  destruct (search_title text) as [[g rest]|]; [|apply same_but_refl].
  now apply same_but_setattr.
Qed.

Lemma handle_response_same_but W self response :
  same_but ["name"] self (fst (handle_response W self response)).
Proof.
  unfold handle_response.
  destruct (_ && _); [apply same_but_refl|].
  destruct (_ =? 304); [apply same_but_refl|].
  destruct (filter_chain_needs_bytes W _); [apply same_but_refl|].
  apply UrlJob_name_from_title_same_but.
Qed.

(** The ETag that [handle_response] returns. *)
Lemma handle_response_etag W self response data etag :
  snd (handle_response W self response) = Return (data, etag) ->
  etag = VStr match Response.history response with
              | [] => match ci_lookup "ETag" (Response.headers response) with
                      | Some e => e
                      | None => ""
                      end
              | _ :: _ => ""
              end.
Proof.
  unfold handle_response.
  destruct (_ && _); [discriminate|].
  destruct (_ =? 304); [discriminate|].
  destruct (filter_chain_needs_bytes W _); simpl; now intros [= _ <-].
Qed.

(** The name that [handle_response] leaves when it returns text. *)
Lemma handle_response_name W self response text etag :
  snd (handle_response W self response) = Return (Text text, etag) ->
  fst (handle_response W self response) = UrlJob_name_from_title self text.
Proof.
  unfold handle_response.
  destruct (_ && _); [discriminate|].
  destruct (_ =? 304); [discriminate|].
  destruct (filter_chain_needs_bytes W _); simpl; [discriminate|].
  now intros [= <- _].
Qed.

(** A run of [UrlJob.retrieve] that calls [requests.request]: how the
    arguments of the call and the result of the run come about. *)
Lemma UrlJob_retrieve_request W self job_state r :
  In (requests_request r) (calls (UrlJob_retrieve W self job_state)) ->
  exists self1 proxies self2,
    prepare W self job_state = Return (self1, proxies)
    /\ stringify_cookies W self1 = Return self2
    /\ Request.headers r = self_headers self2
    /\ Request.timeout r = request_timeout self1
    /\ match request W r with
       | Return response =>
           self_after (UrlJob_retrieve W self job_state)
           = fst (handle_response W self2 response)
           /\ outcome (UrlJob_retrieve W self job_state)
              = snd (handle_response W self2 response)
       | Raise e =>
           self_after (UrlJob_retrieve W self job_state) = self2
           /\ outcome (UrlJob_retrieve W self job_state) = Raise e
       end.
Proof.
  unfold UrlJob_retrieve.
  destruct (prepare W self job_state) as [[self1 proxies]|e] eqn:Ep; simpl; [|tauto].
  destruct (getattr self1 "url") as [| | | |url| | |] eqn:Eu; simpl; try tauto.
  destruct (String.eqb (urlparse_scheme url) "file"); simpl;
    [intros [H|[]]; discriminate|].
  destruct (String.eqb (urlparse_scheme url) "ftp"); simpl;
    [intros [H|[]]; discriminate|].
  destruct (stringify_cookies W self1) as [self2|e] eqn:Ec; simpl; [|tauto].
  match goal with |- context [request W ?r0] => remember r0 as r' eqn:Er' end.
  intros Hin. exists self1, proxies, self2.
  assert (Hr : r = r').
  { destruct (request W r') as [response|e].
    - destruct (handle_response W self2 response). simpl in Hin.
      destruct Hin as [H|[]]. now injection H.
    - simpl in Hin. destruct Hin as [H|[]]. now injection H. }
  subst r. split; [reflexivity|]. split; [exact Ec|].
  split; [now rewrite Er'|]. split; [now rewrite Er'|].
  destruct (request W r') as [response|e]; [|now split].
  destruct (handle_response W self2 response). now split.
Qed.

(** A retrieval changes no attribute of the job but the headers, the method,
    the cookies and the name. *)
Lemma UrlJob_retrieve_same_but W self job_state :
  same_but ["headers"; "method"; "cookies"; "name"] self
    (self_after (UrlJob_retrieve W self job_state)).
Proof.
  set (changed := ["headers"; "method"; "cookies"; "name"]).
  assert (Hsub : forall l self self', (forall k, mem k l = true -> mem k changed = true) ->
            same_but l self self' -> same_but changed self self')
    by (intros l a b; apply same_but_weaken).
  unfold UrlJob_retrieve.
  destruct (prepare W self job_state) as [[self1 proxies]|e] eqn:Ep; simpl;
    [|apply same_but_refl].
  apply prepare_spec in Ep. destruct Ep as (H1 & _ & _).
  apply (Hsub ["headers"; "method"]) in H1;
    [|intros k; simpl; destruct (String.eqb k "headers"), (String.eqb k "method");
      simpl; congruence].
  destruct (getattr self1 "url") as [| | | |url| | |]; simpl; try assumption.
  destruct (String.eqb (urlparse_scheme url) "file"); simpl; [assumption|].
  destruct (String.eqb (urlparse_scheme url) "ftp"); simpl; [assumption|].
  destruct (stringify_cookies W self1) as [self2|e] eqn:Ec; simpl; [|assumption].
  apply stringify_cookies_spec in Ec.
  apply (Hsub ["cookies"]) in Ec;
    [|intros k; simpl; destruct (String.eqb k "cookies"); simpl;
      [intros _; now rewrite !orb_true_r | congruence]].
  assert (H2 := same_but_trans _ _ _ _ H1 Ec).
  match goal with |- context [request W ?r0] => destruct (request W r0) as [response|e] end;
    simpl; [|assumption].
  pose proof (handle_response_same_but W self2 response) as H3.
  destruct (handle_response W self2 response) as [self3 out]. simpl in *.
  apply (Hsub ["name"]) in H3;
    [|intros k; simpl; destruct (String.eqb k "name"); simpl;
      [intros _; now rewrite !orb_true_r | congruence]].
  exact (same_but_trans _ _ _ _ H2 H3).
Qed.

Lemma BrowserJob_retrieve_same_but W self job_state :
  same_but ["headers"; "method"; "cookies"; "name"] self
    (self_after (BrowserJob_retrieve W self job_state)).
Proof.
  unfold BrowserJob_retrieve.
  destruct (browser W self) as [[response etag]|e]; simpl; [|apply same_but_refl].
  unfold BrowserJob_name_from_title.
  destruct (negb _); [|apply same_but_refl].
  destruct (findall_title response); [apply same_but_refl|].
  now apply same_but_setattr.
Qed.

(** C7: the GUID is a function of the location string alone. Two jobs of the
    same location have the same GUID (or fail alike where the location is not
    a string), whatever their other attributes; setting any attribute other
    than [user_visible_url], [url] and [command] leaves the GUID as it is;
    and so does a retrieval, which changes the headers, the method, the
    cookies and the name at most. *)
Theorem get_guid_function_of_location (job1 job2 : job) :
  get_location job1 = get_location job2 ->
  get_guid job1 = get_guid job2
  /\ (forall k v, mem k ["user_visible_url"; "url"; "command"] = false ->
      get_guid (setattr job1 k v) = get_guid job1)
  /\ (forall W job_state r, retrieve W job1 job_state = Some r ->
      get_guid (self_after r) = get_guid job1).
Proof.
  intros H. split; [|split].
  - unfold get_guid. now rewrite H.
  - intros k v Hk. unfold get_guid. simpl in Hk.
    destruct (String.eqb_spec k "user_visible_url") as [->|H1]; [discriminate|].
    destruct (String.eqb_spec k "url") as [->|H2]; [discriminate|].
    destruct (String.eqb_spec k "command") as [->|H3]; [discriminate|].
    unfold get_location. rewrite cls_setattr.
    now rewrite !getattr_setattr_neq by assumption.
  - intros W job_state r Hr. unfold get_guid.
    rewrite (get_location_same_but ["headers"; "method"; "cookies"; "name"] job1);
      try reflexivity.
    unfold retrieve in Hr. destruct (cls job1); try discriminate; injection Hr as <-.
    + apply UrlJob_retrieve_same_but.
    + apply BrowserJob_retrieve_same_but.
    + apply same_but_refl.
Qed.

Lemma get_guid_function_of_location_witness :
  let job1 :=
    {| cls := UrlJob;
       attrs := [("url", VStr "https://www.google.com/"); ("name", VStr "Google");
                 ("timeout", VInt 15)] |} in
  let job2 :=
    {| cls := BrowserJob;
       attrs := [("name", VStr "Search"); ("url", VStr "https://example.org/");
                 ("use_browser", VBool true);
                 ("user_visible_url", VStr "https://www.google.com/")] |} in
  get_location job1 = get_location job2
  /\ get_guid job1 = get_guid job2
  /\ get_guid job1 = Return "595c3cce2409a55c13076f1bac5edee529fc2e58".
Proof.
  intros job1 job2. split; [reflexivity|]. split.
  - exact (proj1 (get_guid_function_of_location job1 job2 eq_refl)).
  - vm_compute. reflexivity.
Defined.

(** ** Requests of [UrlJob] (claims C8, C9, C10) *)

(** C8: the headers of the request that [UrlJob.retrieve] makes. When the job
    has [ignore_cached] set or the tries counter is above zero, there is no
    [If-None-Match] header and [If-Modified-Since] is the date of the epoch,
    whatever the cached ETag and timestamp are; otherwise a (non-empty) cached
    ETag is sent as [If-None-Match] and a cached timestamp as
    [If-Modified-Since]. *)
Theorem UrlJob_retrieve_cache_headers (W : world) (self : job) (job_state : JobState)
  (r : Request.t) :
  In (requests_request r) (calls (UrlJob_retrieve W self job_state)) ->
  let headers := Request.headers r in
  if truthy (getattr self "ignore_cached") || (0 <? tries job_state)
  then ci_lookup "If-None-Match" headers = None
       /\ ci_lookup "If-Modified-Since" headers = Some (VStr (formatdate W 0))
  else (truthy (old_etag job_state) = true ->
        ci_lookup "If-None-Match" headers = Some (old_etag job_state))
       /\ (forall t, old_timestamp job_state = Some t ->
           ci_lookup "If-Modified-Since" headers = Some (VStr (formatdate W t))).
Proof.
  intros Hin headers. change (cache_hints W self job_state headers).
  apply UrlJob_retrieve_request in Hin.
  destruct Hin as (self1 & proxies & self2 & Hp & Hc & Hh & _).
  apply prepare_spec in Hp. destruct Hp as (_ & _ & Hhints).
  apply stringify_cookies_spec in Hc.
  unfold headers. rewrite Hh.
  now rewrite (self_headers_same_but ["cookies"] self1 self2).
Qed.

Lemma UrlJob_retrieve_cache_headers_witness :
  let W := sample_world (Return (sample_response [] "<html></html>"))
             (Raise OSError) (Raise OtherError) in
  let self :=
    {| cls := UrlJob;
       attrs := [("url", VStr "https://example.org/");
                 ("headers", VDict [("if-none-match", VStr "configured")])] |} in
  let job_state :=
    {| old_etag := VStr "33a64df5"; old_timestamp := Some (1609459200 # 1); tries := 1 |} in
  exists r,
    In (requests_request r) (calls (UrlJob_retrieve W self job_state))
    /\ ci_lookup "If-None-Match" (Request.headers r) = None
    /\ ci_lookup "If-Modified-Since" (Request.headers r)
       = Some (VStr "Thu, 01 Jan 1970 00:00:00 -0000").
Proof.
  intros W self job_state. eexists. split.
  - left. reflexivity.
  - refine (UrlJob_retrieve_cache_headers W self job_state _ _).
    left. reflexivity.
Defined.




(** C10: the ETag that a successful retrieval over HTTP returns is the [ETag]
    header of the response (the empty string without one) when the response
    has no redirect in its history, and the empty string when it has any. *)
Theorem UrlJob_retrieve_etag (W : world) (self : job) (job_state : JobState)
  (r : Request.t) (response : Response.t) (data : payload) (etag : value) :
  In (requests_request r) (calls (UrlJob_retrieve W self job_state)) ->
  request W r = Return response ->
  outcome (UrlJob_retrieve W self job_state) = Return (data, etag) ->
  (Response.history response = [] ->
   etag = VStr match ci_lookup "ETag" (Response.headers response) with
               | Some e => e
               | None => ""
               end)
  /\ (Response.history response <> [] -> etag = VStr "").
Proof.
  intros Hin Hresp Hout. apply UrlJob_retrieve_request in Hin.
  destruct Hin as (self1 & proxies & self2 & _ & _ & _ & _ & Hrun).
  rewrite Hresp in Hrun. destruct Hrun as [_ Hrun]. rewrite Hrun in Hout.
  apply handle_response_etag in Hout.
  destruct (Response.history response); split; congruence.
Qed.

Lemma UrlJob_retrieve_etag_witness :
  let W := sample_world (Return (sample_response [301] "<html></html>"))
             (Raise OSError) (Raise OtherError) in
  let self := {| cls := UrlJob; attrs := [("url", VStr "https://example.org/")] |} in
  let job_state := {| old_etag := VNone; old_timestamp := None; tries := 0 |} in
  ci_lookup "ETag" (Response.headers (sample_response [301] "<html></html>"))
  = Some "33a64df5"
  /\ exists r data etag,
       In (requests_request r) (calls (UrlJob_retrieve W self job_state))
       /\ request W r = Return (sample_response [301] "<html></html>")
       /\ outcome (UrlJob_retrieve W self job_state) = Return (data, etag)
       /\ etag = VStr "".
Proof.
  intros W self job_state. split; [reflexivity|].
  eexists. eexists. eexists.
  split; [left; reflexivity|]. split; [reflexivity|]. split; [reflexivity|].
  refine (proj2 (UrlJob_retrieve_etag W self job_state _ _ _ _ _ _ _) _).
  - left. reflexivity.
  - reflexivity.
  - reflexivity.
  - discriminate.
Defined.

(** ** The name taken from the title (claim C2) *)

Lemma take_length n s : (String.length (take n s) <= n)%nat.
Proof.
  revert s. induction n as [|n IH]; intros s; simpl; [lia|].
  destruct s; simpl; [lia|]. specialize (IH s). lia.
Qed.

Lemma strip_prefix_length p s r :
  strip_prefix p s = Some r -> (String.length r + String.length p = String.length s)%nat.
Proof.
  revert s. induction p as [|a p IH]; simpl; intros s.
  - intros [= ->]. lia.
  - destruct s as [|b s]; [discriminate|]. destruct (Ascii.eqb a b); [|discriminate].
    intros H. apply IH in H. simpl. lia.
Qed.

Lemma title_group_length s g rest :
  title_group s = Some (g, rest) -> (String.length rest < String.length s)%nat.
Proof.
  revert g. induction s as [|c s IH]; cbn [title_group String.length]; intros g;
    [discriminate|].
  destruct (Ascii.eqb c newline); [discriminate|].
  destruct (strip_prefix "</title>" s) as [r|] eqn:E.
  - intros [= _ ->]. apply strip_prefix_length in E. cbn [String.length] in E. lia.
  - destruct (title_group s) as [[g' r]|]; [|discriminate].
    intros [= _ ->]. specialize (IH g' eq_refl). lia.
Qed.

Lemma title_attrs_length s g rest :
  title_attrs s = Some (g, rest) -> (String.length rest < String.length s)%nat.
Proof.
  induction s as [|c s IH]; cbn [title_attrs String.length]; [discriminate|].
  destruct (if Ascii.eqb c ">" then title_group s else None) as [m|] eqn:E.
  - intros [= ->]. destruct (Ascii.eqb c ">"); [|discriminate].
    apply title_group_length in E. lia.
  - destruct (Ascii.eqb c newline); [discriminate|]. intros H. apply IH in H. lia.
Qed.

(** A match of the title pattern is not empty: the search for the next one
    resumes in a shorter text. *)
Lemma search_title_length s g rest :
  search_title s = Some (g, rest) -> (String.length rest < String.length s)%nat.
Proof.
  induction s as [|c s IH].
  - discriminate.
  - cbn [search_title].
    destruct (strip_prefix "<title" (String c s)) as [s'|] eqn:E.
    + destruct (title_attrs s') as [m|] eqn:Em.
      * intros [= ->]. apply title_attrs_length in Em.
        apply strip_prefix_length in E. lia.
      * intros H. apply IH in H. cbn [String.length]. lia.
    + intros H. apply IH in H. cbn [String.length]. lia.
Qed.

(** The length of the text is fuel enough for [findall_title_from]: more
    fuel finds the same matches. *)
Lemma findall_title_fuel n s :
  (String.length s <= n)%nat -> findall_title_from n s = findall_title s.
Proof.
  unfold findall_title.
  assert (H : forall n m s, (String.length s <= n)%nat -> (String.length s <= m)%nat ->
                findall_title_from n s = findall_title_from m s).
  { clear. induction n as [|n IH]; intros m s Hn Hm.
    - destruct s; [|simpl in Hn; lia]. now destruct m.
    - destruct m as [|m].
      + destruct s; [reflexivity | simpl in Hm; lia].
      + simpl. destruct (search_title s) as [[g rest]|] eqn:E; [|reflexivity].
        apply search_title_length in E. f_equal. apply IH; lia. }
  intros Hn. now apply H.
Qed.

(** The first item of [re.findall] is the group of [re.search]. *)
Lemma findall_title_head s group1 rest :
  search_title s = Some (group1, rest) ->
  exists more, findall_title s = group1 :: more.
Proof.
  intros H. unfold findall_title. destruct s as [|c s]; [discriminate|].
  cbn [String.length findall_title_from]. rewrite H. eauto.
Qed.

(** C2, as the code has it: a job without a (truthy) name takes its name from
    the first match of the title pattern in the text retrieved. [UrlJob] does
    so when it retrieves over HTTP and returns text (a retrieval of a file,
    over FTP or of bytes sets no name), and its name is then the text of the
    title cut to 60 characters; the name that [BrowserJob] takes agrees with
    the text of the title on the first 60 characters. *)
Theorem retrieve_name_from_title (W : world) (self : job) (job_state : JobState)
  (group1 rest : string) :
  truthy (getattr self "name") = false ->
  (forall r text etag,
      In (requests_request r) (calls (UrlJob_retrieve W self job_state)) ->
      outcome (UrlJob_retrieve W self job_state) = Return (Text text, etag) ->
      search_title text = Some (group1, rest) ->
      getattr (self_after (UrlJob_retrieve W self job_state)) "name"
      = VStr (take 60 group1)
      /\ (String.length (take 60 group1) <= 60)%nat)
  /\ (forall response etag,
      browser W self = Return (response, etag) ->
      search_title response = Some (group1, rest) ->
      exists name,
        getattr (self_after (BrowserJob_retrieve W self job_state)) "name" = VStr name
        /\ take 60 name = take 60 group1).
Proof.
  intros Hname. split.
  - intros r text etag Hin Hout Hsearch. split; [|apply take_length].
    apply UrlJob_retrieve_request in Hin.
    destruct Hin as (self1 & proxies & self2 & Hp & Hc & _ & _ & Hrun).
    apply prepare_spec in Hp. destruct Hp as ([_ H1] & _ & _).
    apply stringify_cookies_spec in Hc. destruct Hc as [_ H2].
    assert (Hname2 : truthy (getattr self2 "name") = false)
      by now rewrite H2, H1.
    destruct (request W r) as [response|e].
    + destruct Hrun as [Hself Hout']. rewrite Hout' in Hout.
      rewrite Hself, (handle_response_name _ _ _ _ _ Hout).
      unfold UrlJob_name_from_title. rewrite Hname2, Hsearch. simpl.
      apply getattr_setattr_eq.
    + destruct Hrun as [_ Hout']. rewrite Hout' in Hout. discriminate.
  - intros response etag Hb Hsearch. unfold BrowserJob_retrieve. rewrite Hb. simpl.
    unfold BrowserJob_name_from_title. rewrite Hname. simpl.
    destruct (findall_title_head _ _ _ Hsearch) as [more ->].
    exists group1. split; [apply getattr_setattr_eq | reflexivity].
Qed.

Lemma retrieve_name_from_title_witness :
  let text := "<html><head><title lang='en'>An example page with a title of far more than sixty characters</title></head></html>" in
  let W := sample_world (Return (sample_response [] text)) (Raise OSError)
             (Raise OtherError) in
  let self := {| cls := UrlJob; attrs := [("url", VStr "https://example.org/")] |} in
  let job_state := {| old_etag := VNone; old_timestamp := None; tries := 0 |} in
  truthy (getattr self "name") = false
  /\ getattr (self_after (UrlJob_retrieve W self job_state)) "name"
     = VStr "An example page with a title of far more than sixty characte".
Proof.
  intros text W self job_state. split; [reflexivity|].
  refine (proj1 (proj1 (retrieve_name_from_title W self job_state
                   "An example page with a title of far more than sixty characters"
                   "</head></html>" eq_refl) _ text (VStr "33a64df5") _ _ _)).
  - left. reflexivity.
  - reflexivity.
  - reflexivity.
Defined.

(** C2 as stated fails for a retrieval that does not go over HTTP: the job
    below has no name and the file it retrieves has a title element, and the
    job is left without a name. *)
Lemma retrieve_name_from_title_counterexample :
  let text := "<html><head><title>News</title></head></html>" in
  let W := sample_world (Raise ConnectionError) (Return text) (Raise OtherError) in
  let self := {| cls := UrlJob; attrs := [("url", VStr "file:///index.html")] |} in
  let job_state := {| old_etag := VNone; old_timestamp := None; tries := 0 |} in
  getattr self "name" = VNone
  /\ outcome (UrlJob_retrieve W self job_state) = Return (Text text, VStr "")
  /\ search_title text = Some ("News", "</head></html>")
  /\ getattr (self_after (UrlJob_retrieve W self job_state)) "name" = VNone.
Proof. intros text W self job_state. repeat split. Qed.

(** The name that [BrowserJob] takes is the whole text of the title, also
    beyond 60 characters. *)
Example BrowserJob_retrieve_long_title :
  let title := "An example page with a title of far more than sixty characters" in
  let page := "<html><head><title>" ++ title ++ "</title></head></html>" in
  let W := sample_world (Raise ConnectionError) (Raise OSError)
             (Return (page, VStr "")) in
  let self :=
    {| cls := BrowserJob;
       attrs := [("url", VStr "https://example.org/"); ("use_browser", VBool true)] |} in
  let job_state := {| old_etag := VNone; old_timestamp := None; tries := 0 |} in
  getattr (self_after (BrowserJob_retrieve W self job_state)) "name" = VStr title
  /\ String.length title = 62%nat.
Proof. intros title page W self job_state. split; reflexivity. Qed.

(** * Further properties *)

(** ** Detection of the job subclass *)

(** The subclass detected for a declaration that has been rewritten, by the
    three directives that matter. *)
Lemma job_subclass_cases (data : dict) :
  job_subclass JobBase_subclasses data =
    if truthy (get_or_None "url" data) then
      if truthy (get_or_None "use_browser" data) then Return BrowserJob
      else Return UrlJob
    else if truthy (get_or_None "command" data) then Return ShellJob
    else if (List.length data =? 1)%nat then Raise (ValueError (NoValueOrNoMatch data))
    else Raise (ValueError (NoMatch data)).
Proof.
  unfold job_subclass, matched_subclasses, all_required, number_matched, count_not_None.
  simpl.
  destruct (truthy (get_or_None "url" data)) eqn:U;
    destruct (truthy (get_or_None "use_browser" data)) eqn:B;
    destruct (truthy (get_or_None "command" data)) eqn:C; simpl;
    try reflexivity;
    try apply truthy_is_not_None in U;
    try apply truthy_is_not_None in B;
    try apply truthy_is_not_None in C;
    rewrite ?U, ?B, ?C; reflexivity.
Qed.

Lemma get_drop_kind k data :
  k <> "kind" -> get_or_None k (drop_kind data) = get_or_None k data.
Proof.
  intros Hk. unfold drop_kind, get_or_None, get_or.
  destruct (contains "kind" data); [|reflexivity].
  rewrite lookup_pop_neq; [reflexivity | congruence].
Qed.

Lemma get_rewrite_navigate k data :
  let rewritten := truthy (get_or_None "navigate" data)
                   && negb (truthy (get_or_None "use_browser" data)) in
  get_or_None k (rewrite_navigate data)
  = if rewritten && String.eqb k "use_browser" then VBool true
    else if rewritten && String.eqb k "url" && negb (contains "url" data)
    then get_or_None "navigate" data
    else get_or_None k data.
Proof.
  intros rewritten. unfold rewrite_navigate. fold rewritten.
  destruct rewritten; [|reflexivity]. cbn [andb].
  unfold get_or_None at 1. unfold get_or at 1.
  destruct (String.eqb_spec k "use_browser") as [->|Hub].
  - now rewrite lookup_setitem_eq.
  - rewrite lookup_setitem_neq by congruence.
    destruct (String.eqb_spec k "url") as [->|Hurl].
    + rewrite lookup_setitem_eq. unfold contains, get_or_None, get_or.
      now destruct (lookup "url" data).
    + now rewrite lookup_setitem_neq by congruence.
Qed.

(** The class of the job that [unserialize] makes of a declaration, by the
    directives [url], [use_browser] and [command] and the deprecated
    [navigate]. A truthy [navigate] without a truthy [use_browser] stands for
    [use_browser: true] and, in a declaration without [url], for the URL. A
    job that is returned is a [BrowserJob] where the URL is truthy and the
    browser is asked for, a [UrlJob] where the URL is truthy and it is not,
    and a [ShellJob] otherwise, [command] being truthy then. With a truthy
    URL or [command], [unserialize] raises for an unrecognized directive
    only; with neither, it raises for want of a job type, with one message
    where the declaration as rewritten for the deprecated directives holds a
    single directive and another otherwise. *)
Theorem unserialize_subclass_table (d : dict) :
  dict_wf d ->
  let navigate := truthy (get_or_None "navigate" d) in
  let use_browser := truthy (get_or_None "use_browser" d) in
  let url := truthy (get_or_None "url" d)
             || navigate && negb use_browser && negb (contains "url" d) in
  let command := truthy (get_or_None "command" d) in
  let data := compat d in
  (forall j, unserialize JobBase_subclasses d = Return j ->
   url || command = true
   /\ cls j = if url then if use_browser || navigate then BrowserJob else UrlJob
              else ShellJob)
  /\ (url || command = true ->
      forall e, unserialize JobBase_subclasses d = Raise e ->
      exists k data', e = ValueError (Unrecognized k data'))
  /\ (url || command = false ->
      unserialize JobBase_subclasses d
      = Raise (ValueError (if (List.length data =? 1)%nat then NoValueOrNoMatch data
                           else NoMatch data))).
Proof.
  intros Hwf navigate use_browser url command data.
  assert (Hsel : job_subclass JobBase_subclasses data
                 = if url || command then
                     Return (if url then
                               if use_browser || navigate then BrowserJob else UrlJob
                             else ShellJob)
                   else Raise (ValueError (if (List.length data =? 1)%nat
                                           then NoValueOrNoMatch data
                                           else NoMatch data))).
  { rewrite job_subclass_cases. unfold data, compat.
    rewrite !get_drop_kind by discriminate.
    rewrite !get_rewrite_navigate. cbn [String.eqb Ascii.eqb Bool.eqb andb].
    unfold url, command, use_browser, navigate.
    generalize (List.length (drop_kind (rewrite_navigate d)) =? 1)%nat.
    generalize (drop_kind (rewrite_navigate d)). intros data' single.
    destruct (truthy (get_or_None "navigate" d)) eqn:N,
             (truthy (get_or_None "use_browser" d)) eqn:B,
             (truthy (get_or_None "command" d)) eqn:C,
             (truthy (get_or_None "url" d)) eqn:U,
             (contains "url" d);
      cbn [andb negb orb]; rewrite ?N, ?B, ?C, ?U; cbn [truthy andb negb orb];
      try reflexivity; now destruct single. }
  destruct (url || command) eqn:E.
  - set (c := if url then if use_browser || navigate then BrowserJob else UrlJob
              else ShellJob) in *.
    assert (Hall : all_required data c = true).
    { apply (matched_all_required JobBase_subclasses).
      apply job_subclass_matched; [apply JobBase_subclasses_NoDup | exact Hsel]. }
    destruct (unserialize_selected JobBase_subclasses d c Hwf Hsel Hall) as [_ ->].
    destruct (find _ _) as [k|].
    + split; [|split]; [discriminate | intros _ e [= <-]; eauto | discriminate].
    + split; [|split]; [intros j [= <-]; now split | discriminate | discriminate].
  - unfold unserialize. fold data. rewrite Hsel. cbn [bind].
    split; [|split]; [discriminate | discriminate | reflexivity].
Qed.

Lemma unserialize_subclass_table_witness :
  let d := [("navigate", VStr "https://example.org/")] in
  let j := {| cls := BrowserJob;
              attrs := [("navigate", VStr "https://example.org/");
                        ("url", VStr "https://example.org/");
                        ("use_browser", VBool true)] |} in
  unserialize JobBase_subclasses d = Return j
  /\ cls j = BrowserJob.
Proof.
  intros d j.
  assert (Hwf : dict_wf d) by (repeat constructor; simpl; tauto).
  split; [reflexivity|].
  exact (proj2 (proj1 (unserialize_subclass_table d Hwf) j eq_refl)).
Defined.

Lemma lookup_pop_Some {V} k k' (v : V) d :
  dict_wf d -> lookup k' (pop k d) = Some v -> lookup k' d = Some v.
Proof.
  intros Hwf H. destruct (string_dec k k') as [<-|Hne].
  - rewrite lookup_pop_eq in H by assumption. discriminate.
  - now rewrite lookup_pop_neq in H.
Qed.

Lemma strip_keys_lookup_Some (required ks : list string) (d : dict) k v :
  dict_wf d ->
  lookup k (fold_left (fun data k => if mem k required then data else pop k data) ks d)
  = Some v ->
  lookup k d = Some v.
Proof.
  revert d. induction ks as [|k0 ks IH]; simpl; intros d Hwf H; [assumption|].
  apply IH in H.
  - destruct (mem k0 required); [assumption | now apply lookup_pop_Some in H].
  - destruct (mem k0 required); [assumption | now apply dict_wf_pop].
Qed.

(** Stripping only removes items. *)
Lemma remove_extra_required_lookup_Some subclasses c d k v :
  dict_wf d ->
  lookup k (remove_extra_required subclasses c d) = Some v -> lookup k d = Some v.
Proof.
  unfold remove_extra_required.
  generalize (remove_first job_class_eqb c (tl subclasses)). intros others.
  revert d. induction others as [|o others IH]; simpl; intros d Hwf H; [assumption|].
  apply IH in H; [|now apply strip_keys_wf].
  now apply strip_keys_lookup_Some in H.
Qed.

Lemma In_keys_lookup {V} k (d : list (string * V)) :
  In k (keys d) -> exists v, lookup k d = Some v.
Proof.
  intros H. destruct (lookup k d) as [v|] eqn:E; [eauto|].
  apply lookup_None in E. contradiction.
Qed.

Lemma unserialize_result (d : dict) (j : job) :
  dict_wf d ->
  unserialize JobBase_subclasses d = Return j ->
  In (cls j) [UrlJob; BrowserJob; ShellJob]
  /\ (forall k, In k (__required__ (cls j)) -> truthy (getattr j k) = true)
  /\ (forall k v, lookup k (attrs j) = Some v ->
      In k (__required__ (cls j) ++ __optional__ (cls j))
      /\ lookup k (compat d) = Some v)
  /\ dict_wf (attrs j).
Proof.
  intros Hwf H.
  destruct (job_subclass JobBase_subclasses (compat d)) as [c|e] eqn:Hsel;
    [|unfold unserialize in H; rewrite Hsel in H; discriminate].
  pose proof (job_subclass_matched _ _ _ JobBase_subclasses_NoDup Hsel) as Hin.
  pose proof (matched_all_required _ _ _ Hin) as Hall.
  destruct (unserialize_selected _ d c Hwf Hsel Hall) as [Hwf' Hu].
  rewrite Hu in H. clear Hu.
  set (data := remove_extra_required JobBase_subclasses c (compat d)) in *.
  destruct (find _ (keys data)) as [k0|] eqn:Ef; [discriminate|].
  injection H as <-. simpl. split; [|split; [|split]].
  - unfold matched_subclasses in Hin. apply filter_In in Hin. exact (proj1 Hin).
  - intros k Hk. unfold getattr. simpl. unfold data.
    rewrite remove_extra_required_lookup by now apply mem_In.
    unfold all_required in Hall. rewrite forallb_forall in Hall.
    specialize (Hall k Hk). unfold get_or_None, get_or in Hall.
    destruct (lookup k (compat d)); [assumption | discriminate].
  - intros k v Hk. split.
    + pose proof (find_none _ _ Ef k) as Hn. simpl in Hn.
      assert (Hkeys : In k (keys data)).
      { destruct (lookup k data) eqn:E; [|discriminate].
        apply lookup_Some_In in E. now apply (in_map fst) in E. }
      specialize (Hn Hkeys). apply negb_false_iff in Hn. now apply mem_In in Hn.
    + apply (remove_extra_required_lookup_Some JobBase_subclasses c);
        [now apply dict_wf_compat | exact Hk].
  - exact Hwf'.
Qed.

(** What [unserialize] returns is a job of one of the three variants, never
    of the abstract [Job]; its required directives are truthy; each of its
    attributes is a directive that its class declares, with the value that
    the declaration (as rewritten for the deprecated directives) gives it. *)
Theorem unserialize_returns (d : dict) (j : job) :
  dict_wf d ->
  unserialize JobBase_subclasses d = Return j ->
  In (cls j) [UrlJob; BrowserJob; ShellJob]
  /\ (forall k, In k (__required__ (cls j)) -> truthy (getattr j k) = true)
  /\ (forall k v, lookup k (attrs j) = Some v ->
      In k (__required__ (cls j) ++ __optional__ (cls j))
      /\ lookup k (compat d) = Some v)
  /\ dict_wf (attrs j).
Proof. exact (unserialize_result d j). Qed.

Lemma unserialize_returns_witness :
  let d := [("url", VStr "https://example.org/"); ("command", VStr "ls");
            ("name", VStr "Example")] in
  let j := {| cls := UrlJob;
              attrs := [("url", VStr "https://example.org/"); ("name", VStr "Example")] |} in
  dict_wf d
  /\ unserialize JobBase_subclasses d = Return j
  /\ In (cls j) [UrlJob; BrowserJob; ShellJob].
Proof.
  intros d j.
  assert (Hwf : dict_wf d) by (repeat constructor; simpl; intuition discriminate).
  split; [exact Hwf|]. split; [reflexivity|].
  exact (proj1 (unserialize_returns d j Hwf eq_refl)).
Defined.

(** ** Serialization and the copy of [with_defaults] *)

Lemma to_dict_fold_lookup (self : job) ks acc k :
  lookup k (fold_left
              (fun d k => if is_not_None (getattr self k)
                          then setitem k (getattr self k) d else d) ks acc)
  = if mem k ks && is_not_None (getattr self k) then Some (getattr self k)
    else lookup k acc.
Proof.
  revert acc. induction ks as [|k0 ks IH]; intros acc; [reflexivity|].
  cbn [fold_left]. rewrite IH. simpl.
  destruct (String.eqb_spec k k0) as [->|Hne]; simpl.
  - destruct (is_not_None (getattr self k0)) eqn:E.
    + rewrite andb_true_r, lookup_setitem_eq. now destruct (mem k0 ks).
    + now rewrite andb_false_r.
  - destruct (mem k ks && is_not_None (getattr self k)); [reflexivity|].
    destruct (is_not_None (getattr self k0)); [|reflexivity].
    apply lookup_setitem_neq. congruence.
Qed.

(** [to_dict] holds exactly the declared directives that are not [None]. *)
Lemma to_dict_lookup self k :
  lookup k (to_dict self)
  = if mem k (__required__ (cls self) ++ __optional__ (cls self))
       && is_not_None (getattr self k)
    then Some (getattr self k) else None.
Proof. unfold to_dict. now rewrite to_dict_fold_lookup. Qed.

Lemma to_dict_wf self : dict_wf (to_dict self).
Proof.
  unfold to_dict. generalize (@dict_wf_nil value).
  generalize (@nil (string * value)).
  induction (__required__ (cls self) ++ __optional__ (cls self))%list as [|k ks IH];
    simpl; intros acc Hwf; [assumption|].
  apply IH. destruct (is_not_None _); [now apply dict_wf_setitem | assumption].
Qed.

Lemma update_fresh (other acc : dict) :
  dict_wf (acc ++ other)%list -> update other acc = (acc ++ other)%list.
Proof.
  unfold update. revert acc. induction other as [|[k v] other IH]; simpl; intros acc H.
  - now rewrite app_nil_r.
  - assert (Hk : ~ In k (keys acc)).
    { unfold dict_wf, keys in H. rewrite map_app in H. simpl in H.
      apply NoDup_remove_2 in H. rewrite in_app_iff in H. tauto. }
    rewrite setitem_fresh by assumption.
    replace (acc ++ (k, v) :: other)%list with ((acc ++ [(k, v)]) ++ other)%list
      by now rewrite <- app_assoc.
    apply IH. now rewrite <- app_assoc.
Qed.

Lemma kind_not_declared c : mem "kind" (__required__ c ++ __optional__ c) = false.
Proof. now destruct c. Qed.

(** [serialize] puts the kind before the directives. *)
Lemma serialize_cons self :
  serialize self = ("kind", VStr (__kind__ (cls self))) :: to_dict self.
Proof.
  unfold serialize. rewrite update_fresh; [reflexivity|].
  unfold dict_wf. simpl. constructor; [|apply to_dict_wf].
  apply lookup_None. now rewrite to_dict_lookup, kind_not_declared.
Qed.

Lemma pop_absent {V} k (d : list (string * V)) : lookup k d = None -> pop k d = d.
Proof.
  induction d as [|[k0 v0] d IH]; simpl; [reflexivity|].
  destruct (String.eqb k k0); [discriminate|]. intros H. now rewrite IH.
Qed.

Lemma get_to_dict self k :
  get_or_None k (to_dict self)
  = if mem k (__required__ (cls self) ++ __optional__ (cls self))
    then getattr self k else VNone.
Proof.
  unfold get_or_None, get_or. rewrite to_dict_lookup.
  destruct (mem k _); [|reflexivity]. simpl.
  now destruct (getattr self k).
Qed.

(** The copy of a job through [serialize] and [unserialize]. *)
Lemma serialize_copy (self : job) :
  In (cls self) [UrlJob; BrowserJob; ShellJob] ->
  (forall k, In k (__required__ (cls self)) -> truthy (getattr self k) = true) ->
  unserialize JobBase_subclasses (serialize self)
  = Return {| cls := cls self; attrs := to_dict self |}.
Proof.
  intros Hcls Hreq.
  assert (Hc : compat (serialize self) = to_dict self).
  { rewrite serialize_cons. unfold compat, rewrite_navigate.
    assert (Hnav : truthy (get_or_None "navigate"
                             (("kind", VStr (__kind__ (cls self))) :: to_dict self))
                   && negb (truthy (get_or_None "use_browser"
                             (("kind", VStr (__kind__ (cls self))) :: to_dict self)))
                   = false).
    { unfold get_or_None, get_or. simpl.
      fold (get_or "navigate" VNone (to_dict self)).
      fold (get_or "use_browser" VNone (to_dict self)).
      fold (get_or_None "navigate" (to_dict self)).
      fold (get_or_None "use_browser" (to_dict self)).
      rewrite !get_to_dict.
      simpl in Hcls. destruct Hcls as [E|[E|[E|[]]]]; rewrite <- E in *; simpl;
        try reflexivity.
      rewrite (Hreq "use_browser") by (simpl; auto). apply andb_false_r. }
    rewrite Hnav. reflexivity. }
  assert (Hsel : job_subclass JobBase_subclasses (to_dict self) = Return (cls self)).
  { rewrite job_subclass_cases, !get_to_dict.
    simpl in Hcls. destruct Hcls as [E|[E|[E|[]]]]; rewrite <- E in *; simpl.
    - now rewrite (Hreq "url") by (simpl; auto).
    - now rewrite (Hreq "url"), (Hreq "use_browser") by (simpl; auto).
    - now rewrite (Hreq "command") by (simpl; auto). }
  assert (Hstrip : remove_extra_required JobBase_subclasses (cls self) (to_dict self)
                   = to_dict self).
  { assert (P : forall k,
              mem k (__required__ (cls self) ++ __optional__ (cls self)) = false ->
              pop k (to_dict self) = to_dict self).
    { intros k Hk. apply pop_absent. now rewrite to_dict_lookup, Hk. }
    unfold remove_extra_required.
    simpl in Hcls. destruct Hcls as [E|[E|[E|[]]]]; rewrite <- E in *; simpl;
      now rewrite !P by reflexivity. }
  unfold unserialize. rewrite Hc, Hsel. simpl. rewrite Hstrip.
  rewrite from_dict_spec.
  + destruct (find _ (keys (to_dict self))) as [k|] eqn:Ef; [|reflexivity].
    apply find_some in Ef. destruct Ef as [Hin Hk]. exfalso.
    apply In_keys_lookup in Hin. destruct Hin as [v Hv].
    rewrite to_dict_lookup in Hv. apply negb_true_iff in Hk. simpl in Hk.
    rewrite Hk in Hv. discriminate.
  + apply to_dict_wf.
  + intros k Hk. unfold contains. rewrite to_dict_lookup.
    assert (Hm : mem k (__required__ (cls self) ++ __optional__ (cls self)) = true)
      by (apply mem_In, in_or_app; now left).
    simpl. rewrite Hm, (truthy_is_not_None _ (Hreq k Hk)). reflexivity.
Qed.

(** The copy that [with_defaults] works on: a job of one of the three
    variants with truthy required directives goes unchanged through
    [serialize] and [unserialize], but that the copy holds the directives of
    [to_dict] only; a declared directive that is not [None] reads the same on
    the copy. *)
Theorem unserialize_serialize (self : job) :
  In (cls self) [UrlJob; BrowserJob; ShellJob] ->
  (forall k, In k (__required__ (cls self)) -> truthy (getattr self k) = true) ->
  unserialize JobBase_subclasses (serialize self)
  = Return {| cls := cls self; attrs := to_dict self |}
  /\ (forall k, In k (__required__ (cls self) ++ __optional__ (cls self)) ->
      getattr self k <> VNone ->
      getattr {| cls := cls self; attrs := to_dict self |} k = getattr self k).
Proof.
  intros Hcls Hreq. split.
  - now apply serialize_copy.
  - intros k Hk Hn. unfold getattr at 1. simpl. rewrite to_dict_lookup.
    apply mem_In in Hk. rewrite Hk.
    destruct (getattr self k) eqn:E; try reflexivity. congruence.
Qed.

Lemma unserialize_serialize_witness :
  let self :=
    {| cls := BrowserJob;
       attrs := [("name", VStr "Example"); ("url", VStr "https://example.org/");
                 ("use_browser", VBool true); ("note", VNone)] |} in
  In (cls self) [UrlJob; BrowserJob; ShellJob]
  /\ to_dict self
     = [("url", VStr "https://example.org/"); ("use_browser", VBool true);
        ("block_elements", VList []); ("chromium_revision", VInt 0);
        ("user_visible_url", VStr ""); ("index_number", VInt 0);
        ("name", VStr "Example"); ("diff_filter", VList []); ("filter", VList [])]
  /\ unserialize JobBase_subclasses (serialize self)
     = Return {| cls := cls self; attrs := to_dict self |}.
Proof.
  intros self.
  assert (Hcls : In (cls self) [UrlJob; BrowserJob; ShellJob]) by (simpl; auto).
  split; [exact Hcls|]. split; [reflexivity|].
  refine (proj1 (unserialize_serialize self Hcls _)).
  intros k [<-|[<-|[]]]; reflexivity.
Defined.

(** ** Defaults from the configuration *)

Lemma cls_set_default self key v : cls (set_default self key v) = cls self.
Proof.
  unfold set_default. destruct (mem key _); [|reflexivity].
  destruct (negb _); [reflexivity|].
  destruct v; try reflexivity. now destruct (getattr self key).
Qed.

Lemma getattr_set_default_neq self key v k :
  key <> k -> getattr (set_default self key v) k = getattr self k.
Proof.
  intros H. unfold set_default. destruct (mem key _); [|reflexivity].
  destruct (negb _); [now apply getattr_setattr_neq|].
  destruct v; try reflexivity.
  destruct (getattr self key); try reflexivity; now apply getattr_setattr_neq.
Qed.

Lemma getattr_set_default_eq self key v :
  getattr (set_default self key v) key = defaulted (cls self) key (getattr self key) v.
Proof.
  unfold set_default, defaulted. destruct (mem key _); [|reflexivity].
  destruct (negb _); [now apply getattr_setattr_eq|].
  destruct v; try reflexivity.
  destruct (getattr self key) eqn:E; simpl; rewrite ?E; try reflexivity;
    now rewrite getattr_setattr_eq.
Qed.

(** The loop over the defaults decides each directive by the default of its
    own key alone. *)
Lemma set_defaults_fold (defaults : dict) self k :
  dict_wf defaults ->
  let self' := fold_left (fun self kv => set_default self (fst kv) (snd kv)) defaults self in
  cls self' = cls self
  /\ getattr self' k = match lookup k defaults with
                       | Some v => defaulted (cls self) k (getattr self k) v
                       | None => getattr self k
                       end.
Proof.
  revert self. induction defaults as [|[k0 v0] defaults IH]; intros self Hwf; simpl.
  - now split.
  - inversion Hwf as [|? ? Hnot Hwf']; subst.
    destruct (IH (set_default self k0 v0) Hwf') as [Hc Hg]. simpl in *.
    rewrite Hc, Hg, cls_set_default. split; [reflexivity|].
    destruct (String.eqb_spec k k0) as [->|Hne].
    + assert (E : lookup k0 defaults = None) by now apply lookup_None.
      rewrite E. apply getattr_set_default_eq.
    + rewrite getattr_set_default_neq by congruence. reflexivity.
Qed.

(** [_set_defaults] fills in what is [None], and nothing else of what is not
    a mapping: a directive other than [headers] that the class does not list
    as optional, or that has a value which is neither [None] nor a mapping,
    or for which there is no default, is left as it is; an optional directive
    that is [None] takes its default. *)
Theorem _set_defaults_fills_None (self self' : job) (defaults : dict) (k : string) :
  dict_wf defaults ->
  _set_defaults self (VDict defaults) = Return self' ->
  k <> "headers" ->
  cls self' = cls self
  /\ (mem k (__optional__ (cls self)) = false -> getattr self' k = getattr self k)
  /\ (getattr self k <> VNone -> is_mapping (getattr self k) = false ->
      getattr self' k = getattr self k)
  /\ (lookup k defaults = None -> getattr self' k = getattr self k)
  /\ (forall v, mem k (__optional__ (cls self)) = true -> getattr self k = VNone ->
      lookup k defaults = Some v -> getattr self' k = v).
Proof.
  intros Hwf H Hk. unfold _set_defaults in H.
  destruct (CaseInsensitiveDict (getattr self "headers")) as [headers|e]; [|discriminate].
  simpl in H. injection H as <-.
  set (self0 := setattr self "headers" (VCIDict headers)).
  destruct (set_defaults_fold defaults self0 k Hwf) as [Hc Hg].
  assert (H0 : getattr self0 k = getattr self k)
    by (apply getattr_setattr_neq; congruence).
  rewrite Hc, Hg, H0. change (cls self0) with (cls self).
  split; [reflexivity|]. unfold defaulted. repeat split.
  - intros Hm. rewrite Hm. now destruct (lookup k defaults).
  - intros Hn Hmap. destruct (lookup k defaults) as [v|]; [|reflexivity].
    destruct (mem k _); [|reflexivity]. rewrite Hmap.
    destruct (getattr self k); try congruence; simpl; now destruct v.
  - now intros ->.
  - intros v Hm Hn Hv. now rewrite Hv, Hm, Hn.
Qed.

Lemma _set_defaults_fills_None_witness :
  let self :=
    {| cls := UrlJob;
       attrs := [("url", VStr "https://example.org/"); ("timeout", VInt 5)] |} in
  let defaults := [("timeout", VInt 30); ("method", VStr "HEAD"); ("url", VStr "")] in
  exists self',
    _set_defaults self (VDict defaults) = Return self'
    /\ getattr self' "timeout" = VInt 5
    /\ getattr self' "method" = VStr "HEAD"
    /\ getattr self' "url" = VStr "https://example.org/".
Proof.
  intros self defaults. eexists. split; [reflexivity|].
  assert (Hwf : dict_wf defaults) by (repeat constructor; simpl; intuition discriminate).
  split; [|split].
  - refine (proj1 (proj2 (proj2 (_set_defaults_fills_None self _ defaults "timeout"
                                   Hwf eq_refl _))) _ _); [discriminate..|reflexivity].
  - refine (proj2 (proj2 (proj2 (proj2 (_set_defaults_fills_None self _ defaults "method"
                                          Hwf eq_refl _)))) _ _ _ _);
      [discriminate | reflexivity..].
  - refine (proj1 (proj2 (_set_defaults_fills_None self _ defaults "url"
                            Hwf eq_refl _)) _); [discriminate | reflexivity].
Defined.

Lemma ci_lookup_setitem_same {V} k h (v : V) d :
  lower k = lower h -> ci_lookup h (ci_setitem k v d) = Some v.
Proof.
  intros E. unfold ci_lookup, ci_setitem. now rewrite <- E, lookup_setitem_eq.
Qed.

Lemma merge_headers_lookup (sub : dict) (d : ci_store value) h :
  ci_lookup h (fold_left (fun d kv => if ci_contains (fst kv) d then d
                                      else ci_setitem (fst kv) (snd kv) d) sub d)
  = match ci_lookup h d with
    | Some x => Some x
    | None => option_map snd
                (find (fun kv => String.eqb (lower (fst kv)) (lower h)) sub)
    end.
Proof.
  revert d. induction sub as [|[k v] sub IH]; intros d; simpl.
  - now destruct (ci_lookup h d).
  - rewrite IH. destruct (String.eqb_spec (lower k) (lower h)) as [E|Hne].
    + unfold ci_contains, contains.
      destruct (lookup (lower k) d) as [x|] eqn:El.
      * unfold ci_lookup. rewrite <- E, El. reflexivity.
      * rewrite (ci_lookup_setitem_same k h v d E).
        unfold ci_lookup. rewrite <- E, El. reflexivity.
    + destruct (ci_contains k d); [reflexivity|].
      now rewrite ci_lookup_setitem_neq.
Qed.

(** Default headers are merged header by header, whatever the case of the
    names: a header of the job keeps its value, and a header that the job
    lacks takes the value of the first default header of that name. *)
Theorem _set_defaults_headers (self self' : job) (defaults sub : dict)
  (own : ci_store value) (h : string) :
  dict_wf defaults ->
  mem "headers" (__optional__ (cls self)) = true ->
  CaseInsensitiveDict (getattr self "headers") = Return own ->
  lookup "headers" defaults = Some (VDict sub) ->
  _set_defaults self (VDict defaults) = Return self' ->
  ci_lookup h (self_headers self')
  = match ci_lookup h own with
    | Some x => Some x
    | None => option_map snd
                (find (fun kv => String.eqb (lower (fst kv)) (lower h)) sub)
    end.
Proof.
  intros Hwf Hm Hown Hsub H. unfold _set_defaults in H. rewrite Hown in H.
  simpl in H. injection H as <-.
  set (self0 := setattr self "headers" (VCIDict own)).
  destruct (set_defaults_fold defaults self0 "headers" Hwf) as [_ Hg].
  unfold self_headers. rewrite Hg, Hsub.
  change (cls self0) with (cls self). unfold defaulted. rewrite Hm.
  unfold self0. rewrite getattr_setattr_eq. simpl.
  apply merge_headers_lookup.
Qed.

Lemma _set_defaults_headers_witness :
  let self :=
    {| cls := UrlJob;
       attrs := [("url", VStr "https://example.org/");
                 ("headers", VDict [("accept", VStr "text/html")])] |} in
  let sub := [("Accept", VStr "*/*"); ("Accept-Language", VStr "en")] in
  let defaults := [("headers", VDict sub)] in
  exists self',
    _set_defaults self (VDict defaults) = Return self'
    /\ ci_lookup "Accept" (self_headers self') = Some (VStr "text/html")
    /\ ci_lookup "accept-language" (self_headers self') = Some (VStr "en").
Proof.
  intros self sub defaults. eexists. split; [reflexivity|].
  assert (Hwf : dict_wf defaults) by (repeat constructor; simpl; tauto).
  split.
  - exact (_set_defaults_headers self _ defaults sub _ "Accept" Hwf eq_refl eq_refl
             eq_refl eq_refl).
  - exact (_set_defaults_headers self _ defaults sub _ "accept-language" Hwf eq_refl
             eq_refl eq_refl eq_refl).
Defined.

Lemma _set_defaults_getattr (self self' : job) (defaults : value) (k : string) :
  dict_wf (defaults_items defaults) ->
  _set_defaults self defaults = Return self' ->
  k <> "headers" ->
  cls self' = cls self
  /\ getattr self' k = match lookup k (defaults_items defaults) with
                       | Some v => defaulted (cls self) k (getattr self k) v
                       | None => getattr self k
                       end.
Proof.
  intros Hwf H Hk. unfold _set_defaults in H.
  destruct (CaseInsensitiveDict (getattr self "headers")) as [headers|e]; [|discriminate].
  cbn [bind] in H.
  set (self0 := setattr self "headers" (VCIDict headers)) in *.
  assert (H0 : getattr self0 k = getattr self k)
    by (apply getattr_setattr_neq; congruence).
  assert (Hfold : forall d, defaults_items defaults = d ->
            Return (fold_left (fun self kv => set_default self (fst kv) (snd kv)) d self0)
            = Return self').
  { intros d Hd. destruct defaults; cbn [defaults_items] in Hd; subst d;
      cbn [fold_left]; exact H. }
  specialize (Hfold _ eq_refl). injection Hfold as <-.
  destruct (set_defaults_fold (defaults_items defaults) self0 k Hwf) as [Hc Hg].
  rewrite Hc, Hg, H0. now split.
Qed.

Lemma defaulted_keep c k current default :
  current <> VNone -> is_mapping current = false ->
  defaulted c k current default = current.
Proof.
  intros Hn Hmap. unfold defaulted. destruct (mem k (__optional__ c)); [|reflexivity].
  rewrite Hmap. destruct current; try congruence; now destruct default.
Qed.

Lemma defaulted_None c k default :
  mem k (__optional__ c) = true -> defaulted c k VNone default = default.
Proof. intros Hopt. unfold defaulted. now rewrite Hopt. Qed.

(** [with_defaults]: the copy of the job takes the defaults of its kind
    first and the defaults for all jobs after, where the configuration has
    such sections. For an optional directive other than [headers], what
    counts is the value that the copy reads: the value of the job where that
    is not [None], and the class-level default otherwise. A value that is
    neither [None] nor a mapping stays, whatever the defaults are; so a
    directive whose class-level default is not [None], such as the empty
    [filter], never takes a default, not even where the job sets it to
    [None]. Where the copy reads [None], the directive takes the default of
    the kind, and the default for all jobs where the kind has none. *)
Theorem with_defaults_layers (self new_job : job) (config : dict) (k : string) :
  let kind_defaults := job_defaults config (__kind__ (cls self)) in
  let all_defaults := job_defaults config "all" in
  let copied := if is_not_None (getattr self k) then getattr self k
                else match class_attr (cls self) k with Some v => v | None => VNone end in
  In (cls self) [UrlJob; BrowserJob; ShellJob] ->
  (forall r, In r (__required__ (cls self)) -> truthy (getattr self r) = true) ->
  dict_wf kind_defaults -> dict_wf all_defaults ->
  with_defaults JobBase_subclasses self config = Return new_job ->
  mem k (__optional__ (cls self)) = true -> k <> "headers" ->
  cls new_job = cls self
  /\ (copied <> VNone -> is_mapping copied = false -> getattr new_job k = copied)
  /\ (copied = VNone ->
      let from_kind := get_or_None k kind_defaults in
      (from_kind <> VNone -> is_mapping from_kind = false ->
       getattr new_job k = from_kind)
      /\ (from_kind = VNone -> getattr new_job k = get_or_None k all_defaults)).
Proof.
  intros kind_defaults all_defaults copied Hcls Hreq Hwfk Hwfa H Hopt Hk.
  set (copy := {| cls := cls self; attrs := to_dict self |}).
  assert (Hcopyk : getattr copy k = copied).
  { unfold getattr at 1, copy, copied. cbn [attrs cls]. rewrite to_dict_lookup.
    assert (Hm : mem k (__required__ (cls self) ++ __optional__ (cls self)) = true)
      by (apply mem_In, in_or_app; right; now apply mem_In).
    rewrite Hm. cbn [andb]. now destruct (is_not_None (getattr self k)). }
  assert (Hnew : cls new_job = cls self
                 /\ getattr new_job k
                    = let x := match lookup k kind_defaults with
                               | Some v => defaulted (cls self) k copied v
                               | None => copied
                               end in
                      match lookup k all_defaults with
                      | Some v => defaulted (cls self) k x v
                      | None => x
                      end).
  { unfold with_defaults in H. rewrite (serialize_copy self Hcls Hreq) in H.
    cbn [bind] in H. fold copy in H.
    unfold kind_defaults, all_defaults, job_defaults in *.
    destruct (get_or_None "job_defaults" config) as [| | | | | |cfg|];
      try (injection H as <-; cbn [lookup]; now split).
    destruct (_set_defaults copy (get_or_None (__kind__ (cls self)) cfg))
      as [s1|e] eqn:E1; [|discriminate].
    cbn [bind] in H.
    destruct (_set_defaults_getattr copy s1 _ k Hwfk E1 Hk) as [Hc1 Hg1].
    destruct (_set_defaults_getattr s1 new_job _ k Hwfa H Hk) as [Hc2 Hg2].
    change (cls copy) with (cls self) in *.
    rewrite Hc2, Hc1. split; [reflexivity|].
    rewrite Hg2, Hg1, Hc1, Hcopyk. reflexivity. }
  destruct Hnew as [Hc Hg]. clear Hcopyk. clearbody copied kind_defaults all_defaults.
  cbn zeta in Hg. split; [exact Hc|]. split.
  - intros Hn Hmap. rewrite Hg.
    assert (Hx : match lookup k kind_defaults with
                 | Some v => defaulted (cls self) k copied v
                 | None => copied
                 end = copied).
    { destruct (lookup k kind_defaults); [now apply defaulted_keep | reflexivity]. }
    rewrite Hx. destruct (lookup k all_defaults); [now apply defaulted_keep | reflexivity].
  - intros Hn from_kind. subst copied.
    assert (Hx : match lookup k kind_defaults with
                 | Some v => defaulted (cls self) k VNone v
                 | None => VNone
                 end = from_kind).
    { unfold from_kind, get_or_None, get_or.
      destruct (lookup k kind_defaults); [now apply defaulted_None | reflexivity]. }
    rewrite Hx in Hg. clearbody from_kind. split.
    + intros Hv Hmap. rewrite Hg.
      destruct (lookup k all_defaults); [now apply defaulted_keep | reflexivity].
    + intros ->. rewrite Hg. unfold get_or_None, get_or.
      destruct (lookup k all_defaults); [now apply defaulted_None | reflexivity].
Qed.

Lemma with_defaults_layers_witness :
  let self :=
    {| cls := UrlJob;
       attrs := [("url", VStr "https://example.org/"); ("filter", VNone)] |} in
  let all_defaults := [("timeout", VInt 30); ("filter", VList [VStr "html2text"])] in
  let config := [("job_defaults", VDict [("all", VDict all_defaults)])] in
  exists new_job,
    with_defaults JobBase_subclasses self config = Return new_job
    /\ getattr new_job "timeout" = VInt 30
    /\ getattr new_job "filter" = VList [].
Proof.
  intros self all_defaults config. eexists.
  split; [reflexivity|].
  assert (Hcls : In (cls self) [UrlJob; BrowserJob; ShellJob]) by (simpl; auto).
  assert (Hreq : forall r, In r (__required__ (cls self)) -> truthy (getattr self r) = true)
    by (intros r [<-|[]]; reflexivity).
  assert (Hwfk : dict_wf (job_defaults config (__kind__ (cls self)))) by constructor.
  assert (Hwfa : dict_wf (job_defaults config "all"))
    by (repeat constructor; simpl; intuition discriminate).
  split.
  - refine (proj2 (proj2 (proj2 (with_defaults_layers self _ config "timeout"
                                   Hcls Hreq Hwfk Hwfa eq_refl eq_refl _)) eq_refl) eq_refl).
    discriminate.
  - refine (proj1 (proj2 (with_defaults_layers self _ config "filter"
                            Hcls Hreq Hwfk Hwfa eq_refl eq_refl _)) _ _);
      [discriminate | discriminate | reflexivity].
Defined.

(** ** The request of [UrlJob.retrieve] *)

(** A run of [UrlJob.retrieve] that calls [requests.request]: the arguments
    of the call. *)
Lemma UrlJob_retrieve_request_args W self job_state r :
  In (requests_request r) (calls (UrlJob_retrieve W self job_state)) ->
  exists self1 proxies self2 url,
    prepare W self job_state = Return (self1, proxies)
    /\ getattr self1 "url" = VStr url
    /\ String.eqb (urlparse_scheme url) "file" = false
    /\ String.eqb (urlparse_scheme url) "ftp" = false
    /\ stringify_cookies W self1 = Return self2
    /\ r = {| Request.method := getattr self2 "method";
              Request.url := url;
              Request.data := getattr self2 "data";
              Request.headers := self_headers self2;
              Request.cookies := getattr self2 "cookies";
              Request.timeout := request_timeout self1;
              Request.allow_redirects := negb (truthy (getattr self2 "no_redirects"));
              Request.proxies := proxies;
              Request.verify := negb (truthy (getattr self2 "ssl_no_verify")) |}.
Proof.
  unfold UrlJob_retrieve.
  destruct (prepare W self job_state) as [[self1 proxies]|e] eqn:Ep; simpl; [|tauto].
  destruct (getattr self1 "url") as [| | | |url| | |] eqn:Eu; simpl; try tauto.
  destruct (String.eqb (urlparse_scheme url) "file") eqn:Efile; simpl;
    [intros [H|[]]; discriminate|].
  destruct (String.eqb (urlparse_scheme url) "ftp") eqn:Eftp; simpl;
    [intros [H|[]]; discriminate|].
  destruct (stringify_cookies W self1) as [self2|e] eqn:Ec; simpl; [|tauto].
  match goal with |- context [request W ?r0] => remember r0 as r' eqn:Er' end.
  intros Hin. exists self1, proxies, self2, url.
  assert (Hr : r = r').
  { destruct (request W r') as [response|e].
    - destruct (handle_response W self2 response). simpl in Hin.
      destruct Hin as [H|[]]. now injection H.
    - simpl in Hin. destruct Hin as [H|[]]. now injection H. }
  subst r. repeat split; assumption.
Qed.

Lemma cache_headers_frame W self job_state h :
  lower "If-None-Match" <> lower h ->
  lower "If-Modified-Since" <> lower h ->
  lower "Cache-Control" <> lower h ->
  lower "Expires" <> lower h ->
  ci_lookup h (self_headers (cache_headers W self job_state))
  = ci_lookup h (self_headers self).
Proof.
  intros H1 H2 H3 H4. unfold cache_headers.
  destruct (truthy (old_etag job_state));
    destruct (old_timestamp job_state) as [t|];
    repeat rewrite getattr_on_headers by discriminate;
    destruct (truthy (getattr self "ignore_cached") || (0 <? tries job_state));
    repeat first
      [ rewrite self_headers_on_headers
      | rewrite ci_lookup_setitem_neq by assumption
      | rewrite ci_lookup_pop_neq by assumption ];
    reflexivity.
Qed.

Lemma ci_contains_lookup {V} k h (d : ci_store V) :
  lower k = lower h ->
  ci_contains k d = match ci_lookup h d with Some _ => true | None => false end.
Proof.
  intros E. unfold ci_contains, contains, ci_lookup. rewrite E.
  now destruct (lookup (lower h) d).
Qed.

(** The headers that [prepare] leaves beside those of the cache: the headers
    of the job, a [User-Agent] where the job has none, and a [Content-Type]
    where the job has none and has data; and the method and the proxies. *)
Lemma prepare_parts W self job_state self1 proxies own :
  prepare W self job_state = Return (self1, proxies) ->
  CaseInsensitiveDict (getattr self "headers") = Return own ->
  (forall h,
      lower "If-None-Match" <> lower h -> lower "If-Modified-Since" <> lower h ->
      lower "Cache-Control" <> lower h -> lower "Expires" <> lower h ->
      ci_lookup h (self_headers self1)
      = match ci_lookup h own with
        | Some v => Some v
        | None =>
            if String.eqb (lower h) "user-agent" then Some (VStr (user_agent W))
            else if String.eqb (lower h) "content-type"
                    && is_not_None (getattr self "data")
            then Some (VStr "application/x-www-form-urlencoded")
            else None
        end)
  /\ getattr self1 "method"
     = (if is_not_None (getattr self "method") then getattr self "method"
        else VStr "GET")
  /\ proxies
     = [("http", if is_not_None (getattr self "http_proxy")
                 then getattr self "http_proxy" else getenv W "HTTP_PROXY");
        ("https", if is_not_None (getattr self "https_proxy")
                  then getattr self "https_proxy" else getenv W "HTTPS_PROXY")].
Proof.
  intros Hp Hown. pose proof (prepare_spec _ _ _ _ _ Hp) as ([_ Hsame] & _ & _).
  unfold prepare in Hp. rewrite Hown in Hp. simpl in Hp.
  set (self0 := setattr self "headers" (VCIDict own)) in *.
  set (selfA := if ci_contains "User-Agent" (self_headers self0) then self0 else _) in *.
  set (selfB := cache_headers W selfA job_state) in *.
  set (selfC := if is_not_None (getattr selfB "method") then selfB else _) in *.
  set (selfD := if is_not_None (getattr selfC "data") then _ else selfC) in *.
  injection Hp as <- <-.
  assert (H0 : self_headers self0 = own) by apply self_headers_setattr.
  assert (Hattr0 : forall k, k <> "headers" -> getattr self0 k = getattr self k)
    by (intros k Hk; apply getattr_setattr_neq; congruence).
  assert (HattrA : forall k, k <> "headers" -> getattr selfA k = getattr self k).
  { intros k Hk. unfold selfA. destruct (ci_contains _ _); [now apply Hattr0|].
    rewrite getattr_on_headers by assumption. now apply Hattr0. }
  assert (HattrB : forall k, k <> "headers" -> getattr selfB k = getattr self k).
  { intros k Hk. rewrite <- (HattrA k Hk).
    destruct (cache_headers_spec W selfA job_state) as ([_ Hb] & _ & _).
    - unfold selfA. destruct (ci_contains _ _); rewrite ?self_headers_on_headers, H0.
      + eapply CaseInsensitiveDict_wf; eassumption.
      + apply dict_wf_ci_setitem. eapply CaseInsensitiveDict_wf; eassumption.
    - apply Hb. simpl. rewrite orb_false_r. now apply String.eqb_neq. }
  assert (HmC : getattr selfC "method"
                = if is_not_None (getattr self "method") then getattr self "method"
                  else VStr "GET").
  { unfold selfC. rewrite (HattrB "method") by discriminate.
    destruct (is_not_None (getattr self "method")).
    - apply HattrB. discriminate.
    - apply getattr_setattr_eq. }
  assert (HnnC : is_not_None (getattr selfC "method") = true).
  { rewrite HmC. destruct (is_not_None (getattr self "method")) eqn:E; [exact E|reflexivity]. }
  assert (HhC : self_headers selfC = self_headers selfB).
  { unfold selfC. destruct (is_not_None (getattr selfB "method")); [reflexivity|].
    unfold self_headers. now rewrite getattr_setattr_neq by discriminate. }
  assert (HdC : getattr selfC "data" = getattr self "data").
  { unfold selfC. destruct (is_not_None (getattr selfB "method")).
    - apply HattrB. discriminate.
    - rewrite getattr_setattr_neq by discriminate. apply HattrB. discriminate. }
  assert (HA : forall h,
             ci_lookup h (self_headers selfA)
             = match ci_lookup h own with
               | Some v => Some v
               | None => if String.eqb (lower h) "user-agent"
                         then Some (VStr (user_agent W)) else None
               end).
  { intros h. unfold selfA. rewrite H0.
    destruct (String.eqb_spec (lower h) "user-agent") as [E|Hne].
    - rewrite (ci_contains_lookup "User-Agent" h own) by (now rewrite E).
      destruct (ci_lookup h own) as [v|] eqn:El.
      + now rewrite H0, El.
      + rewrite self_headers_on_headers, H0.
        apply ci_lookup_setitem_same. now rewrite E.
    - destruct (ci_contains "User-Agent" own).
      + rewrite H0. now destruct (ci_lookup h own).
      + rewrite self_headers_on_headers, H0.
        rewrite ci_lookup_setitem_neq by (intros E; apply Hne; now rewrite <- E).
        now destruct (ci_lookup h own). }
  split; [|split].
  - intros h N1 N2 N3 N4.
    assert (HB : ci_lookup h (self_headers selfB) = ci_lookup h (self_headers selfA))
      by now apply cache_headers_frame.
    unfold selfD. rewrite HnnC, HdC.
    destruct (is_not_None (getattr self "data")).
    + destruct (String.eqb_spec (lower h) "content-type") as [E|Hne].
      * rewrite (ci_contains_lookup "Content-Type" h) by (now rewrite E).
        rewrite HhC, HB, HA.
        assert (Hua : String.eqb (lower h) "user-agent" = false) by now rewrite E.
        rewrite Hua. destruct (ci_lookup h own) as [v|] eqn:El.
        -- now rewrite HhC, HB, HA, El.
        -- rewrite self_headers_on_headers, HhC.
           apply ci_lookup_setitem_same. now rewrite E.
      * rewrite andb_false_l.
        destruct (ci_contains "Content-Type" (self_headers selfC)).
        -- rewrite HhC, HB, HA. reflexivity.
        -- rewrite self_headers_on_headers, HhC.
           rewrite ci_lookup_setitem_neq by (intros E; apply Hne; now rewrite <- E).
           rewrite HB, HA. reflexivity.
    + rewrite andb_false_r, HhC, HB, HA.
      destruct (ci_lookup h own); [reflexivity|].
      now destruct (String.eqb (lower h) "user-agent").
  - unfold selfD. rewrite HnnC.
    destruct (is_not_None (getattr selfC "data")); [|exact HmC].
    destruct (ci_contains "Content-Type" (self_headers selfC)); [exact HmC|].
    now rewrite getattr_on_headers by discriminate.
  - assert (Hd : forall k, k <> "headers" -> k <> "method" ->
                   getattr selfD k = getattr self k).
    { intros k K1 K2. unfold selfD. rewrite HnnC.
      assert (HkC : getattr selfC k = getattr self k).
      { unfold selfC. destruct (is_not_None (getattr selfB "method")).
        - now apply HattrB.
        - rewrite getattr_setattr_neq by congruence. now apply HattrB. }
      destruct (is_not_None (getattr selfC "data")); [|exact HkC].
      destruct (ci_contains "Content-Type" (self_headers selfC)); [exact HkC|].
      now rewrite getattr_on_headers by assumption. }
    rewrite !Hd by discriminate.
    destruct (is_not_None (getattr self "http_proxy"));
      destruct (is_not_None (getattr self "https_proxy")); reflexivity.
Qed.

Lemma retrieve_attrs_kept W self job_state self1 proxies self2 k :
  prepare W self job_state = Return (self1, proxies) ->
  stringify_cookies W self1 = Return self2 ->
  mem k ["headers"; "method"; "cookies"] = false ->
  getattr self2 k = getattr self k.
Proof.
  intros Hp Hc Hk. apply prepare_spec in Hp. destruct Hp as ([_ H1] & _ & _).
  apply stringify_cookies_spec in Hc. destruct Hc as [_ H2].
  simpl in Hk. rewrite !orb_false_r in Hk.
  apply orb_false_elim in Hk. destruct Hk as [Kh Hk].
  apply orb_false_elim in Hk. destruct Hk as [Km Kc].
  rewrite H2 by (simpl; now rewrite Kc).
  apply H1. simpl. now rewrite Kh, Km.
Qed.

(** The headers other than those of the cache that a request carries are the
    headers of the job, looked up whatever their case, with two defaults: the
    user agent of the program where the job sets no [User-Agent], and the
    content type of a form where the job has data and sets no
    [Content-Type]. *)
Theorem UrlJob_retrieve_request_headers (W : world) (self : job)
  (job_state : JobState) (r : Request.t) (own : ci_store value) (h : string) :
  In (requests_request r) (calls (UrlJob_retrieve W self job_state)) ->
  CaseInsensitiveDict (getattr self "headers") = Return own ->
  mem (lower h) ["if-none-match"; "if-modified-since"; "cache-control"; "expires"]
  = false ->
  ci_lookup h (Request.headers r)
  = match ci_lookup h own with
    | Some v => Some v
    | None =>
        if String.eqb (lower h) "user-agent" then Some (VStr (user_agent W))
        else if String.eqb (lower h) "content-type" && is_not_None (getattr self "data")
        then Some (VStr "application/x-www-form-urlencoded")
        else None
    end.
Proof.
  intros Hin Hown Hh. apply UrlJob_retrieve_request_args in Hin.
  destruct Hin as (self1 & proxies & self2 & url & Hp & _ & _ & _ & Hc & ->).
  simpl. apply stringify_cookies_spec in Hc.
  rewrite (self_headers_same_but ["cookies"] self1 self2) by (assumption || reflexivity).
  destruct (prepare_parts _ _ _ _ _ _ Hp Hown) as [Hheaders _].
  simpl in Hh. rewrite !orb_false_r in Hh.
  apply orb_false_elim in Hh. destruct Hh as [N1 Hh].
  apply orb_false_elim in Hh. destruct Hh as [N2 Hh].
  apply orb_false_elim in Hh. destruct Hh as [N3 N4].
  apply Hheaders; intros E;
    [rewrite <- E in N1 | rewrite <- E in N2 | rewrite <- E in N3 | rewrite <- E in N4];
    discriminate.
Qed.

Lemma UrlJob_retrieve_request_headers_witness :
  let W := sample_world (Return (sample_response [] "<html></html>"))
             (Raise OSError) (Raise OtherError) in
  let self :=
    {| cls := UrlJob;
       attrs := [("url", VStr "https://example.org/"); ("data", VStr "q=1");
                 ("headers", VDict [("user-agent", VStr "curl/7.0")])] |} in
  let job_state := {| old_etag := VNone; old_timestamp := None; tries := 0 |} in
  exists r,
    In (requests_request r) (calls (UrlJob_retrieve W self job_state))
    /\ ci_lookup "User-Agent" (Request.headers r) = Some (VStr "curl/7.0")
    /\ ci_lookup "Content-Type" (Request.headers r)
       = Some (VStr "application/x-www-form-urlencoded").
Proof.
  intros W self job_state. eexists. split; [left; reflexivity|]. split.
  - refine (UrlJob_retrieve_request_headers W self job_state _ _ "User-Agent" _ eq_refl
              eq_refl).
    left. reflexivity.
  - refine (UrlJob_retrieve_request_headers W self job_state _ _ "Content-Type" _ eq_refl
              eq_refl).
    left. reflexivity.
Defined.

(** The other arguments of a request: the method is the one of the job and
    [GET] where the job has none, also when the job has data to send; the
    data, the URL and the switches for redirects and for the verification of
    certificates are those of the job; and a proxy of the job takes the place
    of the proxy of the environment. *)
Theorem UrlJob_retrieve_request_arguments (W : world) (self : job)
  (job_state : JobState) (r : Request.t) :
  In (requests_request r) (calls (UrlJob_retrieve W self job_state)) ->
  Request.method r
  = (if is_not_None (getattr self "method") then getattr self "method" else VStr "GET")
  /\ Request.data r = getattr self "data"
  /\ getattr self "url" = VStr (Request.url r)
  /\ Request.allow_redirects r = negb (truthy (getattr self "no_redirects"))
  /\ Request.verify r = negb (truthy (getattr self "ssl_no_verify"))
  /\ Request.proxies r
     = [("http", if is_not_None (getattr self "http_proxy")
                 then getattr self "http_proxy" else getenv W "HTTP_PROXY");
        ("https", if is_not_None (getattr self "https_proxy")
                  then getattr self "https_proxy" else getenv W "HTTPS_PROXY")].
Proof.
  intros Hin. apply UrlJob_retrieve_request_args in Hin.
  destruct Hin as (self1 & proxies & self2 & url & Hp & Hurl & _ & _ & Hc & ->).
  simpl.
  assert (Hown : exists own, CaseInsensitiveDict (getattr self "headers") = Return own).
  { unfold prepare in Hp. destruct (CaseInsensitiveDict _); [eauto | discriminate]. }
  destruct Hown as [own Hown].
  destruct (prepare_parts _ _ _ _ _ _ Hp Hown) as (_ & Hmethod & Hproxies).
  pose proof (prepare_spec _ _ _ _ _ Hp) as ([_ H1] & _ & _).
  pose proof (stringify_cookies_spec _ _ _ Hc) as [_ H2].
  rewrite (retrieve_attrs_kept W self job_state self1 proxies self2 "data"),
    (retrieve_attrs_kept W self job_state self1 proxies self2 "no_redirects"),
    (retrieve_attrs_kept W self job_state self1 proxies self2 "ssl_no_verify")
    by (assumption || reflexivity).
  rewrite (H2 "method"), Hmethod by reflexivity.
  rewrite <- (H1 "url"), Hurl by reflexivity.
  repeat split. exact Hproxies.
Qed.

Lemma UrlJob_retrieve_request_arguments_witness :
  let W := sample_world (Return (sample_response [] "<html></html>"))
             (Raise OSError) (Raise OtherError) in
  let self :=
    {| cls := UrlJob;
       attrs := [("url", VStr "https://example.org/"); ("data", VStr "q=1");
                 ("http_proxy", VStr "http://proxy.example.org:3128")] |} in
  let job_state := {| old_etag := VNone; old_timestamp := None; tries := 0 |} in
  exists r,
    In (requests_request r) (calls (UrlJob_retrieve W self job_state))
    /\ Request.method r = VStr "GET"
    /\ Request.data r = VStr "q=1"
    /\ Request.proxies r
       = [("http", VStr "http://proxy.example.org:3128"); ("https", VNone)].
Proof.
  intros W self job_state. eexists. split; [left; reflexivity|].
  assert (H := UrlJob_retrieve_request_arguments W self job_state _
                 (or_introl eq_refl)).
  destruct H as (Hm & Hd & _ & _ & _ & Hp).
  split; [exact Hm|]. split; [exact Hd | exact Hp].
Defined.

Lemma stringify_cookies_strings W self self' :
  stringify_cookies W self = Return self' ->
  if truthy (getattr self "cookies") then
    exists d, getattr self' "cookies" = VDict d
              /\ forall k v, In (k, v) d -> exists s, v = VStr s
  else getattr self' "cookies" = getattr self "cookies".
Proof.
  unfold stringify_cookies. destruct (truthy (getattr self "cookies")).
  - destruct (getattr self "cookies") as [| | | | | |d|d]; try discriminate;
      intros [= <-]; rewrite getattr_setattr_eq; eexists; (split; [reflexivity|]);
      intros k v Hin; apply in_map_iff in Hin; destruct Hin as (x & [= _ <-] & _); eauto.
  - now intros [= <-].
Qed.

(** The cookies handed to [requests] are strings: where the job has cookies,
    the request has a dict of them in which every value is a [str]; where it
    has none, the request has what the job has ([None], or an empty
    mapping). *)
Theorem UrlJob_retrieve_request_cookies (W : world) (self : job)
  (job_state : JobState) (r : Request.t) :
  In (requests_request r) (calls (UrlJob_retrieve W self job_state)) ->
  if truthy (getattr self "cookies") then
    exists d, Request.cookies r = VDict d
              /\ forall k v, In (k, v) d -> exists s, v = VStr s
  else Request.cookies r = getattr self "cookies".
Proof.
  intros Hin. apply UrlJob_retrieve_request_args in Hin.
  destruct Hin as (self1 & proxies & self2 & url & Hp & _ & _ & _ & Hc & ->).
  simpl. apply prepare_spec in Hp. destruct Hp as ([_ H1] & _ & _).
  apply stringify_cookies_strings in Hc.
  now rewrite (H1 "cookies") in Hc by reflexivity.
Qed.

Lemma UrlJob_retrieve_request_cookies_witness :
  let W := sample_world (Return (sample_response [] "<html></html>"))
             (Raise OSError) (Raise OtherError) in
  let self :=
    {| cls := UrlJob;
       attrs := [("url", VStr "https://example.org/");
                 ("cookies", VDict [("session", VInt 42); ("beta", VBool true)])] |} in
  let job_state := {| old_etag := VNone; old_timestamp := None; tries := 0 |} in
  exists r,
    In (requests_request r) (calls (UrlJob_retrieve W self job_state))
    /\ Request.cookies r = VDict [("session", VStr "42"); ("beta", VStr "True")]
    /\ exists d, Request.cookies r = VDict d
                 /\ forall k v, In (k, v) d -> exists s, v = VStr s.
Proof.
  intros W self job_state. eexists. split; [left; reflexivity|].
  split; [reflexivity|].
  exact (UrlJob_retrieve_request_cookies W self job_state _ (or_introl eq_refl)).
Defined.

(** ** Outcomes of a retrieval *)

(** What a response makes of a retrieval over HTTP, by its status: a status
    from 400 to 599 raises [HTTPError] and 304 raises [NotModifiedError], in
    both cases before any name is taken from the response; every other
    status returns data. *)
Theorem UrlJob_retrieve_status (W : world) (self : job) (job_state : JobState)
  (r : Request.t) (response : Response.t) :
  In (requests_request r) (calls (UrlJob_retrieve W self job_state)) ->
  request W r = Return response ->
  let status_code := Response.status_code response in
  let run := UrlJob_retrieve W self job_state in
  (400 <= status_code < 600 ->
   outcome run = Raise (HTTPError status_code)
   /\ getattr (self_after run) "name" = getattr self "name")
  /\ (status_code = 304 ->
      outcome run = Raise (NotModifiedError 304)
      /\ getattr (self_after run) "name" = getattr self "name")
  /\ (~ 400 <= status_code < 600 -> status_code <> 304 ->
      exists data etag, outcome run = Return (data, etag)).
Proof.
  intros Hin Hresp status_code run.
  pose proof (UrlJob_retrieve_request _ _ _ _ Hin)
    as (self1 & proxies & self2 & Hp & Hc & _ & _ & Hrun).
  rewrite Hresp in Hrun. destruct Hrun as [Hself Hout]. fold run in Hself, Hout.
  assert (Hname : getattr self2 "name" = getattr self "name").
  { apply (retrieve_attrs_kept W self job_state self1 proxies); auto. }
  rewrite Hself, Hout. unfold handle_response. fold status_code.
  split; [|split].
  - intros [Hlo Hhi].
    assert (E : (400 <=? status_code) && (status_code <? 600) = true)
      by (apply andb_true_iff; split; [now apply Z.leb_le | now apply Z.ltb_lt]).
    rewrite E. now split.
  - intros E. rewrite E. simpl. now split.
  - intros Hn H304.
    assert (E : (400 <=? status_code) && (status_code <? 600) = false).
    { apply andb_false_iff.
      destruct (Z.leb_spec 400 status_code); [right | now left].
      apply Z.ltb_ge. lia. }
    rewrite E. apply Z.eqb_neq in H304. rewrite H304.
    destruct (filter_chain_needs_bytes W _); simpl; eauto.
Qed.

Lemma UrlJob_retrieve_status_witness :
  let answer :=
    {| Response.status_code := 404; Response.history := [];
       Response.headers := []; Response.content := "<title>Not Found</title>";
       Response.encoding := VStr "utf-8"; Response.apparent_encoding := VStr "utf-8";
       Response.text := fun _ => "<title>Not Found</title>" |} in
  let W := sample_world (Return answer) (Raise OSError) (Raise OtherError) in
  let self := {| cls := UrlJob; attrs := [("url", VStr "https://example.org/")] |} in
  let job_state := {| old_etag := VNone; old_timestamp := None; tries := 0 |} in
  outcome (UrlJob_retrieve W self job_state) = Raise (HTTPError 404)
  /\ getattr (self_after (UrlJob_retrieve W self job_state)) "name" = VNone.
Proof.
  intros answer W self job_state.
  refine (proj1 (UrlJob_retrieve_status W self job_state _ answer _ eq_refl) _).
  - left. reflexivity.
  - simpl. lia.
Defined.

(** A retrieval of a [file] or [ftp] URL never goes through [requests]; what
    it returns comes with the empty ETag, and it takes no name for the job. *)
Theorem UrlJob_retrieve_file_ftp (W : world) (self : job) (job_state : JobState)
  (url : string) :
  getattr self "url" = VStr url ->
  urlparse_scheme url = "file" \/ urlparse_scheme url = "ftp" ->
  let run := UrlJob_retrieve W self job_state in
  (forall r, ~ In (requests_request r) (calls run))
  /\ (forall data etag, outcome run = Return (data, etag) -> etag = VStr "")
  /\ getattr (self_after run) "name" = getattr self "name".
Proof.
  intros Hurl Hscheme run. unfold run, UrlJob_retrieve.
  destruct (prepare W self job_state) as [[self1 proxies]|e] eqn:Ep; simpl.
  - pose proof (prepare_spec _ _ _ _ _ Ep) as ([_ H1] & _ & _).
    rewrite (H1 "url"), Hurl by reflexivity.
    rewrite <- (H1 "name") by reflexivity.
    destruct (String.eqb_spec (urlparse_scheme url) "file") as [Ef|Hf]; simpl.
    + repeat split.
      * intros r [H|[]]. discriminate.
      * intros data etag.
        destruct (filter_chain_needs_bytes W _);
          [destruct (read_bytes W _) | destruct (read_text W _)]; simpl;
          try discriminate; now intros [= _ <-].
    + destruct (String.eqb_spec (urlparse_scheme url) "ftp") as [Eftp|Hftp]; simpl;
        [|tauto].
      repeat split.
      * intros r [H|[]]. discriminate.
      * intros data etag.
        destruct (filter_chain_needs_bytes W _);
          [destruct (retrbinary W _ _) | destruct (retrlines W _ _)]; simpl;
          try discriminate; now intros [= _ <-].
  - repeat split; [tauto | discriminate].
Qed.

Lemma UrlJob_retrieve_file_ftp_witness :
  let W := sample_world (Raise ConnectionError) (Return "<title>News</title>")
             (Raise OtherError) in
  let self :=
    {| cls := UrlJob; attrs := [("url", VStr "FTP://example.org/index.html")] |} in
  let job_state := {| old_etag := VStr "33a64df5"; old_timestamp := None; tries := 0 |} in
  outcome (UrlJob_retrieve W self job_state)
  = Return (Text "<title>News</title>", VStr "")
  /\ forall data etag,
       outcome (UrlJob_retrieve W self job_state) = Return (data, etag) ->
       etag = VStr "".
Proof.
  intros W self job_state. split; [reflexivity|].
  refine (proj1 (proj2 (UrlJob_retrieve_file_ftp W self job_state
                          "FTP://example.org/index.html" eq_refl _))).
  right. reflexivity.
Defined.

(** ** Errors and names *)

(** With none of the four [ignore_...] directives set, no error is ignored:
    the call returns [False] for every exception and every class of job, but
    for a [BrowserJob] where pyppeteer is not installed, whose call raises
    [ImportError] at its import and returns nothing. *)
Theorem ignore_error_nothing_set (pyppeteer_installed : bool) (W : world) (self : job)
  (e : exception) :
  truthy (getattr self "ignore_connection_errors") = false ->
  truthy (getattr self "ignore_timeout_errors") = false ->
  truthy (getattr self "ignore_too_many_redirects") = false ->
  truthy (getattr self "ignore_http_error_codes") = false ->
  ignore_error_call pyppeteer_installed W self e
  = match cls self with
    | BrowserJob => if pyppeteer_installed then inr (VBool false) else inl ImportError
    | Job | UrlJob | ShellJob => inr (VBool false)
    end.
Proof.
  intros H1 H2 H3 H4.
  unfold ignore_error_call, ignore_error, UrlJob_ignore_error, BrowserJob_ignore_error.
  rewrite H1, H2, H3, H4, !andb_false_r.
  destruct (cls self); try reflexivity; [now destruct e|].
  destruct pyppeteer_installed; [now destruct e | reflexivity].
Qed.

Lemma ignore_error_nothing_set_witness :
  let W := sample_world (Raise ConnectionError) (Raise OSError) (Raise OtherError) in
  let job1 :=
    {| cls := UrlJob;
       attrs := [("url", VStr "https://example.org/");
                 ("ignore_connection_errors", VBool false)] |} in
  let job2 :=
    {| cls := BrowserJob;
       attrs := [("url", VStr "https://example.org/"); ("use_browser", VBool true)] |} in
  ignore_error_call false W job1 ConnectTimeout = inr (VBool false)
  /\ ignore_error_call true W job2 (PageError "net::ERR_TIMED_OUT") = inr (VBool false)
  /\ ignore_error_call false W job2 (PageError "net::ERR_TIMED_OUT") = inl ImportError.
Proof.
  intros W job1 job2. split; [|split].
  - apply (ignore_error_nothing_set false W job1 ConnectTimeout); reflexivity.
  - apply (ignore_error_nothing_set true W job2 (PageError "net::ERR_TIMED_OUT"));
      reflexivity.
  - apply (ignore_error_nothing_set false W job2 (PageError "net::ERR_TIMED_OUT"));
      reflexivity.
Defined.

(** A job that [unserialize] returns has a location, and so a name to show:
    its location is truthy, and [pretty_name] is the name of the job where it
    has one and the location otherwise, truthy in both cases. *)
Theorem unserialize_pretty_name (d : dict) (j : job) :
  dict_wf d ->
  unserialize JobBase_subclasses d = Return j ->
  truthy (get_location j) = true
  /\ truthy (pretty_name j) = true
  /\ (truthy (getattr j "name") = true -> pretty_name j = getattr j "name")
  /\ (truthy (getattr j "name") = false -> pretty_name j = get_location j).
Proof.
  intros Hwf H. destruct (unserialize_result d j Hwf H) as (Hcls & Hreq & _).
  assert (Hloc : truthy (get_location j) = true).
  { unfold get_location, py_or. simpl in Hcls.
    destruct Hcls as [E|[E|[E|[]]]]; rewrite <- E in *.
    - destruct (truthy (getattr j "user_visible_url")) eqn:U; [exact U|].
      apply Hreq. simpl. auto.
    - destruct (truthy (getattr j "user_visible_url")) eqn:U; [exact U|].
      apply Hreq. simpl. auto.
    - apply Hreq. simpl. auto. }
  unfold pretty_name, py_or. split; [exact Hloc|].
  destruct (truthy (getattr j "name")) eqn:N.
  - repeat split; [exact N | discriminate].
  - repeat split; [exact Hloc | discriminate].
Qed.

Lemma unserialize_pretty_name_witness :
  let d := [("command", VStr "ls ~"); ("name", VStr "")] in
  let j := {| cls := ShellJob; attrs := d |} in
  dict_wf d
  /\ unserialize JobBase_subclasses d = Return j
  /\ pretty_name j = VStr "ls ~".
Proof.
  intros d j.
  assert (Hwf : dict_wf d) by (repeat constructor; simpl; intuition discriminate).
  split; [exact Hwf|]. split; [reflexivity|].
  exact (proj2 (proj2 (proj2 (unserialize_pretty_name d j Hwf eq_refl))) eq_refl).
Defined.

(** ** The title pattern *)

Lemma in_string_append c a b : in_string c (a ++ b) = in_string c a || in_string c b.
Proof.
  unfold in_string. induction a as [|x a IH]; simpl; [reflexivity|].
  now rewrite IH, orb_assoc.
Qed.

Lemma in_string_cons c x s : in_string c (String x s) = Ascii.eqb c x || in_string c s.
Proof. reflexivity. Qed.

Lemma in_string_nil c : in_string c "" = false.
Proof. reflexivity. Qed.

Lemma strip_prefix_sound p s r : strip_prefix p s = Some r -> s = p ++ r.
Proof.
  revert s. induction p as [|a p IH]; simpl; intros s.
  - now intros [= ->].
  - destruct s as [|b s]; [discriminate|].
    destruct (Ascii.eqb_spec a b) as [->|]; [|discriminate].
    intros H. now rewrite (IH _ H).
Qed.

Lemma title_group_sound s g rest :
  title_group s = Some (g, rest) ->
  s = g ++ "</title>" ++ rest /\ g <> "" /\ in_string newline g = false.
Proof.
  revert g. induction s as [|c s IH]; cbn [title_group]; intros g; [discriminate|].
  destruct (Ascii.eqb c newline) eqn:En; [discriminate|].
  assert (Hc : in_string newline (String c "") = false)
    by (now rewrite in_string_cons, in_string_nil, Ascii.eqb_sym, En).
  destruct (strip_prefix "</title>" s) as [r|] eqn:E.
  - intros [= <- <-]. apply strip_prefix_sound in E. subst s.
    repeat split; [discriminate | exact Hc].
  - destruct (title_group s) as [[g' r]|]; [|discriminate].
    intros [= <- <-]. destruct (IH g' eq_refl) as (-> & _ & Hg).
    repeat split; [discriminate|].
    rewrite in_string_cons, Hg, Ascii.eqb_sym, En. reflexivity.
Qed.

Lemma title_attrs_sound s g rest :
  title_attrs s = Some (g, rest) ->
  exists attrs,
    s = attrs ++ ">" ++ g ++ "</title>" ++ rest
    /\ in_string newline attrs = false
    /\ g <> "" /\ in_string newline g = false.
Proof.
  induction s as [|c s IH]; cbn [title_attrs]; [discriminate|].
  destruct (if Ascii.eqb c ">" then title_group s else None) as [m|] eqn:E.
  - intros [= ->]. destruct (Ascii.eqb_spec c ">") as [->|]; [|discriminate].
    apply title_group_sound in E. destruct E as (-> & Hg & Hn).
    exists "". repeat split; assumption.
  - destruct (Ascii.eqb c newline) eqn:En; [discriminate|].
    intros H. destruct (IH H) as (attrs & -> & Ha & Hg & Hn).
    exists (String c attrs). repeat split; try assumption.
    rewrite in_string_cons, Ha, Ascii.eqb_sym, En. reflexivity.
Qed.

Lemma search_title_decompose (s g rest : string) :
  search_title s = Some (g, rest) ->
  exists before attrs,
    s = before ++ "<title" ++ attrs ++ ">" ++ g ++ "</title>" ++ rest
    /\ in_string newline attrs = false
    /\ g <> "" /\ in_string newline g = false.
Proof.
  induction s as [|c s IH].
  - discriminate.
  - cbn [search_title].
    destruct (strip_prefix "<title" (String c s)) as [s'|] eqn:E.
    + destruct (title_attrs s') as [m|] eqn:Em.
      * intros [= ->]. apply strip_prefix_sound in E.
        apply title_attrs_sound in Em. destruct Em as (attrs & -> & Ha & Hg & Hn).
        exists "", attrs. repeat split; assumption.
      * intros H. destruct (IH H) as (before & attrs & -> & Ha & Hg & Hn).
        exists (String c before), attrs. repeat split; assumption.
    + intros H. destruct (IH H) as (before & attrs & -> & Ha & Hg & Hn).
      exists (String c before), attrs. repeat split; assumption.
Qed.

(** What [re.search] finds for the title pattern is in the text as the
    pattern says: after a [<title] and, up to the next [>], attributes on the
    same line, the group stands before a [</title>]; it is not empty and
    holds no line break. *)
Theorem search_title_sound (s g rest : string) :
  search_title s = Some (g, rest) ->
  exists before attrs,
    s = before ++ "<title" ++ attrs ++ ">" ++ g ++ "</title>" ++ rest
    /\ in_string newline attrs = false
    /\ g <> "" /\ in_string newline g = false.
Proof. exact (search_title_decompose s g rest). Qed.

Lemma search_title_sound_witness :
  let s := "<html><title lang='en'>News</title></html>" in
  search_title s = Some ("News", "</html>")
  /\ exists before attrs,
       s = before ++ "<title" ++ attrs ++ ">" ++ "News" ++ "</title>" ++ "</html>"
       /\ in_string newline attrs = false
       /\ "News" <> "" /\ in_string newline "News" = false.
Proof.
  intros s. split; [reflexivity|].
  exact (search_title_sound s "News" "</html>" eq_refl).
Defined.

Lemma take_in_string c n s : in_string c s = false -> in_string c (take n s) = false.
Proof.
  revert s. induction n as [|n IH]; intros s; [reflexivity|].
  destruct s as [|x s]; cbn [take]; [reflexivity|].
  rewrite !in_string_cons. intros H. apply orb_false_elim in H. destruct H as [H1 H2].
  now rewrite H1, IH.
Qed.

(** A name taken from a title is a name to show on one line: either
    retrieval leaves the name of the job as it is, or it sets a name that is
    not empty and holds no line break, and [UrlJob] one of 60 characters at
    most. *)
Theorem name_from_title_shape (self : job) (text : string) :
  (getattr (UrlJob_name_from_title self text) "name" = getattr self "name"
   \/ exists name,
        getattr (UrlJob_name_from_title self text) "name" = VStr name
        /\ name <> "" /\ in_string newline name = false
        /\ (String.length name <= 60)%nat)
  /\ (getattr (BrowserJob_name_from_title self text) "name" = getattr self "name"
      \/ exists name,
           getattr (BrowserJob_name_from_title self text) "name" = VStr name
           /\ name <> "" /\ in_string newline name = false).
Proof.
  split.
  - unfold UrlJob_name_from_title. destruct (negb _); [|now left].
    destruct (search_title text) as [[g rest]|] eqn:E; [|now left].
    right. exists (take 60 g). apply search_title_decompose in E.
    destruct E as (_ & _ & _ & _ & Hg & Hn).
    split; [apply getattr_setattr_eq|]. split; [|split].
    + destruct g; [congruence | discriminate].
    + now apply take_in_string.
    + apply take_length.
  - unfold BrowserJob_name_from_title. destruct (negb _); [|now left].
    destruct (search_title text) as [[g rest]|] eqn:E.
    + destruct (findall_title_head _ _ _ E) as [more ->].
      right. exists g. apply search_title_decompose in E.
      destruct E as (_ & _ & _ & _ & Hg & Hn).
      split; [apply getattr_setattr_eq | now split].
    + unfold findall_title. destruct (String.length text); simpl; [now left|].
      rewrite E. now left.
Qed.

(** ** The format of the GUID *)







(** ** The set-up of the browser *)

Lemma lstrip_dash_idem s : lstrip_dash (lstrip_dash s) = lstrip_dash s.
Proof.
  induction s as [|c s IH]; [reflexivity|].
  cbn [lstrip_dash]. destruct (Ascii.eqb_spec c "-") as [->|Hne]; [exact IH|].
  destruct c as [[] [] [] [] [] [] [] []]; try reflexivity. congruence.
Qed.

Lemma dashed_length l args : dashed l = inr args -> List.length args = List.length l.
Proof.
  revert args. induction l as [|x l IH]; simpl; intros args.
  - now intros [= <-].
  - destruct x; try discriminate. destruct (dashed l); [discriminate|].
    intros [= <-]. simpl. now rewrite (IH _ eq_refl).
Qed.

Lemma dashed_shape l args a :
  dashed l = inr args -> In a args -> exists s, a = "--" ++ s /\ lstrip_dash s = s.
Proof.
  revert args. induction l as [|x l IH]; simpl; intros args.
  - intros [= <-] [].
  - destruct x; try discriminate. destruct (dashed l) as [|l']; [discriminate|].
    intros [= <-] [<-|Hin]; [|now apply (IH l')].
    eexists. split; [reflexivity | apply lstrip_dash_idem].
Qed.

Lemma dashed_again l args : dashed l = inr args -> dashed (map VStr args) = inr args.
Proof.
  revert args. induction l as [|x l IH]; simpl; intros args.
  - now intros [= <-].
  - destruct x; try discriminate. destruct (dashed l) as [|l']; [discriminate|].
    intros [= <-]. cbn [map dashed]. rewrite (IH l' eq_refl).
    change (lstrip_dash (String "-" (String "-" (lstrip_dash s))))
      with (lstrip_dash (lstrip_dash s)).
    now rewrite lstrip_dash_idem.
Qed.

Lemma setitem_idem {V} k (v : V) d : setitem k v (setitem k v d) = setitem k v d.
Proof.
  induction d as [|[k0 v0] d IH]; simpl.
  - now rewrite String.eqb_refl.
  - destruct (String.eqb k k0) eqn:E; simpl.
    + now rewrite String.eqb_refl.
    + now rewrite E, IH.
Qed.

Lemma setattr_idem self k v : setattr (setattr self k v) k v = setattr self k v.
Proof. unfold setattr. simpl. now rewrite setitem_idem. Qed.

(** The switches are brought to one form once and for all: each argument for
    the browser is [--] followed by a switch without dashes at its head, and
    a second set-up of the same job finds the switches in this form and
    leaves the job and the arguments as they are. *)
Theorem switches_args_again (self self' : job) (args : list string) :
  switches_args self = inr (self', args) ->
  switches_args self' = inr (self', args)
  /\ (forall a, In a args -> exists s, a = "--" ++ s /\ lstrip_dash s = s)
  /\ (truthy (getattr self "switches") = false -> self' = self /\ args = []).
Proof.
  unfold switches_args at 1. destruct (truthy (getattr self "switches")) eqn:T.
  - set (self1 := match getattr self "switches" with
                  | VStr s => setattr self "switches" (VList (map VStr (split "," s)))
                  | _ => self
                  end).
    assert (H1 : exists l, getattr self1 "switches" = VList l /\ l <> []
                           \/ forall l, getattr self1 "switches" <> VList l).
    { unfold self1. destruct (getattr self "switches") as [| | | |s|l| |] eqn:G;
        try (exists []; right; intros l; rewrite G; discriminate).
      - exists (map VStr (split "," s)). left. rewrite getattr_setattr_eq.
        split; [reflexivity|]. unfold split. now destruct (split_at "," s).
      - exists l. left. split; [exact G|]. intros ->. discriminate. }
    destruct H1 as [l [[Hl Hne]|Hnone]].
    + rewrite Hl. destruct (dashed l) as [e|sw] eqn:D; [discriminate|].
      intros [= <- <-]. split; [|split].
      * unfold switches_args. rewrite !getattr_setattr_eq.
        assert (Hsw : sw <> []).
        { intros ->. apply dashed_length in D. destruct l; [congruence | discriminate]. }
        destruct sw as [|a sw]; [congruence|]. cbn [map truthy].
        change (VStr a :: map VStr sw) with (map VStr (a :: sw)).
        rewrite (dashed_again _ _ D). now rewrite setattr_idem.
      * intros a. now apply (dashed_shape l).
      * discriminate.
    + destruct (getattr self1 "switches"); try discriminate.
      exfalso. now apply (Hnone l0).
  - intros [= <- <-]. split; [|split].
    + unfold switches_args. now rewrite T.
    + intros a [].
    + now split.
Qed.

Lemma switches_args_again_witness :
  let self :=
    {| cls := BrowserJob;
       attrs := [("url", VStr "https://example.org/"); ("use_browser", VBool true);
                 ("switches", VStr "incognito,-disable-gpu,--headless")] |} in
  let args := ["--incognito"; "--disable-gpu"; "--headless"] in
  let self' := setattr self "switches" (VList (map VStr args)) in
  switches_args self = inr (self', args)
  /\ switches_args self' = inr (self', args).
Proof.
  intros self args self'. split; [reflexivity|].
  exact (proj1 (switches_args_again self self' args eq_refl)).
Defined.

Lemma merge_defaults_lookup (defaults d : dict) k :
  lookup k (fold_left (fun d kv => if contains (fst kv) d then d
                                   else setitem (fst kv) (snd kv) d) defaults d)
  = match lookup k d with
    | Some v => Some v
    | None => lookup k defaults
    end.
Proof.
  revert d. induction defaults as [|[k0 v0] defaults IH]; intros d; simpl.
  - now destruct (lookup k d).
  - rewrite IH. unfold contains. destruct (String.eqb_spec k k0) as [->|Hne].
    + destruct (lookup k0 d) eqn:E; [now rewrite E|].
      now rewrite lookup_setitem_eq.
    + destruct (lookup k0 d); [reflexivity|].
      now rewrite lookup_setitem_neq by congruence.
Qed.

Lemma current_platform_known sys_platform sys_maxsize platform :
  current_platform sys_platform sys_maxsize = inr platform ->
  exists v, lookup platform DEFAULT_CHROMIUM_REVISION = Some v.
Proof.
  unfold current_platform.
  destruct (startswith sys_platform "linux"); [intros [= <-]; simpl; eauto|].
  destruct (startswith sys_platform "darwin"); [intros [= <-]; simpl; eauto|].
  destruct (_ || _); [|discriminate].
  destruct (_ <? _); intros [= <-]; simpl; eauto.
Qed.

(** The revision of Chromium is always found: for a job without a
    [chromium_revision], or with a mapping of revisions, it is the entry of
    the mapping for the platform and the default revision of the platform
    where the mapping has none, so that the [KeyError] of the code is never
    raised; any other [chromium_revision] is taken as it is, on every
    platform. *)
Theorem chromium_revision_chosen (sys_platform : string) (sys_maxsize : Z) (self : job) :
  let given := getattr self "chromium_revision" in
  chromium_revision sys_platform sys_maxsize self <> inl NoRevisionForPlatform
  /\ (forall platform d,
      current_platform sys_platform sys_maxsize = inr platform ->
      (truthy given = false /\ d = []) \/ (given = VDict d /\ d <> []) ->
      exists self',
        chromium_revision sys_platform sys_maxsize self
        = inr (self', match lookup platform d with
                      | Some v => v
                      | None => get_or_None platform DEFAULT_CHROMIUM_REVISION
                      end))
  /\ (truthy given = true -> (forall d, given <> VDict d) ->
      chromium_revision sys_platform sys_maxsize self = inr (self, given)).
Proof.
  intros given. unfold chromium_revision. fold given.
  set (self0 := if truthy given then self else _).
  assert (H0 : (truthy given = true /\ self0 = self
                /\ getattr self0 "chromium_revision" = given)
               \/ (truthy given = false
                   /\ getattr self0 "chromium_revision" = VDict DEFAULT_CHROMIUM_REVISION)).
  { unfold self0. destruct (truthy given) eqn:T; [left; auto|].
    right. split; [reflexivity | apply getattr_setattr_eq]. }
  split; [|split].
  - destruct (getattr self0 "chromium_revision"); try discriminate.
    destruct (current_platform sys_platform sys_maxsize) as [e|platform] eqn:P;
      [destruct e; try discriminate; unfold current_platform in P;
       repeat match type of P with
         | (if ?c then _ else _) = _ => destruct c; try discriminate
         end|].
    rewrite merge_defaults_lookup.
    destruct (current_platform_known _ _ _ P) as [v Hv]. rewrite Hv.
    now destruct (lookup platform d).
  - intros platform d P Hd.
    assert (Hrev : exists d0, getattr self0 "chromium_revision" = VDict d0
                     /\ match lookup platform d0 with
                        | Some v => Some v
                        | None => lookup platform DEFAULT_CHROMIUM_REVISION
                        end
                        = Some match lookup platform d with
                               | Some v => v
                               | None => get_or_None platform DEFAULT_CHROMIUM_REVISION
                               end).
    { destruct (current_platform_known _ _ _ P) as [v Hv].
      unfold get_or_None, get_or. rewrite Hv.
      destruct Hd as [[T ->]|[G Hne]].
      - destruct H0 as [[T' _]|[_ G0]]; [congruence|].
        exists DEFAULT_CHROMIUM_REVISION. split; [exact G0 | now rewrite Hv].
      - destruct H0 as [(_ & _ & G0)|[T _]].
        + exists d. split; [congruence|]. now destruct (lookup platform d).
        + rewrite G in T. destruct d; [congruence | discriminate]. }
    destruct Hrev as (d0 & G0 & Hl). rewrite G0, P, merge_defaults_lookup, Hl.
    eauto.
  - intros T Hnd. destruct H0 as [(_ & -> & G0)|[T' _]]; [|congruence].
    rewrite G0. destruct given; try reflexivity. exfalso. now apply (Hnd d).
Qed.

Lemma chromium_revision_chosen_witness :
  let self :=
    {| cls := BrowserJob;
       attrs := [("url", VStr "https://example.org/"); ("use_browser", VBool true);
                 ("chromium_revision", VDict [("mac", VInt 827102)])] |} in
  current_platform "linux" (2 ^ 63 - 1) = inr "linux"
  /\ exists self',
       chromium_revision "linux" (2 ^ 63 - 1) self = inr (self', VInt 843831).
Proof.
  intros self. split; [reflexivity|].
  refine (proj1 (proj2 (chromium_revision_chosen "linux" (2 ^ 63 - 1) self))
            "linux" [("mac", VInt 827102)] eq_refl _).
  right. split; [reflexivity | discriminate].
Defined.
